(** * mhealth-pmq: REST starter kit (users, posts, bearer tokens)

    A shallow embedding of the request pipeline of the repository:
    the relational tables of [src/db/schema.ts], the controllers
    [AuthController] and [PostController], the middleware
    [authenticateToken], [errorHandler], [notFound], and the routers.

    Conventions of the embedding
    - a JavaScript number that is an integer is a [Z]; [Js.double] rounds to
      the nearest double, so arithmetic is exact up to 2^53 and rounded
      above, and NaN is [None];
    - strings are [string]: text of one-byte characters, for which
      JavaScript's [length], zod's [min]/[max] and PostgreSQL's [varchar(n)]
      count the same thing; a JavaScript [undefined] / SQL [NULL] is [None];
    - the database is an explicit state [Db] threaded through the handlers;
      the driver refuses a parameter that does not fit its column
      ([integer], [bigint], [varchar(n)]), which is a thrown error;
    - the third-party libraries (bcryptjs, jsonwebtoken, zod's e-mail test,
      swagger-ui) and the process environment are the fields of [World];
    - the clock and the random salt read while handling one request are the
      fields of [Ambient];
    - the application runs on Express 4: a middleware that throws or calls
      [next(err)] reaches [errorHandler], while the promise an [async]
      handler returns is not looked at, so an error thrown inside one is
      never answered. *)

From Stdlib Require Import ZArith List String Ascii Bool Lia Sorted Permutation.
Import ListNotations.
Local Open Scope string_scope.
Local Open Scope Z_scope.
Set Warnings "-register-all".

(* ================================================================= *)
(** ** JavaScript values handed to [res.json] *)

Inductive json : Type :=
| JNull
| JBool (b : bool)
| JNum (n : Z)
| JStr (s : string)
| JDate (t : Z)                      (* a Date, serialised as ISO-8601 *)
| JArr (items : list json)
| JObj (fields : list (string * json)).

Definition opt_json {A} (f : A -> json) (o : option A) : json :=
  match o with Some a => f a | None => JNull end.

Fixpoint jget (k : string) (fields : list (string * json)) : option json :=
  match fields with
  | [] => None
  | (k', v) :: rest => if String.eqb k k' then Some v else jget k rest
  end.

Definition field (k : string) (j : json) : option json :=
  match j with JObj fs => jget k fs | _ => None end.

Definition keys (j : json) : list string :=
  match j with JObj fs => map fst fs | _ => [] end.

(** A member that is absent or a string, and one that is absent or a
    boolean; [None] for any other value. *)
Definition opt_str (j : option json) : option (option string) :=
  match j with
  | None => Some None
  | Some (JStr s) => Some (Some s)
  | Some _ => None
  end.

Definition opt_bool (j : option json) : option (option bool) :=
  match j with
  | None => Some None
  | Some (JBool b) => Some (Some b)
  | Some _ => None
  end.

(* ================================================================= *)
(** ** JavaScript string helpers used by the code *)

Module Js.

(** [s.split(sep)] for a one-character separator. *)
Fixpoint split (sep : ascii) (s : string) : list string :=
  match s with
  | EmptyString => [EmptyString]
  | String c t =>
      if Ascii.eqb c sep then EmptyString :: split sep t
      else match split sep t with
           | [] => [String c EmptyString]
           | h :: r => String c h :: r
           end
  end.

(** White space that [parseInt] skips: space, tab to carriage return and
    the no-break space. *)
Definition is_ws (c : ascii) : bool :=
  let n := nat_of_ascii c in
  (Nat.eqb n 32 || (Nat.leb 9 n && Nat.leb n 13) || Nat.eqb n 160)%bool.

Fixpoint skip_ws (s : string) : string :=
  match s with
  | String c t => if is_ws c then skip_ws t else s
  | EmptyString => s
  end.

Definition digit_val (radix : Z) (c : ascii) : option Z :=
  let n := Z.of_nat (nat_of_ascii c) in
  let v := if (48 <=? n) && (n <=? 57) then Some (n - 48)
           else if (97 <=? n) && (n <=? 102) then Some (n - 87)
           else if (65 <=? n) && (n <=? 70) then Some (n - 55)
           else None in
  match v with
  | Some d => if d <? radix then Some d else None
  | None => None
  end.

(** Longest prefix of digits; [acc] is [None] until a digit was read. *)
Fixpoint digits (radix : Z) (s : string) (acc : option Z) : option Z :=
  match s with
  | EmptyString => acc
  | String c t =>
      match digit_val radix c with
      | Some d =>
          digits radix t
            (Some (radix * match acc with Some a => a | None => 0 end + d))
      | None => acc
      end
  end.

(** The double nearest to an integer, ties to the even significand:
    the integer itself up to 2^53.  (Beyond the largest double JavaScript
    has Infinity; the integer is kept here, and wherever such a value is
    used below the driver refuses it as it refuses Infinity.) *)
Definition double (n : Z) : Z :=
  let a := Z.abs n in
  if a <? 2 ^ 53 then n
  else
    let k := Z.log2 a - 52 in
    let q := a / 2 ^ k in
    let r := a mod 2 ^ k in
    let half := 2 ^ (k - 1) in
    let q' := if (half <? r) || ((r =? half) && Z.odd q) then q + 1
              else q in
    Z.sgn n * (q' * 2 ^ k).

(** [a - b] and [a * b] on numbers. *)
Definition sub (a b : Z) : Z := double (a - b).
Definition mul (a b : Z) : Z := double (a * b).

(** The mathematical value [parseInt] reads, before it becomes a number. *)
Definition parse (s : string) : option Z :=
  let s1 := skip_ws s in
  let '(neg, s2) :=
    match s1 with
    | String "-" t => (true, t)
    | String "+" t => (false, t)
    | _ => (false, s1)
    end in
  let '(radix, s3) :=
    match s2 with
    | String "0" (String "x" t) => (16, t)
    | String "0" (String "X" t) => (16, t)
    | _ => (10, s2)
    end in
  option_map (fun v => if neg then - v else v) (digits radix s3 None).

(** [parseInt(s)] without a radix; [None] is NaN. *)
Definition parseInt (s : string) : option Z :=
  option_map double (parse s).

(** [parseInt(x) || d]: NaN, [undefined] and [0] are falsy. *)
Definition parseInt_or (x : option string) (d : Z) : Z :=
  match x with
  | None => d
  | Some s =>
      match parseInt s with
      | Some 0 | None => d
      | Some n => n
      end
  end.

(** The regular expression [/^\d+$/]. *)
Fixpoint all_digits (s : string) : bool :=
  match s with
  | EmptyString => true
  | String c t =>
      match digit_val 10 c with Some _ => all_digits t | None => false end
  end.

Definition digits_only (s : string) : bool :=
  match s with EmptyString => false | _ => all_digits s end.

End Js.

Fixpoint assoc (k : string) (l : list (string * string)) : option string :=
  match l with
  | [] => None
  | (k', v) :: rest => if String.eqb k k' then Some v else assoc k rest
  end.

(* ================================================================= *)
(** ** The tables of [src/db/schema.ts] *)

Record User := {
  u_id : Z;
  u_email : string;
  u_password : string;
  u_firstName : string;
  u_lastName : string;
  u_isActive : option bool;
  u_createdAt : option Z;
  u_updatedAt : option Z
}.

Record Post := {
  p_id : Z;
  p_title : string;
  p_content : option string;
  p_authorId : Z;
  p_isPublished : option bool;
  p_createdAt : option Z;
  p_updatedAt : option Z
}.

(** The database: the two tables in storage order and the two [serial]
    sequences that number new rows. *)
Record Db := {
  users : list User;
  posts : list Post;
  users_id_seq : Z;
  posts_id_seq : Z
}.

Definition set_users (d : Db) (us : list User) (seq : Z) : Db :=
  {| users := us; posts := posts d;
     users_id_seq := seq; posts_id_seq := posts_id_seq d |}.

Definition set_posts (d : Db) (ps : list Post) (seq : Z) : Db :=
  {| users := users d; posts := ps;
     users_id_seq := users_id_seq d; posts_id_seq := seq |}.

Module Sql.

(** The range of an [integer] column ([serial] is one) and the largest
    [bigint], the type of LIMIT and OFFSET. *)
Definition in_int4 (i : Z) : bool :=
  (-2147483648 <=? i) && (i <=? 2147483647).
Definition int8_max : Z := 9223372036854775807.

(** A value fits [varchar(n)]. *)
Definition fits (n : nat) (s : string) : bool :=
  Nat.leb (String.length s) n.

(** [.where(eq(column, i))] on an [integer] column: the rows whose column
    is [i]; a parameter outside the column's range is refused ([None]).
    A stored value is within the range, so a parameter that matches a row
    needs no check. *)
Definition where_int {A} (column : A -> Z) (i : Z) (rows : list A)
  : option (list A) :=
  match filter (fun r => column r =? i) rows with
  | [] => if in_int4 i then Some [] else None
  | found => Some found
  end.

(** [select().from(users).where(eq(users.email, e)).limit(1)] *)
Definition users_by_email (d : Db) (e : string) : list User :=
  firstn 1 (filter (fun u => String.eqb (u_email u) e) (users d)).

(** [select(..).from(users).where(eq(users.id, i)).limit(1)] *)
Definition users_by_id (d : Db) (i : Z) : option (list User) :=
  option_map (firstn 1) (where_int u_id i (users d)).

(** [select().from(posts).where(eq(posts.id, i)).limit(1)] *)
Definition posts_by_id (d : Db) (i : Z) : option (list Post) :=
  option_map (firstn 1) (where_int p_id i (posts d)).

(** [from(posts).leftJoin(users, eq(posts.authorId, users.id))] *)
Definition left_join (d : Db) : list (Post * option User) :=
  flat_map
    (fun p =>
       match filter (fun u => u_id u =? p_authorId p) (users d) with
       | [] => [(p, None)]
       | us => map (fun u => (p, Some u)) us
       end)
    (posts d).

(** [desc(posts.createdAt)]: PostgreSQL puts NULL first in a descending
    order.  It leaves the order of rows with equal keys open; here they
    keep their storage order. *)
Definition newer (a b : option Z) : bool :=
  match a, b with
  | None, Some _ => true
  | Some x, Some y => y <? x
  | _, None => false
  end.

Fixpoint insert_desc {A} (key : A -> option Z) (x : A) (l : list A)
  : list A :=
  match l with
  | [] => [x]
  | y :: t =>
      if newer (key y) (key x) then y :: insert_desc key x t
      else x :: l
  end.

Definition order_desc {A} (key : A -> option Z) (l : list A) : list A :=
  fold_right (insert_desc key) [] l.

(** [.limit(l).offset(o)]: drizzle writes LIMIT only for [l >= 0] and
    OFFSET only for a truthy [o]; PostgreSQL takes both as [bigint] and
    refuses a negative OFFSET.  (A number above 2^53 reaches the driver in
    its shortest decimal spelling; no table is that long.) *)
Definition limit_offset {A} (l o : Z) (rows : list A) : option (list A) :=
  if (int8_max <? l) || (int8_max <? o) || (o <? 0) then None
  else
    let rest := if o =? 0 then rows else skipn (Z.to_nat o) rows in
    Some (if l <? 0 then rest else firstn (Z.to_nat l) rest).

(** [insert(users).values({email, password, firstName, lastName})]:
    the id comes from the sequence, [isActive] defaults to true and both
    timestamps to now; the widths of the four [varchar] columns, the
    primary key and the unique e-mail are checked.  The sequence keeps the
    number it handed out also when the row is refused. *)
Definition insert_user (d : Db) (now : Z)
           (email password firstName lastName : string)
  : Db * option User :=
  let i := users_id_seq d + 1 in
  let row := {| u_id := i; u_email := email; u_password := password;
                u_firstName := firstName; u_lastName := lastName;
                u_isActive := Some true;
                u_createdAt := Some now; u_updatedAt := Some now |} in
  if negb (fits 255 email && fits 255 password
           && fits 100 firstName && fits 100 lastName)
     || existsb (fun u => (u_id u =? i) || String.eqb (u_email u) email)
                (users d)
  then (set_users d (users d) i, None)
  else (set_users d (users d ++ [row]) i, Some row).

(** [insert(posts).values({title, content, isPublished, authorId})]:
    the width of the title, the primary key and the foreign key to [users]
    are checked. *)
Definition insert_post (d : Db) (now : Z) (title : string)
           (content : option string) (isPublished : bool) (authorId : Z)
  : Db * option Post :=
  let i := posts_id_seq d + 1 in
  let row := {| p_id := i; p_title := title; p_content := content;
                p_authorId := authorId; p_isPublished := Some isPublished;
                p_createdAt := Some now; p_updatedAt := Some now |} in
  if negb (fits 255 title)
     || existsb (fun p => p_id p =? i) (posts d)
     || negb (existsb (fun u => u_id u =? authorId) (users d))
  then (set_posts d (posts d) i, None)
  else (set_posts d (posts d ++ [row]) i, Some row).

(** [delete(posts).where(eq(posts.id, i))] *)
Definition delete_post (d : Db) (i : Z) : Db :=
  set_posts d (filter (fun p => negb (p_id p =? i)) (posts d))
            (posts_id_seq d).

End Sql.

(* ================================================================= *)
(** ** Libraries, configuration and per-request inputs *)

Record Response := {
  status : Z;
  body : json
}.

(** What the code imports and the environment it starts in.
    [jwt_verify] is [None] where [jwt.verify] throws and otherwise the
    [userId] of the payload; [jwt_sign] is taken with an expiry setting it
    accepts; [bcrypt_hash] takes the salt it would draw; [swagger_ui] is
    [None] where the documentation middleware calls [next()].
    [drizzle_set ids rows i body now] is
    [update(posts).set({...body, updatedAt}).where(eq(posts.id, i))
    .returning()] for a body with members other than an optional string
    [title], string [content] and boolean [isPublished]: the ids of the
    users and the rows of [posts] before, to the rows after and the rows
    returned, [None] where it throws.  What such a body does is decided by
    drizzle and by whether the validation middleware hands the controller
    the body as sent or as parsed, neither of which is among the sources. *)
Record World := {
  bcrypt_hash : string -> Z -> string -> string;
  bcrypt_compare : string -> string -> bool;
  jwt_sign : Z -> string -> string -> Z -> string;
  jwt_verify : string -> string -> Z -> option Z;
  zod_email : string -> bool;
  swagger_ui : list string -> option Response;
  drizzle_set : list Z -> list Post -> Z -> json -> Z
                -> option (list Post * list Post);
  env_NODE_ENV : option string;
  env_JWT_SECRET : string;
  env_JWT_EXPIRES_IN : option string
}.

Record Ambient := {
  now : Z;        (* [new Date()] / [defaultNow()] *)
  salt : string   (* the random salt of [bcrypt.hash] *)
}.

(** [src/config/index.ts]: [process.env.X || default]. *)
Module CONFIG.
Definition or_default (v : option string) (d : string) : string :=
  match v with
  | None | Some EmptyString => d
  | Some s => s
  end.
Definition NODE_ENV (w : World) : string :=
  or_default (env_NODE_ENV w) "development".
Definition JWT_SECRET (w : World) : string := env_JWT_SECRET w.
Definition JWT_EXPIRES_IN (w : World) : string :=
  or_default (env_JWT_EXPIRES_IN w) "7d".
End CONFIG.

(** [res.json(b)] without [res.status] answers 200. *)
Definition ok (b : json) : Response := {| status := 200; body := b |}.

(* ================================================================= *)
(** ** [src/middleware/error.ts] *)

Record AppError := {
  statusCode : option Z;
  message : string;
  stack : option string;
  isOperational : bool
}.

Definition nl : string := String (ascii_of_nat 10) "    at ".

(** The trace an [Error] captures where it is constructed: its message,
    then the frame of [createError], then the frame of the caller. *)
Definition capture (msg site : string) : string :=
  "Error: " ++ msg ++ nl ++ "createError (src/middleware/error.ts:43)"
            ++ nl ++ site.

(** [createError(message, statusCode)], called from [site]. *)
Definition createError (msg : string) (code : Z) (site : string) : AppError :=
  {| statusCode := Some code; message := msg;
     stack := Some (capture msg site); isOperational := true |}.

(** An error raised by the database driver: no [statusCode]. *)
Definition driver_error (msg : string) : AppError :=
  {| statusCode := None; message := msg;
     stack := Some ("error: " ++ msg); isOperational := false |}.

Definition errorHandler (w : World) (err : AppError) : Response :=
  let statusCode :=
    match statusCode err with
    | None | Some 0 => 500
    | Some c => c
    end in
  let message :=
    match message err with
    | EmptyString => "Internal Server Error"
    | m => m
    end in
  {| status := statusCode;
     body := JObj ([("success", JBool false); ("message", JStr message)]
                   ++ (if String.eqb (CONFIG.NODE_ENV w) "development"
                       then match stack err with
                            | Some s => [("stack", JStr s)]
                            | None => []
                            end
                       else [])) |}.

(** [notFound]: the error it passes to [next]. *)
Definition notFound (originalUrl : string) : AppError :=
  {| statusCode := Some 404;
     message := "Route " ++ originalUrl ++ " not found";
     stack := Some ("Error: Route " ++ originalUrl ++ " not found" ++ nl
                    ++ "notFound (src/middleware/error.ts:37)");
     isOperational := false |}.

(* ================================================================= *)
(** ** [src/middleware/auth.ts] *)

Record AuthUser := {
  a_id : Z;
  a_email : string;
  a_firstName : string;
  a_lastName : string
}.

(** What a middleware does: call [next()], answer, or throw. *)
Inductive Step (A : Type) : Type :=
| Pass (a : A)
| Halt (r : Response)
| Raise (e : AppError).
Arguments Pass {A} a.
Arguments Halt {A} r.
Arguments Raise {A} e.

Definition fail_json (msg : string) : json :=
  JObj [("success", JBool false); ("message", JStr msg)].

(** [authHeader && authHeader.split(' ')[1]], [None] when falsy. *)
Definition bearer (authHeader : option string) : option string :=
  match authHeader with
  | None | Some EmptyString => None
  | Some h =>
      match nth_error (Js.split " " h) 1 with
      | None | Some EmptyString => None
      | Some t => Some t
      end
  end.

Definition authenticateToken (w : World) (d : Db) (amb : Ambient)
           (authHeader : option string) : Step AuthUser :=
  match bearer authHeader with
  | None =>
      Halt {| status := 401; body := fail_json "Access token required" |}
  | Some token =>
      match jwt_verify w token (CONFIG.JWT_SECRET w) (now amb) with
      | None =>
          Halt {| status := 403;
                  body := fail_json "Invalid or expired token" |}
      | Some userId =>
          match Sql.users_by_id d userId with
          | None =>
              (* the query is inside the same [try] *)
              Halt {| status := 403;
                      body := fail_json "Invalid or expired token" |}
          | Some [] =>
              Halt {| status := 401; body := fail_json "Invalid token" |}
          | Some (u :: _) =>
              Pass {| a_id := u_id u; a_email := u_email u;
                      a_firstName := u_firstName u;
                      a_lastName := u_lastName u |}
          end
      end
  end.

(* ================================================================= *)
(** ** Controllers *)

(** A controller answers or throws, and leaves a database behind. *)
Inductive Reply : Type :=
| Sent (r : Response)
| Thrown (e : AppError).

Definition jdate (t : option Z) : json := opt_json JDate t.
Definition jbool (b : option bool) : json := opt_json JBool b.
Definition jstr (s : option string) : json := opt_json JStr s.

(** The query parameters [page], [limit] and the derived offset. *)
Definition page_of (query : list (string * string)) : Z :=
  Js.parseInt_or (assoc "page" query) 1.
Definition limit_of (query : list (string * string)) : Z :=
  Js.parseInt_or (assoc "limit" query) 10.
Definition offset_of (query : list (string * string)) : Z :=
  Js.mul (Js.sub (page_of query) 1) (limit_of query).

Definition pagination (query : list (string * string)) (n : nat) : json :=
  JObj [("page", JNum (page_of query));
        ("limit", JNum (limit_of query));
        ("hasMore", JBool (Z.of_nat n =? limit_of query))].

(** [parseInt(req.params.k)]; NaN cannot be compared with a column. *)
Definition int_param (k : string) (params : list (string * string))
  : option Z :=
  match assoc k params with
  | Some s => Js.parseInt s
  | None => None
  end.

(** The errors of the driver, by what it refused. *)
Definition nan_error : AppError :=
  driver_error "invalid input syntax for type integer: NaN".
Definition int4_error : AppError :=
  driver_error "value is out of range for type integer".
Definition range_error : AppError :=
  driver_error "LIMIT or OFFSET is out of range".
Definition constraint_error : AppError :=
  driver_error "the row violates a constraint".

Module AuthController.

Record RegisterData := {
  r_email : string;
  r_password : string;
  r_firstName : string;
  r_lastName : string
}.

Record LoginData := {
  l_email : string;
  l_password : string
}.

(** The columns named in [returning({...})]. *)
Definition returned_user (u : User) : json :=
  JObj [("id", JNum (u_id u));
        ("email", JStr (u_email u));
        ("firstName", JStr (u_firstName u));
        ("lastName", JStr (u_lastName u));
        ("createdAt", jdate (u_createdAt u))].

Definition register (w : World) (amb : Ambient) (d : Db)
           (data : RegisterData) : Db * Reply :=
  let existingUser := Sql.users_by_email d (r_email data) in
  if (0 <? List.length existingUser)%nat then
    (d, Thrown (createError "User with this email already exists" 400
                  "AuthController.register (unnamed/part_001:57)"))
  else
    let saltRounds := 12 in
    let hashedPassword :=
      bcrypt_hash w (r_password data) saltRounds (salt amb) in
    match Sql.insert_user d (now amb) (r_email data) hashedPassword
            (r_firstName data) (r_lastName data) with
    | (d', None) => (d', Thrown constraint_error)
    | (d', Some newUser) =>
        let token := jwt_sign w (u_id newUser) (CONFIG.JWT_SECRET w)
                       (CONFIG.JWT_EXPIRES_IN w) (now amb) in
        (d', Sent {| status := 201;
                     body := JObj
                       [("success", JBool true);
                        ("message", JStr "User registered successfully");
                        ("data", JObj [("user", returned_user newUser);
                                       ("token", JStr token)])] |})
    end.

(** [const { password: _, ...userWithoutPassword } = user[0]] *)
Definition userWithoutPassword (u : User) : json :=
  JObj [("id", JNum (u_id u));
        ("email", JStr (u_email u));
        ("firstName", JStr (u_firstName u));
        ("lastName", JStr (u_lastName u));
        ("isActive", jbool (u_isActive u));
        ("createdAt", jdate (u_createdAt u));
        ("updatedAt", jdate (u_updatedAt u))].

Definition login (w : World) (amb : Ambient) (d : Db) (data : LoginData)
  : Db * Reply :=
  match Sql.users_by_email d (l_email data) with
  | [] =>
      (d, Thrown (createError "Invalid email or password" 401
                    "AuthController.login (unnamed/part_001:139)"))
  | u :: _ =>
      if negb (bcrypt_compare w (l_password data) (u_password u)) then
        (d, Thrown (createError "Invalid email or password" 401
                      "AuthController.login (unnamed/part_001:145)"))
      else
        let token := jwt_sign w (u_id u) (CONFIG.JWT_SECRET w)
                       (CONFIG.JWT_EXPIRES_IN w) (now amb) in
        (d, Sent (ok (JObj
                       [("success", JBool true);
                        ("message", JStr "Login successful");
                        ("data", JObj [("user", userWithoutPassword u);
                                       ("token", JStr token)])])))
  end.

Definition user_json (a : AuthUser) : json :=
  JObj [("id", JNum (a_id a));
        ("email", JStr (a_email a));
        ("firstName", JStr (a_firstName a));
        ("lastName", JStr (a_lastName a))].

Definition getProfile (d : Db) (user : AuthUser) : Db * Reply :=
  (d, Sent (ok (JObj [("success", JBool true);
                      ("data", JObj [("user", user_json user)])]))).

End AuthController.

Module PostController.

Record CreatePostData := {
  c_title : string;
  c_content : option string;
  c_isPublished : option bool
}.

Record UpdatePostData := {
  up_title : option string;
  up_content : option string;
  up_isPublished : option bool
}.

(** A row of [select()] / [returning()] on [posts]: every column. *)
Definition post_json (p : Post) : json :=
  JObj [("id", JNum (p_id p));
        ("title", JStr (p_title p));
        ("content", jstr (p_content p));
        ("authorId", JNum (p_authorId p));
        ("isPublished", jbool (p_isPublished p));
        ("createdAt", jdate (p_createdAt p));
        ("updatedAt", jdate (p_updatedAt p))].

Definition author_json (u : User) : json :=
  JObj [("id", JNum (u_id u));
        ("firstName", JStr (u_firstName u));
        ("lastName", JStr (u_lastName u));
        ("email", JStr (u_email u))].

(** A row of the joined selection of [getAllPosts] and [getPostById]. *)
Definition joined_json (r : Post * option User) : json :=
  let p := fst r in
  JObj [("id", JNum (p_id p));
        ("title", JStr (p_title p));
        ("content", jstr (p_content p));
        ("isPublished", jbool (p_isPublished p));
        ("createdAt", jdate (p_createdAt p));
        ("updatedAt", jdate (p_updatedAt p));
        ("author", opt_json author_json (snd r))].

(** A row of the selection of [getPostsByUserId]. *)
Definition own_json (p : Post) : json :=
  JObj [("id", JNum (p_id p));
        ("title", JStr (p_title p));
        ("content", jstr (p_content p));
        ("isPublished", jbool (p_isPublished p));
        ("createdAt", jdate (p_createdAt p));
        ("updatedAt", jdate (p_updatedAt p))].

(** The rows [getAllPosts] selects before [limit] and [offset]. *)
Definition all_rows (d : Db) : list (Post * option User) :=
  Sql.order_desc (fun r => p_createdAt (fst r)) (Sql.left_join d).

(** The rows [getAllPosts] returns, [None] when the query fails. *)
Definition allPosts (d : Db) (query : list (string * string))
  : option (list (Post * option User)) :=
  Sql.limit_offset (limit_of query) (offset_of query) (all_rows d).

Definition getAllPosts (d : Db) (query : list (string * string))
  : Db * Reply :=
  match allPosts d query with
  | None => (d, Thrown range_error)
  | Some rows =>
      (d, Sent (ok (JObj
         [("success", JBool true);
          ("data", JObj [("posts", JArr (map joined_json rows));
                         ("pagination",
                          pagination query (List.length rows))])])))
  end.

(** The joined selection of [getPostById]:
    [.where(eq(posts.id, i)).limit(1)]. *)
Definition joined_by_id (d : Db) (i : Z)
  : option (list (Post * option User)) :=
  option_map (firstn 1)
    (Sql.where_int (fun r => p_id (fst r)) i (Sql.left_join d)).

Definition getPostById (d : Db) (params : list (string * string))
  : Db * Reply :=
  match int_param "id" params with
  | None => (d, Thrown nan_error)
  | Some i =>
      match joined_by_id d i with
      | None => (d, Thrown int4_error)
      | Some [] =>
          (d, Thrown (createError "Post not found" 404
                        "PostController.getPostById (src/config/index.ts:139)"))
      | Some (r :: _) =>
          (d, Sent (ok (JObj [("success", JBool true);
                              ("data", JObj [("post", joined_json r)])])))
      end
  end.

Definition createPost (amb : Ambient) (d : Db) (user : AuthUser)
           (data : CreatePostData) : Db * Reply :=
  let isPublished :=
    match c_isPublished data with Some true => true | _ => false end in
  match Sql.insert_post d (now amb) (c_title data) (c_content data)
          isPublished (a_id user) with
  | (d', None) => (d', Thrown constraint_error)
  | (d', Some newPost) =>
      (d', Sent {| status := 201;
                   body := JObj
                     [("success", JBool true);
                      ("message", JStr "Post created successfully");
                      ("data", JObj [("post", post_json newPost)])] |})
  end.

(** A request body read as [UpdatePostData]: an object whose members are
    among an optional string [title], string [content] and boolean
    [isPublished], and nothing else. *)
Definition declared_update (body : json) : option UpdatePostData :=
  match body with
  | JObj fs =>
      if forallb (fun k => String.eqb k "title" || String.eqb k "content"
                           || String.eqb k "isPublished") (map fst fs)
      then
        match opt_str (jget "title" fs), opt_str (jget "content" fs),
              opt_bool (jget "isPublished" fs) with
        | Some t, Some c, Some p =>
            Some {| up_title := t; up_content := c; up_isPublished := p |}
        | _, _, _ => None
        end
      else None
  | _ => None
  end.

(** [.set({...updateData, updatedAt: new Date()})] on one row, for the
    declared members: absent keys leave their column alone. *)
Definition apply_update (t : Z) (u : UpdatePostData) (p : Post) : Post :=
  {| p_id := p_id p;
     p_title := match up_title u with Some s => s | None => p_title p end;
     p_content :=
       match up_content u with Some s => Some s | None => p_content p end;
     p_authorId := p_authorId p;
     p_isPublished :=
       match up_isPublished u with
       | Some b => Some b
       | None => p_isPublished p
       end;
     p_createdAt := p_createdAt p;
     p_updatedAt := Some t |}.

(** [update(posts).set(..).where(eq(posts.id, i)).returning()] *)
Definition update_posts (d : Db) (i : Z) (f : Post -> Post)
  : Db * list Post :=
  (set_posts d (map (fun p => if p_id p =? i then f p else p) (posts d))
             (posts_id_seq d),
   map f (filter (fun p => p_id p =? i) (posts d))).

(** The update statement of [updatePost] on the body the controller
    spreads into [.set()]: the database after and the rows returned, or
    [None] where the driver throws (a title wider than its column). *)
Definition set_and_return (w : World) (amb : Ambient) (d : Db) (i : Z)
           (updateData : json) : option (Db * list Post) :=
  match declared_update updateData with
  | Some data =>
      if match up_title data with
         | Some t => Sql.fits 255 t
         | None => true
         end
      then Some (update_posts d i (apply_update (now amb) data))
      else None
  | None =>
      match drizzle_set w (map u_id (users d)) (posts d) i updateData
              (now amb) with
      | Some (rows, returned) =>
          Some (set_posts d rows (posts_id_seq d), returned)
      | None => None
      end
  end.

Definition updatePost (w : World) (amb : Ambient) (d : Db)
           (params : list (string * string)) (user : AuthUser)
           (updateData : json) : Db * Reply :=
  match int_param "id" params with
  | None => (d, Thrown nan_error)
  | Some i =>
      match Sql.posts_by_id d i with
      | None => (d, Thrown int4_error)
      | Some [] =>
          (d, Thrown (createError "Post not found" 404
                        "PostController.updatePost (src/config/index.ts:251)"))
      | Some (existingPost :: _) =>
          if negb (p_authorId existingPost =? a_id user) then
            (d, Thrown (createError "Not authorized to update this post" 403
                          "PostController.updatePost (src/config/index.ts:255)"))
          else
            match set_and_return w amb d i updateData with
            | None => (d, Thrown constraint_error)
            | Some (d', updatedPost) =>
                (d', Sent (ok (JObj
                   [("success", JBool true);
                    ("message", JStr "Post updated successfully");
                    ("data", JObj match updatedPost with
                                  | p :: _ => [("post", post_json p)]
                                  | [] => []
                                  end)])))
            end
      end
  end.

Definition deletePost (d : Db) (params : list (string * string))
           (user : AuthUser) : Db * Reply :=
  match int_param "id" params with
  | None => (d, Thrown nan_error)
  | Some i =>
      match Sql.posts_by_id d i with
      | None => (d, Thrown int4_error)
      | Some [] =>
          (d, Thrown (createError "Post not found" 404
                        "PostController.deletePost (src/config/index.ts:313)"))
      | Some (existingPost :: _) =>
          if negb (p_authorId existingPost =? a_id user) then
            (d, Thrown (createError "Not authorized to delete this post" 403
                          "PostController.deletePost (src/config/index.ts:317)"))
          else
            (Sql.delete_post d i,
             Sent (ok (JObj
               [("success", JBool true);
                ("message", JStr "Post deleted successfully")])))
      end
  end.

(** The rows [getPostsByUserId] selects before [limit] and [offset]. *)
Definition user_rows (d : Db) (uid : Z) : option (list Post) :=
  option_map (Sql.order_desc p_createdAt)
    (Sql.where_int p_authorId uid (posts d)).

Definition getPostsByUserId (d : Db) (params query : list (string * string))
  : Db * Reply :=
  match int_param "userId" params with
  | None => (d, Thrown nan_error)
  | Some uid =>
      match user_rows d uid with
      | None => (d, Thrown int4_error)
      | Some selected =>
          match Sql.limit_offset (limit_of query) (offset_of query)
                  selected with
          | None => (d, Thrown range_error)
          | Some rows =>
              (d, Sent (ok (JObj
                 [("success", JBool true);
                  ("data", JObj [("posts", JArr (map own_json rows));
                                 ("pagination",
                                  pagination query (List.length rows))])])))
          end
      end
  end.

End PostController.

(* ================================================================= *)
(** ** [src/utils/schemas.ts] *)

Module Schemas.
Import AuthController PostController.

Definition str (j : option json) : option string :=
  match j with Some (JStr s) => Some s | _ => None end.

(** [z.string().min(lo).max(hi)] *)
Definition sized (lo hi : nat) (j : option json) : option string :=
  match str j with
  | Some s =>
      if (Nat.leb lo (String.length s) && Nat.leb (String.length s) hi)%bool
      then Some s else None
  | None => None
  end.

(** [z.string().min(lo)] *)
Definition at_least (lo : nat) (j : option json) : option string :=
  match str j with
  | Some s => if Nat.leb lo (String.length s) then Some s else None
  | None => None
  end.

(** [z.string().email(..)] *)
Definition email (w : World) (j : option json) : option string :=
  match str j with
  | Some s => if zod_email w s then Some s else None
  | None => None
  end.

(** [.optional()]: an absent key is accepted. *)
Definition optional {A} (f : option json -> option A) (j : option json)
  : option (option A) :=
  match j with
  | None => Some None
  | Some _ => option_map Some (f j)
  end.

Definition boolean (j : option json) : option bool :=
  match j with Some (JBool b) => Some b | _ => None end.

Definition registerSchema (w : World) (b : json) : option RegisterData :=
  match b with
  | JObj fs =>
      match email w (jget "email" fs), at_least 6 (jget "password" fs),
            sized 1 100 (jget "firstName" fs),
            sized 1 100 (jget "lastName" fs) with
      | Some e, Some p, Some f, Some l =>
          Some {| r_email := e; r_password := p;
                  r_firstName := f; r_lastName := l |}
      | _, _, _, _ => None
      end
  | _ => None
  end.

Definition loginSchema (w : World) (b : json) : option LoginData :=
  match b with
  | JObj fs =>
      match email w (jget "email" fs), at_least 1 (jget "password" fs) with
      | Some e, Some p => Some {| l_email := e; l_password := p |}
      | _, _ => None
      end
  | _ => None
  end.

Definition createPostSchema (b : json) : option CreatePostData :=
  match b with
  | JObj fs =>
      match sized 1 255 (jget "title" fs),
            optional str (jget "content" fs),
            optional boolean (jget "isPublished" fs) with
      | Some t, Some c, Some p =>
          Some {| c_title := t; c_content := c; c_isPublished := p |}
      | _, _, _ => None
      end
  | _ => None
  end.

Definition updatePostSchema (b : json) : option UpdatePostData :=
  match b with
  | JObj fs =>
      match optional (sized 1 255) (jget "title" fs),
            optional str (jget "content" fs),
            optional boolean (jget "isPublished" fs) with
      | Some t, Some c, Some p =>
          Some {| up_title := t; up_content := c; up_isPublished := p |}
      | _, _, _ => None
      end
  | _ => None
  end.

(** [z.object({ id: z.string().regex(/^\d+$/, ..).transform(Number) })]:
    the object must have a key [id] that is a string of digits.  Only the
    verdict is kept: the controllers call [parseInt] on the parameter
    themselves. *)
Definition idParamSchema (params : list (string * string)) : option unit :=
  match assoc "id" params with
  | Some s => if Js.digits_only s then Some tt else None
  | None => None
  end.

Definition digits_or_absent (v : option string) : bool :=
  match v with None => true | Some s => Js.digits_only s end.

Definition paginationSchema (query : list (string * string))
  : option unit :=
  if (digits_or_absent (assoc "page" query)
      && digits_or_absent (assoc "limit" query))%bool
  then Some tt else None.

End Schemas.

(* ================================================================= *)
(** ** [src/middleware/validation.ts] *)

(** Modelled from the spec: [validateBody], [validateParams] and
    [validateQuery] of [src/middleware/validation.ts], which is not among
    the sources.  The spec gives the behaviour: the schema is run on the
    part of the request it guards and a "validation failure -> 400" is an
    operational error that reaches the terminal handler; otherwise the next
    handler runs.  The text of the message is not given by the spec, and
    neither is whether the handlers after it see the request as sent or as
    parsed.  The two read the same in every controller but [updatePost]
    (see [drizzle_set]), and for a route or query number below 10^21. *)
Definition validate {I A} (schema : I -> option A) (input : I) : Step A :=
  match schema input with
  | Some a => Pass a
  | None =>
      Raise (createError "Validation failed" 400
               "validate (src/middleware/validation.ts)")
  end.

(* ================================================================= *)
(** ** Routers and application ([src/routes], [src/app.ts]) *)

(** The methods the routes are declared for, HEAD, and any other, for
    which no route is declared (OPTIONS is answered by the CORS
    middleware and does not get here). *)
Inductive Method :=
| GET | HEAD | POST | PUT | DELETE | PATCH
| OTHER (name : string).

(** A request as it reaches the routers, that is, one that the CORS
    and body-parsing middleware in front of them let through: its body is
    the parsed JSON value (the empty object when there was none), its path
    is cut into its decoded segments, none of them empty, and each query
    parameter has one string value. *)
Record Request := {
  method : Method;
  originalUrl : string;            (* [req.originalUrl]: path and query *)
  path : list string;              (* the segments of the URL path *)
  authorization : option string;   (* [req.headers['authorization']] *)
  query : list (string * string);
  reqBody : json
}.

Inductive Stage :=
| AuthenticateToken
| ValidateBody
| ValidateParams
| ValidateQuery
| Controller (name : string)
| NotFound
| ErrorHandler.

(** What the client gets.  [Unanswered e]: an async handler threw [e]; the
    promise it returned is rejected, Express 4 does not look at it, and
    nothing is written to the response.  [ExpressPage c]: [errorHandler]
    itself threw and Express wrote its own HTML page with status [c]. *)
Inductive Outcome :=
| Answered (r : Response)
| ExpressPage (c : Z)
| Unanswered (e : AppError).

(** What handling one request leaves behind: the database, the outcome
    and the middleware and handlers that ran, in order. *)
Record Exchange := {
  db_after : Db;
  outcome : Outcome;
  invoked : list Stage
}.

(** The JSON response, if one was written. *)
Definition response (x : Exchange) : option Response :=
  match outcome x with
  | Answered r => Some r
  | _ => None
  end.

(** The error that was thrown and never answered, if any. *)
Definition unhandled (x : Exchange) : option AppError :=
  match outcome x with
  | Unanswered e => Some e
  | _ => None
  end.

(** The endpoint a request is routed to. *)
Inductive Route :=
| Docs (rest : list string)
| Health
| Register
| Login
| Me
| AllPosts
| PostById (id : string)
| PostsByUser (userId : string)
| CreatePost
| UpdatePost (id : string)
| DeletePost (id : string)
| Root
| Unmatched.

Module Router.

Definition lower_ascii (c : ascii) : ascii :=
  let n := nat_of_ascii c in
  if (Nat.leb 65 n && Nat.leb n 90)%bool then ascii_of_nat (n + 32) else c.

(** Express compares the fixed parts of a route without regard to case. *)
Fixpoint lower (s : string) : string :=
  match s with
  | EmptyString => EmptyString
  | String c t => String (lower_ascii c) (lower t)
  end.

(** A route declared with [get] also answers HEAD. *)
Definition verb (m : Method) : Method :=
  match m with HEAD => GET | _ => m end.

(** [src/routes/authRoutes.ts] *)
Definition authRoutes (m : Method) (rest : list string) : Route :=
  match m, map lower rest with
  | POST, ["register"] => Register
  | POST, ["login"] => Login
  | GET, ["me"] => Me
  | _, _ => Unmatched
  end.

(** [src/routes/postRoutes.ts]; a route parameter matches one non-empty
    segment, and the routes are tried in the order they are declared. *)
Definition postRoutes (m : Method) (rest : list string) : Route :=
  match m, rest with
  | GET, [] => AllPosts
  | GET, [String c id] => PostById (String c id)
  | GET, [user; String c userId] =>
      if String.eqb (lower user) "user" then PostsByUser (String c userId)
      else Unmatched
  | POST, [] => CreatePost
  | PUT, [String c id] => UpdatePost (String c id)
  | DELETE, [String c id] => DeletePost (String c id)
  | _, _ => Unmatched
  end.

(** [src/routes/index.ts], mounted on [/api] *)
Definition routes (m : Method) (rest : list string) : Route :=
  match rest with
  | [] => Unmatched
  | seg :: rest' =>
      match lower seg, rest' with
      | "health", [] => match m with GET => Health | _ => Unmatched end
      | "auth", _ => authRoutes m rest'
      | "posts", _ => postRoutes m rest'
      | _, _ => Unmatched
      end
  end.

(** [src/app.ts] *)
Definition app (m : Method) (p : list string) : Route :=
  match p with
  | [] => match m with GET => Root | _ => Unmatched end
  | seg :: rest =>
      match lower seg, rest with
      | "api", seg' :: rest' =>
          if String.eqb (lower seg') "docs" then Docs rest'
          else routes m rest
      | "api", [] => routes m rest
      | _, _ => Unmatched
      end
  end.

End Router.

Definition route_of (req : Request) : Route :=
  Router.app (Router.verb (method req)) (path req).

(** The routes declared with [authenticateToken]. *)
Definition protected (r : Route) : bool :=
  match r with
  | Me | CreatePost | UpdatePost _ | DeletePost _ => true
  | _ => false
  end.

(** [res.status(c).json(..)] succeeds for the status codes Node accepts. *)
Definition valid_status (c : Z) : bool := (100 <=? c) && (c <=? 999).

Section Pipeline.
Variable w : World.
Variable amb : Ambient.
Variable d : Db.

(** What [errorHandler] leaves on the wire: its JSON answer, or, when
    [res.status(c).json(..)] throws for a code Node refuses, the page
    Express answers an error in an error handler with, a 500. *)
Definition handled (e : AppError) : Outcome :=
  let r := errorHandler w e in
  if valid_status (status r) then Answered r else ExpressPage 500.

(** One middleware of a route, followed by the rest of the chain. *)
Definition through {A} (s : Stage) (st : Step A) (k : A -> Exchange)
  : Exchange :=
  match st with
  | Pass a =>
      let x := k a in
      {| db_after := db_after x; outcome := outcome x;
         invoked := s :: invoked x |}
  | Halt r => {| db_after := d; outcome := Answered r; invoked := [s] |}
  | Raise e =>
      {| db_after := d; outcome := handled e;
         invoked := [s; ErrorHandler] |}
  end.

(** The last handler of a route.  The controllers are [async] functions
    that re-throw what they catch, and the routers register them as they
    are: when one throws, its promise is rejected and nothing answers. *)
Definition finish (name : string) (out : Db * Reply) : Exchange :=
  match out with
  | (d', Sent r) =>
      {| db_after := d'; outcome := Answered r;
         invoked := [Controller name] |}
  | (d', Thrown e) =>
      {| db_after := d'; outcome := Unanswered e;
         invoked := [Controller name] |}
  end.

Definition answer (name : string) (r : Response) : Exchange :=
  {| db_after := d; outcome := Answered r; invoked := [Controller name] |}.

(** [app.use('*', notFound)] and then [errorHandler] *)
Definition not_found (req : Request) : Exchange :=
  {| db_after := d; outcome := handled (notFound (originalUrl req));
     invoked := [NotFound; ErrorHandler] |}.

Definition health : Response :=
  ok (JObj [("success", JBool true);
            ("message", JStr "API is running");
            ("timestamp", JDate (now amb))]).

Definition welcome : Response :=
  ok (JObj [("success", JBool true);
            ("message", JStr "Welcome to Node.js Express TypeScript API");
            ("version", JStr "1.0.0");
            ("documentation", JStr "/api/docs");
            ("endpoints", JObj [("health", JStr "/api/health");
                                ("auth", JStr "/api/auth");
                                ("posts", JStr "/api/posts")])]).

Definition auth (req : Request) : Step AuthUser :=
  authenticateToken w d amb (authorization req).

(** The middleware chain each route declares. *)
Definition chain (req : Request) (r : Route) : Exchange :=
  match r with
  | Docs rest =>
      match swagger_ui w rest with
      | Some r => answer "swagger-ui" r
      | None => not_found req
      end
  | Health => answer "health" health
  | Root => answer "root" welcome
  | Unmatched => not_found req
  | Register =>
      through ValidateBody (validate (Schemas.registerSchema w) (reqBody req))
        (fun data => finish "register" (AuthController.register w amb d data))
  | Login =>
      through ValidateBody (validate (Schemas.loginSchema w) (reqBody req))
        (fun data => finish "login" (AuthController.login w amb d data))
  | Me =>
      through AuthenticateToken (auth req)
        (fun user => finish "getProfile" (AuthController.getProfile d user))
  | AllPosts =>
      through ValidateQuery (validate Schemas.paginationSchema (query req))
        (fun _ => finish "getAllPosts"
                    (PostController.getAllPosts d (query req)))
  | PostById id =>
      let params := [("id", id)] in
      through ValidateParams (validate Schemas.idParamSchema params)
        (fun _ => finish "getPostById"
                    (PostController.getPostById d params))
  | PostsByUser userId =>
      let params := [("userId", userId)] in
      through ValidateParams (validate Schemas.idParamSchema params)
        (fun _ =>
           through ValidateQuery
             (validate Schemas.paginationSchema (query req))
             (fun _ => finish "getPostsByUserId"
                         (PostController.getPostsByUserId d params
                            (query req))))
  | CreatePost =>
      through AuthenticateToken (auth req)
        (fun user =>
           through ValidateBody
             (validate Schemas.createPostSchema (reqBody req))
             (fun data => finish "createPost"
                            (PostController.createPost amb d user data)))
  | UpdatePost id =>
      let params := [("id", id)] in
      through AuthenticateToken (auth req)
        (fun user =>
           through ValidateParams (validate Schemas.idParamSchema params)
             (fun _ =>
                through ValidateBody
                  (validate Schemas.updatePostSchema (reqBody req))
                  (fun _ =>
                     finish "updatePost"
                       (PostController.updatePost w amb d params user
                          (reqBody req)))))
  | DeletePost id =>
      let params := [("id", id)] in
      through AuthenticateToken (auth req)
        (fun user =>
           through ValidateParams (validate Schemas.idParamSchema params)
             (fun _ => finish "deletePost"
                         (PostController.deletePost d params user)))
  end.

(** The application, after its header, CORS, logging and body-parsing
    middleware. *)
Definition app (req : Request) : Exchange := chain req (route_of req).

End Pipeline.

(* ================================================================= *)
(** ** Observations used in the statements *)

(** The value under a path of keys of a response body. *)
Fixpoint jpath (ks : list string) (j : json) : option json :=
  match ks with
  | [] => Some j
  | k :: rest =>
      match field k j with
      | Some v => jpath rest v
      | None => None
      end
  end.

(** A value with every [isActive] member removed. *)
Fixpoint scrub (j : json) : json :=
  match j with
  | JArr items => JArr (map scrub items)
  | JObj fields =>
      JObj ((fix members (l : list (string * json)) :=
               match l with
               | [] => []
               | (k, v) :: t =>
                   if String.eqb k "isActive" then members t
                   else (k, scrub v) :: members t
               end) fields)
  | _ => j
  end.

(** A user row with its [isActive] column blanked. *)
Definition blank (u : User) : User :=
  {| u_id := u_id u; u_email := u_email u; u_password := u_password u;
     u_firstName := u_firstName u; u_lastName := u_lastName u;
     u_isActive := None;
     u_createdAt := u_createdAt u; u_updatedAt := u_updatedAt u |}.

(** Two databases that differ at most in [isActive] values. *)
Definition same_but_isActive (d1 d2 : Db) : Prop :=
  map blank (users d1) = map blank (users d2)
  /\ posts d1 = posts d2
  /\ users_id_seq d1 = users_id_seq d2
  /\ posts_id_seq d1 = posts_id_seq d2.

(** A joined row with the [isActive] column of its author blanked. *)
Definition blank_row (r : Post * option User) : Post * option User :=
  (fst r, option_map blank (snd r)).

(** Two exchanges with the same outcome and handlers, over databases
    that differ at most in [isActive] values. *)
Definition agree (x1 x2 : Exchange) : Prop :=
  outcome x1 = outcome x2
  /\ invoked x1 = invoked x2
  /\ same_but_isActive (db_after x1) (db_after x2).

(** An outcome with every [isActive] member removed from its body. *)
Definition blur (o : Outcome) : Outcome :=
  match o with
  | Answered r => Answered {| status := status r; body := scrub (body r) |}
  | _ => o
  end.

(** The same, with the bodies compared after [scrub]. *)
Definition agree_modulo_isActive (x1 x2 : Exchange) : Prop :=
  blur (outcome x1) = blur (outcome x2)
  /\ invoked x1 = invoked x2
  /\ same_but_isActive (db_after x1) (db_after x2).

(** The primary keys of the two tables. *)
Definition users_pk (d : Db) : Prop := NoDup (map u_id (users d)).
Definition posts_pk (d : Db) : Prop := NoDup (map p_id (posts d)).

(** [a] may stand before [b] in an ORDER BY .. DESC of PostgreSQL: NULL
    stands before every value, and a value before the values that are not
    larger. *)
Definition may_precede (a b : option Z) : Prop :=
  match a, b with
  | None, _ => True
  | Some _, None => False
  | Some x, Some y => y <= x
  end.

(** Every row may stand before all the rows after it. *)
Definition descending {A} (key : A -> option Z) (l : list A) : Prop :=
  StronglySorted (fun x y => may_precede (key x) (key y)) l.

Definition exposes_stack (r : Response) : bool :=
  match field "stack" (body r) with Some _ => true | None => false end.

(* ================================================================= *)
(** ** Start-up configuration ([src/config/index.ts]) *)

Module Startup.

(** [process.env] after [dotenv]'s [config()]. *)
Definition Env : Type := list (string * string).

(** [parseInt(s, 10)]: no hexadecimal prefix is recognised. *)
Definition parseInt10 (s : string) : option Z :=
  let s1 := Js.skip_ws s in
  let '(neg, s2) :=
    match s1 with
    | String "-" t => (true, t)
    | String "+" t => (false, t)
    | _ => (false, s1)
    end in
  option_map (fun v => Js.double (if neg then - v else v))
    (Js.digits 10 s2 None).

Record Config := {
  PORT : option Z;            (* [None] is NaN *)
  NODE_ENV : string;
  DATABASE_URL : string;
  JWT_SECRET : string;
  JWT_EXPIRES_IN : string;
  CORS_ORIGIN : string
}.

(** [!process.env[v]]: unset or empty. *)
Definition missing (env : Env) (v : string) : bool :=
  match assoc v env with
  | None | Some EmptyString => true
  | Some _ => false
  end.

(** [process.env.X!]: the value as it is (the empty string stands for
    [undefined], which the loop below refuses). *)
Definition value (env : Env) (v : string) : string :=
  match assoc v env with Some x => x | None => EmptyString end.

Definition requiredEnvVars : list string := ["DATABASE_URL"; "JWT_SECRET"].

(** The loop over [requiredEnvVars]: the message of the first throw. *)
Fixpoint first_missing (env : Env) (vars : list string) : option string :=
  match vars with
  | [] => None
  | v :: rest =>
      if missing env v
      then Some ("Environment variable " ++ v ++ " is required")%string
      else first_missing env rest
  end.

(** Loading the module: the exported [CONFIG], or the error thrown. *)
Definition load (env : Env) : string + Config :=
  match first_missing env requiredEnvVars with
  | Some msg => inl msg
  | None =>
      inr {| PORT := parseInt10 (CONFIG.or_default (assoc "PORT" env) "3000");
             NODE_ENV := CONFIG.or_default (assoc "NODE_ENV" env) "development";
             DATABASE_URL := value env "DATABASE_URL";
             JWT_SECRET := value env "JWT_SECRET";
             JWT_EXPIRES_IN := CONFIG.or_default (assoc "JWT_EXPIRES_IN" env) "7d";
             CORS_ORIGIN := CONFIG.or_default (assoc "CORS_ORIGIN" env)
                              "http://localhost:3000" |}
  end.

End Startup.

(* ================================================================= *)
(** ** Integrity constraints and further observations *)

(** What the schema and the sequences guarantee of a stored state: unique
    primary keys and e-mails, ids handed out by the sequences, and every
    post's [authorId] resolving to a user. *)
Record consistent (d : Db) : Prop := {
  users_keys : NoDup (map u_id (users d));
  users_emails : NoDup (map u_email (users d));
  posts_keys : NoDup (map p_id (posts d));
  users_numbered : Forall (fun u => u_id u <= users_id_seq d) (users d);
  posts_numbered : Forall (fun p => p_id p <= posts_id_seq d) (posts d);
  authors_exist :
    Forall (fun p => existsb (fun u => u_id u =? p_authorId p) (users d)
                     = true) (posts d)
}.

(** A string without a space character. *)
Fixpoint no_space (s : string) : bool :=
  match s with
  | EmptyString => true
  | String c t => negb (Ascii.eqb c " ") && no_space t
  end.

(** [parts.join(sep)] for a one-character separator. *)
Fixpoint join (sep : ascii) (parts : list string) : string :=
  match parts with
  | [] => EmptyString
  | [p] => p
  | p :: rest => (p ++ String sep (join sep rest))%string
  end.


(** The rows of one page, as [limit] and [offset] cut them. *)
Definition page_rows {A} (p L : Z) (rows : list A) : list A :=
  firstn (Z.to_nat L) (skipn (Z.to_nat ((p - 1) * L)) rows).








(** The number a string of decimal digits spells. *)
Fixpoint decimal_from (acc : Z) (s : string) : Z :=
  match s with
  | EmptyString => acc
  | String c t =>
      decimal_from (10 * acc + (Z.of_nat (nat_of_ascii c) - 48)) t
  end.

Definition decimal (s : string) : Z := decimal_from 0 s.

(** Every post of [d'] that has the id of a post of [d] has that post's
    owner and creation time. *)
Definition keeps_owners (d d' : Db) : Prop :=
  forall p p',
    In p (posts d) -> In p' (posts d') -> p_id p' = p_id p ->
    p_authorId p' = p_authorId p /\ p_createdAt p' = p_createdAt p.

(** A request whose effect the sources decide: any request but a
    PUT /api/posts/:id whose body has members other than the three that
    [updatePostSchema] declares (see [drizzle_set]). *)
Definition declared (req : Request) : bool :=
  match route_of req with
  | UpdatePost _ =>
      match PostController.declared_update (reqBody req) with
      | Some _ => true
      | None => false
      end
  | _ => true
  end.

(** The database of a fresh installation. *)
Definition empty_db : Db :=
  {| users := []; posts := []; users_id_seq := 0; posts_id_seq := 0 |}.

(** The database after a sequence of requests, each with its own clock and
    salt, handled one after the other. *)
Fixpoint serve_all (w : World) (d : Db) (reqs : list (Ambient * Request))
  : Db :=
  match reqs with
  | [] => d
  | (amb, req) :: rest => serve_all w (db_after (app w amb d req)) rest
  end.

(** The row [register] inserts. *)
Definition new_user (w : World) (amb : Ambient) (d : Db)
           (data : AuthController.RegisterData) : User :=
  {| u_id := users_id_seq d + 1;
     u_email := AuthController.r_email data;
     u_password := bcrypt_hash w (AuthController.r_password data) 12
                     (salt amb);
     u_firstName := AuthController.r_firstName data;
     u_lastName := AuthController.r_lastName data;
     u_isActive := Some true;
     u_createdAt := Some (now amb);
     u_updatedAt := Some (now amb) |}.



(* ================================================================= *)
(** ** A small concrete instance *)

Module Demo.

(** Toy stand-ins for the libraries: the hash of [p] is ["h:" ++ p], the
    token of user 1 is ["t1"] and of user 2 is ["t2"]. *)
Definition world (node_env : option string) : World :=
  {| bcrypt_hash := fun p _ _ => "h:" ++ p;
     bcrypt_compare := fun p h => String.eqb h ("h:" ++ p);
     jwt_sign := fun uid _ _ _ =>
       if uid =? 1 then "t1" else if uid =? 2 then "t2" else "t";
     jwt_verify := fun t _ _ =>
       if String.eqb t "t1" then Some 1
       else if String.eqb t "t2" then Some 2 else None;
     zod_email := fun _ => true;
     swagger_ui := fun _ => None;
     drizzle_set := fun _ _ _ _ _ => None;
     env_NODE_ENV := node_env;
     env_JWT_SECRET := "secret";
     env_JWT_EXPIRES_IN := None |}.

Definition dev : World := world None.
Definition production : World := world (Some "production").
Definition staging : World := world (Some "test").

Definition amb : Ambient := {| now := 1000; salt := "s" |}.

Definition alice : User :=
  {| u_id := 1; u_email := "a@x.io"; u_password := "h:alicepw";
     u_firstName := "Alice"; u_lastName := "A"; u_isActive := Some true;
     u_createdAt := Some 10; u_updatedAt := Some 10 |}.

Definition bob : User :=
  {| u_id := 2; u_email := "b@x.io"; u_password := "h:bobpw";
     u_firstName := "Bob"; u_lastName := "B"; u_isActive := Some true;
     u_createdAt := Some 20; u_updatedAt := Some 20 |}.

Definition post (i : Z) : Post :=
  {| p_id := i; p_title := "title"; p_content := None; p_authorId := 1;
     p_isPublished := Some false;
     p_createdAt := Some (100 + i); p_updatedAt := Some (100 + i) |}.

(** Two users and fifteen posts, all written by the first user. *)
Definition db : Db :=
  {| users := [alice; bob];
     posts := map post [1; 2; 3; 4; 5; 6; 7; 8; 9; 10; 11; 12; 13; 14; 15];
     users_id_seq := 2; posts_id_seq := 15 |}.

(** The URL of a path and a query: [/a/b?k=v&k'=v']. *)
Definition url (p : list string) (q : list (string * string)) : string :=
  (fold_right (fun seg acc => "/" ++ seg ++ acc) "" p
   ++ match q with
      | [] => ""
      | (k, v) :: rest =>
          "?" ++ k ++ "=" ++ v
          ++ fold_right (fun kv acc => "&" ++ fst kv ++ "=" ++ snd kv ++ acc)
               "" rest
      end)%string.

Definition request (m : Method) (p : list string) (a : option string)
           (q : list (string * string)) (b : json) : Request :=
  {| method := m; originalUrl := url p q; path := p; authorization := a;
     query := q; reqBody := b |}.

(** An unexpected error: no [statusCode]. *)
Definition boom : AppError :=
  {| statusCode := None; message := "boom";
     stack := Some "Error: boom"; isOperational := false |}.

Definition unknown_login : AuthController.LoginData :=
  {| AuthController.l_email := "zz@x.io";
     AuthController.l_password := "alicepw" |}.

Definition wrong_login : AuthController.LoginData :=
  {| AuthController.l_email := "a@x.io";
     AuthController.l_password := "wrong" |}.

Definition alice_login : Request :=
  request POST ["api"; "auth"; "login"] None []
    (JObj [("email", JStr "a@x.io"); ("password", JStr "alicepw")]).

(** A login with an e-mail nobody registered, and one with the first
    user's e-mail and a wrong password. *)
Definition unknown_login_request : Request :=
  request POST ["api"; "auth"; "login"] None []
    (JObj [("email", JStr "zz@x.io"); ("password", JStr "alicepw")]).

Definition wrong_login_request : Request :=
  request POST ["api"; "auth"; "login"] None []
    (JObj [("email", JStr "a@x.io"); ("password", JStr "wrong")]).

(** A listing whose page and limit are both ten thousand million. *)
Definition far_page : list (string * string) :=
  [("page", "10000000000"); ("limit", "10000000000")].

(** A registration with the first user's e-mail. *)
Definition register_again : Request :=
  request POST ["api"; "auth"; "register"] None []
    (JObj [("email", JStr "a@x.io"); ("password", JStr "secret1");
           ("firstName", JStr "Al"); ("lastName", JStr "Ice")]).

Definition carol : AuthController.RegisterData :=
  {| AuthController.r_email := "c@x.io";
     AuthController.r_password := "carolpw";
     AuthController.r_firstName := "Carol";
     AuthController.r_lastName := "C" |}.

Definition alice_again : AuthController.RegisterData :=
  {| AuthController.r_email := "a@x.io";
     AuthController.r_password := "secret1";
     AuthController.r_firstName := "Al";
     AuthController.r_lastName := "Ice" |}.

(** The same database with the first user deactivated. *)
Definition db_inactive : Db :=
  {| users := [ {| u_id := 1; u_email := "a@x.io";
                   u_password := "h:alicepw";
                   u_firstName := "Alice"; u_lastName := "A";
                   u_isActive := Some false;
                   u_createdAt := Some 10; u_updatedAt := Some 10 |};
                bob ];
     posts := posts db;
     users_id_seq := 2; posts_id_seq := 15 |}.

Definition bob_user : AuthUser :=
  {| a_id := 2; a_email := "b@x.io"; a_firstName := "Bob";
     a_lastName := "B" |}.

Definition alice_user : AuthUser :=
  {| a_id := 1; a_email := "a@x.io"; a_firstName := "Alice";
     a_lastName := "A" |}.

Definition alice_ok : AuthController.LoginData :=
  {| AuthController.l_email := "a@x.io";
     AuthController.l_password := "alicepw" |}.

Definition carol_login : AuthController.LoginData :=
  {| AuthController.l_email := "c@x.io";
     AuthController.l_password := "carolpw" |}.


(** A database from which the first user was removed by hand: the token of
    user 1 still verifies. *)
Definition db_without_alice : Db :=
  {| users := [bob]; posts := []; users_id_seq := 2; posts_id_seq := 15 |}.

Definition env : Startup.Env :=
  [("DATABASE_URL", "postgresql://host/db"); ("JWT_SECRET", "secret");
   ("PORT", "8080")].

Definition retitle : PostController.UpdatePostData :=
  {| PostController.up_title := Some "mine now";
     PostController.up_content := None;
     PostController.up_isPublished := None |}.

End Demo.

(** Case analysis on every scrutinee of the goal. *)
Ltac split_matches :=
  repeat match goal with
         | |- context [match ?x with _ => _ end] => destruct x eqn:?
         | |- context [if ?x then _ else _] => destruct x eqn:?
         end.


(* ================================================================= *)
(** ** The terminal error handler *)

Lemma errorHandler_stack (w : World) (err : AppError) :
  field "stack" (body (errorHandler w err))
  = if String.eqb (CONFIG.NODE_ENV w) "development"
    then option_map JStr (stack err) else None.
Proof.
  unfold errorHandler, field; cbn [body List.app jget].
  destruct (String.eqb (CONFIG.NODE_ENV w) "development");
    [destruct (stack err)|]; reflexivity.
Qed.

Lemma errorHandler_status (w : World) (err : AppError) (c : Z) :
  statusCode err = Some c -> c <> 0 -> status (errorHandler w err) = c.
Proof.
  intros H Hc; unfold errorHandler; cbn [status]; rewrite H.
  destruct c; congruence.
Qed.

(** C7, as stated, fails: with NODE_ENV=test the environment is not
    production, yet the body of the 500 response carries no stack. *)
Lemma errorHandler_test_env_hides_stack :
  ~ (exposes_stack (errorHandler Demo.staging Demo.boom) = true
     <-> CONFIG.NODE_ENV Demo.staging <> "production").
Proof.
  intros [_ H].
  assert (E : exposes_stack (errorHandler Demo.staging Demo.boom) = true)
    by (apply H; vm_compute; discriminate).
  vm_compute in E; discriminate.
Qed.

(** C7 (amended): an error without a [statusCode] is answered with 500,
    and the body has a [stack] member exactly when [NODE_ENV] is
    ["development"], in which case it is the error's own trace. *)
Theorem errorHandler_default_500_stack_in_development
        (w : World) (err : AppError) (H : statusCode err = None) :
  status (errorHandler w err) = 500
  /\ field "stack" (body (errorHandler w err))
     = (if String.eqb (CONFIG.NODE_ENV w) "development"
        then option_map JStr (stack err) else None)
  /\ (forall s, stack err = Some s ->
        (exposes_stack (errorHandler w err) = true
         <-> CONFIG.NODE_ENV w = "development")).
Proof.
  split; [|split].
  - unfold errorHandler; cbn [status]; now rewrite H.
  - apply errorHandler_stack.
  - intros s Hs; unfold exposes_stack.
    rewrite errorHandler_stack, Hs.
    destruct (String.eqb_spec (CONFIG.NODE_ENV w) "development");
      cbn; split; congruence.
Qed.

Lemma errorHandler_default_500_stack_in_development_witness :
  statusCode Demo.boom = None
  /\ status (errorHandler Demo.dev Demo.boom) = 500
  /\ field "stack" (body (errorHandler Demo.dev Demo.boom))
     = Some (JStr "Error: boom").
Proof.
  split; [reflexivity|].
  destruct (errorHandler_default_500_stack_in_development
              Demo.dev Demo.boom eq_refl) as (H1 & H2 & _).
  split; [exact H1 | exact H2].
Defined.

(** The errors the middleware of this application hand to [errorHandler]
    carry a status Node accepts, so its JSON answer is what is sent. *)
Lemma handled_createError (w : World) (msg site : string) (c : Z) :
  valid_status c = true ->
  handled w (createError msg c site)
  = Answered (errorHandler w (createError msg c site)).
Proof.
  intros Hc. unfold handled.
  assert (Hnz : c <> 0) by (intros ->; discriminate Hc).
  rewrite (errorHandler_status w (createError msg c site) c eq_refl Hnz), Hc.
  reflexivity.
Qed.


(* ================================================================= *)
(** ** The token check in front of the protected routes *)

Lemma protected_routes :
  route_of (Demo.request POST ["api"; "posts"] None [] JNull) = CreatePost
  /\ route_of (Demo.request PUT ["api"; "posts"; "7"] None [] JNull)
     = UpdatePost "7"
  /\ route_of (Demo.request DELETE ["api"; "posts"; "7"] None [] JNull)
     = DeletePost "7"
  /\ route_of (Demo.request GET ["api"; "auth"; "me"] None [] JNull) = Me
  /\ route_of (Demo.request HEAD ["API"; "Auth"; "ME"] None [] JNull) = Me.
Proof. repeat split. Qed.

Lemma protected_chain_starts_with_auth
      (w : World) (amb : Ambient) (d : Db) (req : Request) (r : Route) :
  protected r = true ->
  forall resp, auth w amb d req = Halt resp ->
  chain w amb d req r
  = {| db_after := d; outcome := Answered resp;
       invoked := [AuthenticateToken] |}.
Proof.
  intros Hp resp Hh.
  destruct r; try discriminate Hp; cbn [chain]; rewrite Hh; reflexivity.
Qed.

(** C6: on a protected route a request without a bearer token is answered
    401 and one whose token fails verification is answered 403; in both
    cases only [authenticateToken] ran, so no controller was invoked, and
    the database is as before. *)
Theorem protected_route_rejects_before_handler
        (w : World) (amb : Ambient) (d : Db) (req : Request)
        (Hp : protected (route_of req) = true) :
  (bearer (authorization req) = None ->
     option_map status (response (app w amb d req)) = Some 401
     /\ invoked (app w amb d req) = [AuthenticateToken]
     /\ (forall name, ~ In (Controller name) (invoked (app w amb d req)))
     /\ db_after (app w amb d req) = d)
  /\ (forall token,
        bearer (authorization req) = Some token ->
        jwt_verify w token (CONFIG.JWT_SECRET w) (now amb) = None ->
        option_map status (response (app w amb d req)) = Some 403
        /\ invoked (app w amb d req) = [AuthenticateToken]
        /\ (forall name, ~ In (Controller name) (invoked (app w amb d req)))
        /\ db_after (app w amb d req) = d).
Proof.
  split.
  - intros Hb. unfold app.
    rewrite (protected_chain_starts_with_auth w amb d req _ Hp
               {| status := 401; body := fail_json "Access token required" |})
      by (unfold auth, authenticateToken; now rewrite Hb).
    cbn. repeat split; intros name [F | []]; discriminate F.
  - intros token Hb Hv. unfold app.
    rewrite (protected_chain_starts_with_auth w amb d req _ Hp
               {| status := 403;
                  body := fail_json "Invalid or expired token" |})
      by (unfold auth, authenticateToken; now rewrite Hb, Hv).
    cbn. repeat split; intros name [F | []]; discriminate F.
Qed.

Lemma protected_route_rejects_before_handler_witness :
  protected (route_of (Demo.request DELETE ["api"; "posts"; "3"]
                         (Some "Bearer forged") [] JNull)) = true
  /\ option_map status
       (response (app Demo.dev Demo.amb Demo.db
                    (Demo.request DELETE ["api"; "posts"; "3"]
                       (Some "Bearer forged") [] JNull))) = Some 403
  /\ db_after (app Demo.dev Demo.amb Demo.db
                 (Demo.request DELETE ["api"; "posts"; "3"]
                    (Some "Bearer forged") [] JNull)) = Demo.db.
Proof.
  split; [reflexivity|].
  destruct (protected_route_rejects_before_handler Demo.dev Demo.amb Demo.db
              (Demo.request DELETE ["api"; "posts"; "3"]
                 (Some "Bearer forged") [] JNull) eq_refl) as [_ H].
  destruct (H "forged" eq_refl eq_refl) as (H1 & _ & _ & H2).
  split; [exact H1 | exact H2].
Defined.

(* ================================================================= *)
(** ** Selections limited to one row *)

Lemma first_match {A} (f : A -> bool) (l : list A) (x : A) :
  In x l -> f x = true -> exists y, firstn 1 (filter f l) = [y] /\ f y = true.
Proof.
  intros Hin Hf.
  assert (Hx : In x (filter f l)) by (apply filter_In; auto).
  destruct (filter f l) as [|y t] eqn:E; [contradiction|].
  exists y; split; [reflexivity|].
  assert (Hy : In y (filter f l)) by (rewrite E; now left).
  now apply filter_In in Hy.
Qed.

Lemma first_of_unique {A} (key : A -> Z) (l : list A) (x : A) :
  NoDup (map key l) -> In x l ->
  firstn 1 (filter (fun y => key y =? key x) l) = [x].
Proof.
  induction l as [|a l IH]; intros Hnd Hin; [contradiction|].
  cbn [map] in Hnd. inversion Hnd as [|? ? Hnotin Hnd']; subst.
  cbn [filter].
  destruct Hin as [-> | Hin].
  - rewrite Z.eqb_refl. reflexivity.
  - destruct (Z.eqb_spec (key a) (key x)) as [E|E].
    + exfalso. apply Hnotin. rewrite E. now apply in_map.
    + now apply IH.
Qed.

(** A selection by an integer column: what it returns when a row matches,
    and what it is on a table whose values fit the column. *)
Lemma where_int_found {A} (column : A -> Z) (i : Z) (rows : list A) (x : A) :
  In x rows -> column x = i ->
  Sql.where_int column i rows = Some (filter (fun r => column r =? i) rows).
Proof.
  intros Hin Hx. unfold Sql.where_int.
  assert (Hf : In x (filter (fun r => column r =? i) rows)).
  { apply filter_In. split; [exact Hin|]. now apply Z.eqb_eq. }
  destruct (filter (fun r => column r =? i) rows); [contradiction|].
  reflexivity.
Qed.

Lemma where_int_in_range {A} (column : A -> Z) (i : Z) (rows : list A) :
  Sql.in_int4 i = true ->
  Sql.where_int column i rows = Some (filter (fun r => column r =? i) rows).
Proof.
  intros Hi. unfold Sql.where_int.
  destruct (filter (fun r => column r =? i) rows); [now rewrite Hi|].
  reflexivity.
Qed.

Lemma where_int_strict {A} (column : A -> Z) (i : Z) (rows : list A) :
  Forall (fun r => Sql.in_int4 (column r) = true) rows ->
  Sql.where_int column i rows
  = if Sql.in_int4 i then Some (filter (fun r => column r =? i) rows)
    else None.
Proof.
  intros Hall. unfold Sql.where_int.
  destruct (filter (fun r => column r =? i) rows) as [|x t] eqn:E.
  - destruct (Sql.in_int4 i); reflexivity.
  - assert (Hx : In x (filter (fun r => column r =? i) rows))
      by (rewrite E; now left).
    apply filter_In in Hx as [Hin Hc]. apply Z.eqb_eq in Hc.
    rewrite Forall_forall in Hall. specialize (Hall x Hin).
    rewrite Hc in Hall. now rewrite Hall.
Qed.

Lemma where_int_absent {A} (column : A -> Z) (i : Z) (rows : list A) :
  Sql.in_int4 i = true ->
  (forall x, In x rows -> column x <> i) ->
  Sql.where_int column i rows = Some [].
Proof.
  intros Hi Hno. rewrite where_int_in_range by exact Hi. f_equal.
  induction rows as [|a l IH]; [reflexivity|].
  cbn [filter]. destruct (Z.eqb_spec (column a) i) as [E|E].
  - exfalso. apply (Hno a); [now left | exact E].
  - apply IH. intros x Hx. apply Hno. now right.
Qed.

Lemma where_int_refused {A} (column : A -> Z) (i : Z) (rows : list A) :
  Sql.where_int column i rows = None -> Sql.in_int4 i = false.
Proof.
  unfold Sql.where_int.
  destruct (filter (fun r => column r =? i) rows); [|discriminate].
  destruct (Sql.in_int4 i); [discriminate | reflexivity].
Qed.

Lemma users_by_id_stored (d : Db) (u : User) :
  users_pk d -> In u (users d) -> Sql.users_by_id d (u_id u) = Some [u].
Proof.
  intros Hpk Hin. unfold Sql.users_by_id.
  rewrite (where_int_found u_id (u_id u) (users d) u Hin eq_refl).
  cbn [option_map]. f_equal. now apply first_of_unique.
Qed.

Lemma posts_by_id_stored (d : Db) (p : Post) :
  posts_pk d -> In p (posts d) -> Sql.posts_by_id d (p_id p) = Some [p].
Proof.
  intros Hpk Hin. unfold Sql.posts_by_id.
  rewrite (where_int_found p_id (p_id p) (posts d) p Hin eq_refl).
  cbn [option_map]. f_equal. now apply first_of_unique.
Qed.

(* ================================================================= *)
(** ** Registration and login *)

Section Auth.
Import AuthController.
Variable w : World.
Variable amb : Ambient.
Variable d : Db.

Lemma register_duplicate (data : RegisterData) (u : User) :
  In u (users d) -> u_email u = r_email data ->
  register w amb d data
  = (d, Thrown (createError "User with this email already exists" 400
                  "AuthController.register (unnamed/part_001:57)")).
Proof.
  intros Hin He. unfold register, Sql.users_by_email.
  destruct (first_match (fun u => String.eqb (u_email u) (r_email data))
              (users d) u Hin) as (y & -> & _).
  - rewrite He. apply String.eqb_refl.
  - reflexivity.
Qed.

Lemma register_sent (data : RegisterData) (d' : Db) (r : Response) :
  register w amb d data = (d', Sent r) ->
  exists row,
    Sql.insert_user d (now amb) (r_email data)
      (bcrypt_hash w (r_password data) 12 (salt amb))
      (r_firstName data) (r_lastName data) = (d', Some row)
    /\ r = {| status := 201;
              body := JObj
                [("success", JBool true);
                 ("message", JStr "User registered successfully");
                 ("data",
                  JObj [("user", returned_user row);
                        ("token",
                         JStr (jwt_sign w (u_id row) (CONFIG.JWT_SECRET w)
                                 (CONFIG.JWT_EXPIRES_IN w) (now amb)))])] |}.
Proof.
  unfold register.
  destruct (0 <? List.length _)%nat; [discriminate|].
  destruct (Sql.insert_user _ _ _ _ _ _) as [d1 [row|]]; [|discriminate].
  intros H; injection H as <- <-. now exists row.
Qed.

End Auth.

Lemma insert_user_row (d d' : Db) (t : Z) (e p f l : string) (row : User) :
  Sql.insert_user d t e p f l = (d', Some row) ->
  users d' = (users d ++ [row])%list /\ posts d' = posts d
  /\ ~ In row (users d) /\ u_password row = p.
Proof.
  unfold Sql.insert_user.
  destruct (negb _ || existsb _ (users d)) eqn:E; [discriminate|].
  apply orb_false_iff in E as [_ E].
  intros H; injection H as <- <-; cbn.
  repeat split; trivial.
  intros Hin.
  assert (F : existsb
                (fun u => (u_id u =? users_id_seq d + 1)
                          || String.eqb (u_email u) e) (users d) = true).
  { apply existsb_exists. eexists; split; [exact Hin|].
    cbn. now rewrite Z.eqb_refl. }
  congruence.
Qed.

Lemma insert_user_none (d d' : Db) (t : Z) (e p f l : string) :
  Sql.insert_user d t e p f l = (d', None) ->
  users d' = users d /\ posts d' = posts d.
Proof.
  unfold Sql.insert_user.
  destruct (negb _ || existsb _ (users d)); [|discriminate].
  intros H; injection H as <-; now cbn.
Qed.

(** C3 (what the code does): a registration with the e-mail of a stored
    user makes [register] throw the 400 error "User with this email
    already exists" and leaves the database as it was; on the route
    POST /api/auth/register that error is thrown inside the async handler,
    so the request is not answered: no 400, no response at all. *)
Theorem register_duplicate_email_unanswered
        (w : World) (amb : Ambient) (d : Db) (req : Request)
        (data : AuthController.RegisterData) (u : User)
        (Hr : route_of req = Register)
        (Hbody : Schemas.registerSchema w (reqBody req) = Some data)
        (Hin : In u (users d))
        (Hmail : u_email u = AuthController.r_email data) :
  let e := createError "User with this email already exists" 400
             "AuthController.register (unnamed/part_001:57)" in
  AuthController.register w amb d data = (d, Thrown e)
  /\ statusCode e = Some 400
  /\ app w amb d req
     = {| db_after := d; outcome := Unanswered e;
          invoked := [ValidateBody; Controller "register"] |}
  /\ response (app w amb d req) = None
  /\ users (db_after (app w amb d req)) = users d.
Proof.
  cbv zeta.
  pose proof (register_duplicate w amb d data u Hin Hmail) as Hreg.
  assert (Happ : app w amb d req
                 = {| db_after := d;
                      outcome :=
                        Unanswered
                          (createError "User with this email already exists"
                             400
                             "AuthController.register (unnamed/part_001:57)");
                      invoked := [ValidateBody; Controller "register"] |}).
  { unfold app. rewrite Hr. cbn [chain]. unfold validate. rewrite Hbody.
    cbn [through]. rewrite Hreg. reflexivity. }
  split; [exact Hreg|]. split; [reflexivity|]. split; [exact Happ|].
  rewrite Happ. split; reflexivity.
Qed.

Lemma register_duplicate_email_unanswered_witness :
  route_of Demo.register_again = Register
  /\ In Demo.alice (users Demo.db)
  /\ response (app Demo.dev Demo.amb Demo.db Demo.register_again) = None
  /\ option_map statusCode
       (unhandled (app Demo.dev Demo.amb Demo.db Demo.register_again))
     = Some (Some 400)
  /\ users (db_after (app Demo.dev Demo.amb Demo.db Demo.register_again))
     = users Demo.db.
Proof.
  assert (Hin : In Demo.alice (users Demo.db)) by (left; reflexivity).
  split; [reflexivity|]. split; [exact Hin|].
  destruct (register_duplicate_email_unanswered Demo.dev Demo.amb Demo.db
              Demo.register_again Demo.alice_again Demo.alice
              eq_refl eq_refl Hin eq_refl) as (_ & _ & H & H1 & H2).
  split; [exact H1|]. split; [|exact H2].
  rewrite H. reflexivity.
Defined.

(** C9: a successful registration is answered 201 with exactly the members
    success, message and data, and data holds exactly the token and a user
    object with the members id, email, firstName, lastName and createdAt
    of the inserted row; the stored hash sits in the row's password
    column, which is in neither.  That response is what
    POST /api/auth/register sends. *)
Theorem register_response_has_no_password
        (w : World) (amb : Ambient) (d d' : Db)
        (data : AuthController.RegisterData) (r : Response)
        (H : AuthController.register w amb d data = (d', Sent r)) :
  status r = 201
  /\ exists row,
       users d' = (users d ++ [row])%list
       /\ u_password row
          = bcrypt_hash w (AuthController.r_password data) 12 (salt amb)
       /\ body r
          = JObj
              [("success", JBool true);
               ("message", JStr "User registered successfully");
               ("data",
                JObj [("user",
                       JObj [("id", JNum (u_id row));
                             ("email", JStr (u_email row));
                             ("firstName", JStr (u_firstName row));
                             ("lastName", JStr (u_lastName row));
                             ("createdAt", jdate (u_createdAt row))]);
                      ("token",
                       JStr (jwt_sign w (u_id row) (CONFIG.JWT_SECRET w)
                               (CONFIG.JWT_EXPIRES_IN w) (now amb)))])]
       /\ (forall req,
             route_of req = Register ->
             Schemas.registerSchema w (reqBody req) = Some data ->
             app w amb d req
             = {| db_after := d'; outcome := Answered r;
                  invoked := [ValidateBody; Controller "register"] |}).
Proof.
  destruct (register_sent w amb d data d' r H) as (row & Hins & Hr).
  destruct (insert_user_row _ _ _ _ _ _ _ _ Hins) as (Hu & _ & _ & Hp).
  split; [rewrite Hr; reflexivity|].
  exists row. split; [exact Hu|]. split; [exact Hp|].
  split; [rewrite Hr; reflexivity|].
  intros req Hroute Hbody. unfold app. rewrite Hroute. cbn [chain].
  unfold validate. rewrite Hbody. cbn [through]. rewrite H. reflexivity.
Qed.

Lemma register_response_has_no_password_witness :
  exists d' r,
    AuthController.register Demo.dev Demo.amb Demo.db Demo.carol
    = (d', Sent r)
    /\ status r = 201
    /\ keys (body r) = ["success"; "message"; "data"]
    /\ option_map keys (jpath ["data"] (body r)) = Some ["user"; "token"]
    /\ option_map keys (jpath ["data"; "user"] (body r))
       = Some ["id"; "email"; "firstName"; "lastName"; "createdAt"].
Proof.
  eexists; eexists. split; [reflexivity|].
  destruct (register_response_has_no_password Demo.dev Demo.amb Demo.db _
              Demo.carol _ eq_refl)
    as (H1 & row & _ & _ & H2 & _).
  split; [exact H1|]. rewrite H2. repeat split.
Defined.

Section Login.
Import AuthController.
Variable w : World.
Variable amb : Ambient.
Variable d : Db.

Lemma login_unknown (data : LoginData) :
  Sql.users_by_email d (l_email data) = [] ->
  login w amb d data
  = (d, Thrown (createError "Invalid email or password" 401
                  "AuthController.login (unnamed/part_001:139)")).
Proof. intros H. unfold login. now rewrite H. Qed.

Lemma login_wrong_password (data : LoginData) (u : User) (rest : list User) :
  Sql.users_by_email d (l_email data) = u :: rest ->
  bcrypt_compare w (l_password data) (u_password u) = false ->
  login w amb d data
  = (d, Thrown (createError "Invalid email or password" 401
                  "AuthController.login (unnamed/part_001:145)")).
Proof. intros H Hb. unfold login. now rewrite H, Hb. Qed.

Lemma login_route (req : Request) (data : LoginData) :
  route_of req = Login ->
  Schemas.loginSchema w (reqBody req) = Some data ->
  app w amb d req
  = through w d ValidateBody (Pass data)
      (fun data => finish "login" (login w amb d data)).
Proof.
  intros Hr Hb. unfold app. rewrite Hr. cbn [chain]. unfold validate.
  now rewrite Hb.
Qed.

End Login.

(** C2 (what the code does): a login with an unknown e-mail and a login
    with a stored e-mail and a wrong password both make [login] throw an
    error with status 401 and the message "Invalid email or password", and
    change nothing; on the route POST /api/auth/login both errors are
    thrown inside the async handler, so neither request is answered: no
    401 is sent for either. *)
Theorem login_failures_unanswered
        (w : World) (amb : Ambient) (d : Db)
        (unknown wrong : AuthController.LoginData) (u : User)
        (req1 req2 : Request)
        (Hnone : Sql.users_by_email d (AuthController.l_email unknown) = [])
        (Hsome : Sql.users_by_email d (AuthController.l_email wrong) = [u])
        (Hbad : bcrypt_compare w (AuthController.l_password wrong)
                  (u_password u) = false)
        (Hr1 : route_of req1 = Login) (Hr2 : route_of req2 = Login)
        (Hb1 : Schemas.loginSchema w (reqBody req1) = Some unknown)
        (Hb2 : Schemas.loginSchema w (reqBody req2) = Some wrong) :
  let e1 := createError "Invalid email or password" 401
              "AuthController.login (unnamed/part_001:139)" in
  let e2 := createError "Invalid email or password" 401
              "AuthController.login (unnamed/part_001:145)" in
  AuthController.login w amb d unknown = (d, Thrown e1)
  /\ AuthController.login w amb d wrong = (d, Thrown e2)
  /\ statusCode e1 = Some 401 /\ statusCode e2 = Some 401
  /\ message e1 = message e2
  /\ app w amb d req1
     = {| db_after := d; outcome := Unanswered e1;
          invoked := [ValidateBody; Controller "login"] |}
  /\ app w amb d req2
     = {| db_after := d; outcome := Unanswered e2;
          invoked := [ValidateBody; Controller "login"] |}
  /\ response (app w amb d req1) = None
  /\ response (app w amb d req2) = None.
Proof.
  cbv zeta.
  pose proof (login_unknown w amb d unknown Hnone) as H1.
  pose proof (login_wrong_password w amb d wrong u [] Hsome Hbad) as H2.
  pose proof (login_route w amb d req1 unknown Hr1 Hb1) as A1.
  pose proof (login_route w amb d req2 wrong Hr2 Hb2) as A2.
  cbn [through] in A1, A2. rewrite H1 in A1. rewrite H2 in A2.
  cbn [finish db_after outcome invoked] in A1, A2.
  split; [exact H1|]. split; [exact H2|].
  split; [reflexivity|]. split; [reflexivity|]. split; [reflexivity|].
  split; [exact A1|]. split; [exact A2|].
  rewrite A1, A2. split; reflexivity.
Qed.

Lemma login_failures_unanswered_witness :
  Sql.users_by_email Demo.db (AuthController.l_email Demo.unknown_login) = []
  /\ Sql.users_by_email Demo.db (AuthController.l_email Demo.wrong_login)
     = [Demo.alice]
  /\ response (app Demo.dev Demo.amb Demo.db Demo.unknown_login_request)
     = None
  /\ response (app Demo.dev Demo.amb Demo.db Demo.wrong_login_request)
     = None.
Proof.
  split; [reflexivity|]. split; [reflexivity|].
  destruct (login_failures_unanswered Demo.dev Demo.amb Demo.db
              Demo.unknown_login Demo.wrong_login Demo.alice
              Demo.unknown_login_request Demo.wrong_login_request
              eq_refl eq_refl eq_refl eq_refl eq_refl eq_refl eq_refl)
    as (_ & _ & _ & _ & _ & _ & _ & H1 & H2).
  split; [exact H1 | exact H2].
Defined.

(* ================================================================= *)
(** ** Ownership of posts *)

(** The rows the left join makes of one post: one per user with the
    post's [authorId], or one without author. *)
Lemma left_join_cons (us : list User) (p : Post) (ps : list Post)
      (seq1 seq2 : Z) :
  Sql.left_join {| users := us; posts := p :: ps;
                   users_id_seq := seq1; posts_id_seq := seq2 |}
  = (match filter (fun u => u_id u =? p_authorId p) us with
     | [] => [(p, None)]
     | found => map (fun u => (p, Some u)) found
     end
     ++ Sql.left_join {| users := us; posts := ps;
                         users_id_seq := seq1; posts_id_seq := seq2 |})%list.
Proof. reflexivity. Qed.

Lemma left_join_of_tables (d : Db) :
  Sql.left_join d
  = Sql.left_join {| users := users d; posts := posts d;
                     users_id_seq := 0; posts_id_seq := 0 |}.
Proof. reflexivity. Qed.

Lemma left_join_covers (d : Db) (p : Post) :
  In p (posts d) -> exists a, In (p, a) (Sql.left_join d).
Proof.
  intros Hin. unfold Sql.left_join.
  destruct (filter (fun u => u_id u =? p_authorId p) (users d))
    as [|u us] eqn:E.
  - exists None. apply in_flat_map. exists p. split; [exact Hin|].
    rewrite E. now left.
  - exists (Some u). apply in_flat_map. exists p. split; [exact Hin|].
    rewrite E. now left.
Qed.

Lemma left_join_post (d : Db) (r : Post * option User) :
  In r (Sql.left_join d) -> In (fst r) (posts d).
Proof.
  unfold Sql.left_join. intros H. apply in_flat_map in H as (q & Hq & Hr).
  destruct (filter (fun u => u_id u =? p_authorId q) (users d))
    as [|a found].
  - destruct Hr as [<- | []]. exact Hq.
  - apply in_map_iff in Hr as (v & <- & _). exact Hq.
Qed.

(** The first row of the join that has the id of a stored post: the post
    with the first user that has its [authorId], if there is one. *)
Lemma joined_first (us : list User) (ps : list Post) (p : Post) :
  NoDup (map p_id ps) -> In p ps ->
  firstn 1
    (filter (fun r => p_id (fst r) =? p_id p)
       (Sql.left_join {| users := us; posts := ps;
                         users_id_seq := 0; posts_id_seq := 0 |}))
  = [(p, hd_error (filter (fun u => u_id u =? p_authorId p) us))].
Proof.
  induction ps as [|q ps IH]; intros Hnd Hin; [contradiction|].
  cbn [map] in Hnd. inversion Hnd as [|? ? Hnotin Hnd']; subst.
  rewrite left_join_cons, filter_app.
  destruct Hin as [-> | Hin].
  - destruct (filter (fun u => u_id u =? p_authorId p) us) as [|u found].
    + cbn [filter fst List.app]. rewrite Z.eqb_refl. reflexivity.
    + cbn [map filter fst List.app]. rewrite Z.eqb_refl. reflexivity.
  - assert (Hq : p_id q <> p_id p).
    { intros E. apply Hnotin. rewrite E. now apply in_map. }
    assert (Hnone : forall l : list User,
               filter (fun r : Post * option User => p_id (fst r) =? p_id p)
                 (map (fun u => (q, Some u)) l) = []).
    { induction l as [|v l IHl]; [reflexivity|].
      cbn [map filter fst]. destruct (Z.eqb_spec (p_id q) (p_id p));
        [contradiction | exact IHl]. }
    destruct (filter (fun u => u_id u =? p_authorId q) us) as [|v found].
    + cbn [filter fst List.app].
      destruct (Z.eqb_spec (p_id q) (p_id p)); [contradiction|].
      now apply IH.
    + rewrite Hnone. cbn [List.app]. now apply IH.
Qed.

Lemma joined_by_id_stored (d : Db) (p : Post) :
  posts_pk d -> In p (posts d) ->
  PostController.joined_by_id d (p_id p)
  = Some [(p, hd_error (filter (fun u => u_id u =? p_authorId p)
                          (users d)))].
Proof.
  intros Hpk Hin. unfold PostController.joined_by_id.
  destruct (left_join_covers d p Hin) as (a & Ha).
  rewrite (where_int_found (fun r : Post * option User => p_id (fst r))
             (p_id p) (Sql.left_join d) (p, a) Ha eq_refl).
  cbn [option_map]. f_equal. rewrite left_join_of_tables.
  now apply joined_first.
Qed.

Lemma getPostById_found (d : Db) (params : list (string * string)) (p : Post) :
  posts_pk d -> In p (posts d) -> int_param "id" params = Some (p_id p) ->
  PostController.getPostById d params
  = (d, Sent (ok (JObj
       [("success", JBool true);
        ("data",
         JObj [("post",
                PostController.joined_json
                  (p, hd_error (filter (fun u => u_id u =? p_authorId p)
                                  (users d))))])]))).
Proof.
  intros Hpk Hin Hid. unfold PostController.getPostById.
  rewrite Hid, (joined_by_id_stored d p Hpk Hin). reflexivity.
Qed.

Lemma int_param_id (id : string) :
  int_param "id" [("id", id)] = Js.parseInt id.
Proof. reflexivity. Qed.

Lemma validate_id (id : string) :
  Js.digits_only id = true ->
  validate Schemas.idParamSchema [("id", id)] = Pass tt.
Proof.
  intros H. unfold validate, Schemas.idParamSchema.
  cbn [assoc String.eqb Ascii.eqb Bool.eqb]. now rewrite H.
Qed.

Section NotTheOwner.
Variable w : World.
Variable amb : Ambient.
Variable d : Db.
Variable p : Post.
Hypothesis Hpk : posts_pk d.
Hypothesis Hin : In p (posts d).
Variable B : AuthUser.
Hypothesis Hne : p_authorId p <> a_id B.

Lemma updatePost_not_owner (params : list (string * string)) (body : json) :
  int_param "id" params = Some (p_id p) ->
  PostController.updatePost w amb d params B body
  = (d, Thrown (createError "Not authorized to update this post" 403
                  "PostController.updatePost (src/config/index.ts:255)")).
Proof.
  intros Hid. unfold PostController.updatePost.
  rewrite Hid, (posts_by_id_stored d p Hpk Hin).
  destruct (Z.eqb_spec (p_authorId p) (a_id B)) as [E|_]; [contradiction|].
  reflexivity.
Qed.

Lemma deletePost_not_owner (params : list (string * string)) :
  int_param "id" params = Some (p_id p) ->
  PostController.deletePost d params B
  = (d, Thrown (createError "Not authorized to delete this post" 403
                  "PostController.deletePost (src/config/index.ts:317)")).
Proof.
  intros Hid. unfold PostController.deletePost.
  rewrite Hid, (posts_by_id_stored d p Hpk Hin).
  destruct (Z.eqb_spec (p_authorId p) (a_id B)) as [E|_]; [contradiction|].
  reflexivity.
Qed.

End NotTheOwner.

(** C1 (what the code does): for a stored post whose authorId is not the id
    of the authenticated caller B, [updatePost] and [deletePost] throw the
    403 error and leave the database as it was.  On PUT and DELETE
    /api/posts/:id that error is thrown inside the async handler, so the
    request is not answered: no 403 is sent (a PUT whose body the schema
    refuses is answered 400 before the controller).  In every case the
    post is neither changed nor removed.  GET /api/posts/:id for a stored
    post is answered 200 with exactly that post and its author, whatever
    the Authorization header is; the token check is not in its chain. *)
Theorem non_owner_unanswered_and_public_read
        (w : World) (amb : Ambient) (d : Db) (p : Post)
        (Hpk : posts_pk d) (Hin : In p (posts d)) :
  let e_update := createError "Not authorized to update this post" 403
                    "PostController.updatePost (src/config/index.ts:255)" in
  let e_delete := createError "Not authorized to delete this post" 403
                    "PostController.deletePost (src/config/index.ts:317)" in
  (forall (B : AuthUser) (params : list (string * string)) (body : json),
      int_param "id" params = Some (p_id p) ->
      p_authorId p <> a_id B ->
      PostController.updatePost w amb d params B body = (d, Thrown e_update)
      /\ PostController.deletePost d params B = (d, Thrown e_delete)
      /\ statusCode e_update = Some 403 /\ statusCode e_delete = Some 403)
  /\ (forall (req : Request) (id : string) (B : AuthUser),
        route_of req = UpdatePost id ->
        authenticateToken w d amb (authorization req) = Pass B ->
        Js.digits_only id = true ->
        Js.parseInt id = Some (p_id p) ->
        p_authorId p <> a_id B ->
        db_after (app w amb d req) = d
        /\ (Schemas.updatePostSchema (reqBody req) = None ->
            option_map status (response (app w amb d req)) = Some 400
            /\ invoked (app w amb d req)
               = [AuthenticateToken; ValidateParams; ValidateBody;
                  ErrorHandler])
        /\ (Schemas.updatePostSchema (reqBody req) <> None ->
            outcome (app w amb d req) = Unanswered e_update
            /\ response (app w amb d req) = None
            /\ invoked (app w amb d req)
               = [AuthenticateToken; ValidateParams; ValidateBody;
                  Controller "updatePost"]))
  /\ (forall (req : Request) (id : string) (B : AuthUser),
        route_of req = DeletePost id ->
        authenticateToken w d amb (authorization req) = Pass B ->
        Js.digits_only id = true ->
        Js.parseInt id = Some (p_id p) ->
        p_authorId p <> a_id B ->
        app w amb d req
        = {| db_after := d; outcome := Unanswered e_delete;
             invoked := [AuthenticateToken; ValidateParams;
                         Controller "deletePost"] |}
        /\ response (app w amb d req) = None)
  /\ (forall (req : Request) (id : string),
        route_of req = PostById id ->
        Js.digits_only id = true ->
        Js.parseInt id = Some (p_id p) ->
        app w amb d req
        = {| db_after := d;
             outcome :=
               Answered
                 (ok (JObj
                    [("success", JBool true);
                     ("data",
                      JObj [("post",
                             PostController.joined_json
                               (p, hd_error
                                     (filter
                                        (fun u => u_id u =? p_authorId p)
                                        (users d))))])]));
             invoked := [ValidateParams; Controller "getPostById"] |}).
Proof.
  cbv zeta. split; [|split; [|split]].
  - intros B params body Hid Hne.
    rewrite (updatePost_not_owner w amb d p Hpk Hin B Hne params body Hid).
    rewrite (deletePost_not_owner d p Hpk Hin B Hne params Hid).
    repeat split.
  - intros req id B Hroute Hauth Hdig Hparse Hne.
    unfold app. rewrite Hroute. cbn [chain]. unfold auth. rewrite Hauth.
    rewrite (validate_id id Hdig). cbn [through].
    rewrite (updatePost_not_owner w amb d p Hpk Hin B Hne [("id", id)]
               (reqBody req) Hparse).
    unfold validate.
    destruct (Schemas.updatePostSchema (reqBody req)) as [data|].
    + cbn. split; [reflexivity|]. split; [discriminate|].
      intros _. repeat split.
    + cbn. split; [reflexivity|]. split; [|congruence].
      intros _. repeat split.
  - intros req id B Hroute Hauth Hdig Hparse Hne.
    unfold app. rewrite Hroute. cbn [chain]. unfold auth. rewrite Hauth.
    rewrite (validate_id id Hdig). cbn [through].
    rewrite (deletePost_not_owner d p Hpk Hin B Hne [("id", id)] Hparse).
    split; reflexivity.
  - intros req id Hroute Hdig Hparse.
    unfold app. rewrite Hroute. cbn [chain].
    rewrite (validate_id id Hdig). cbn [through].
    rewrite (getPostById_found d [("id", id)] p Hpk Hin Hparse).
    reflexivity.
Qed.

Lemma non_owner_unanswered_and_public_read_witness :
  posts_pk Demo.db /\ In (Demo.post 3) (posts Demo.db)
  /\ response (app Demo.dev Demo.amb Demo.db
                 (Demo.request PUT ["api"; "posts"; "3"] (Some "Bearer t2")
                    [] (JObj [("title", JStr "mine now")]))) = None
  /\ response (app Demo.dev Demo.amb Demo.db
                 (Demo.request DELETE ["api"; "posts"; "3"]
                    (Some "Bearer t2") [] JNull)) = None
  /\ option_map status
       (response (app Demo.dev Demo.amb Demo.db
                    (Demo.request GET ["api"; "posts"; "3"] None [] JNull)))
     = Some 200.
Proof.
  assert (Hpk : posts_pk Demo.db).
  { unfold posts_pk. cbn.
    repeat (constructor; [cbn; intuition discriminate|]). constructor. }
  assert (Hin : In (Demo.post 3) (posts Demo.db))
    by (right; right; left; reflexivity).
  split; [exact Hpk|]. split; [exact Hin|].
  destruct (non_owner_unanswered_and_public_read Demo.dev Demo.amb Demo.db
              (Demo.post 3) Hpk Hin) as (_ & Hu & Hd & Hr).
  split; [|split].
  - destruct (Hu (Demo.request PUT ["api"; "posts"; "3"] (Some "Bearer t2") []
                    (JObj [("title", JStr "mine now")]))
                "3" Demo.bob_user eq_refl eq_refl eq_refl eq_refl)
      as (_ & _ & H); [cbn; discriminate|].
    destruct H as (_ & H & _); [cbn; discriminate | exact H].
  - destruct (Hd (Demo.request DELETE ["api"; "posts"; "3"]
                    (Some "Bearer t2") [] JNull)
                "3" Demo.bob_user eq_refl eq_refl eq_refl eq_refl) as (_ & H);
      [cbn; discriminate | exact H].
  - rewrite (Hr (Demo.request GET ["api"; "posts"; "3"] None [] JNull) "3"
               eq_refl eq_refl eq_refl).
    reflexivity.
Defined.

(* ================================================================= *)
(** ** Posts of one user *)

(** C5 (what the code does): every GET /api/posts/user/:userId, whatever
    the user id, query or headers, stops in the parameter validation of
    the route: [idParamSchema] asks for a key [id], the route binds
    [userId], so the answer is 400 and [getPostsByUserId] never runs. *)
Theorem posts_by_user_stops_in_validation
        (w : World) (amb : Ambient) (d : Db) (c : ascii) (userId : string)
        (url : string) (a : option string) (q : list (string * string))
        (b : json) :
  let req := {| method := GET; originalUrl := url;
                path := ["api"; "posts"; "user"; String c userId];
                authorization := a; query := q; reqBody := b |} in
  route_of req = PostsByUser (String c userId)
  /\ Schemas.idParamSchema [("userId", String c userId)] = None
  /\ option_map status (response (app w amb d req)) = Some 400
  /\ invoked (app w amb d req) = [ValidateParams; ErrorHandler]
  /\ db_after (app w amb d req) = d.
Proof.
  cbv zeta. repeat split.
Qed.

(** The controller behind that route, had it been reached with a numeric
    user id and the default paging, answers 200. *)
Lemma getPostsByUserId_alone_answers_200 :
  exists r,
    PostController.getPostsByUserId Demo.db [("userId", "1")] []
    = (Demo.db, Sent r)
    /\ status r = 200
    /\ jpath ["data"; "pagination"; "hasMore"] (body r) = Some (JBool true).
Proof. eexists. repeat split. Qed.

(* ================================================================= *)
(** ** Ordering and paging *)

Section Ordering.
Context {A : Type} (key : A -> option Z).

Lemma newer_may_precede (a b : option Z) :
  Sql.newer a b = true -> may_precede a b.
Proof.
  destruct a, b; cbn; trivial; try discriminate.
  intros H. apply Z.ltb_lt in H. lia.
Qed.

Lemma not_newer_may_precede (a b : option Z) :
  Sql.newer b a = false -> may_precede a b.
Proof.
  destruct a, b; cbn; trivial; try discriminate.
  intros H. apply Z.ltb_ge in H. exact H.
Qed.

Lemma may_precede_trans (a b c : option Z) :
  may_precede a b -> may_precede b c -> may_precede a c.
Proof.
  destruct a, b, c; cbn; trivial; try contradiction. lia.
Qed.

Lemma insert_desc_perm (x : A) (l : list A) :
  Permutation (Sql.insert_desc key x l) (x :: l).
Proof.
  induction l as [|y t IH]; cbn; [reflexivity|].
  destruct (Sql.newer (key y) (key x)); [|reflexivity].
  rewrite IH. apply perm_swap.
Qed.

Lemma order_desc_perm (l : list A) : Permutation (Sql.order_desc key l) l.
Proof.
  induction l as [|x t IH]; cbn; [reflexivity|].
  rewrite insert_desc_perm. now constructor.
Qed.

Lemma order_desc_length (l : list A) :
  List.length (Sql.order_desc key l) = List.length l.
Proof. apply Permutation_length, order_desc_perm. Qed.

Lemma insert_desc_sorted (x : A) (l : list A) :
  descending key l -> descending key (Sql.insert_desc key x l).
Proof.
  unfold descending.
  induction l as [|y t IH]; intros Hs; cbn.
  - constructor; constructor.
  - apply StronglySorted_inv in Hs as [Ht Hy].
    destruct (Sql.newer (key y) (key x)) eqn:E.
    + constructor; [now apply IH|].
      eapply Permutation_Forall;
        [symmetry; apply insert_desc_perm|].
      constructor; [now apply newer_may_precede | exact Hy].
    + apply not_newer_may_precede in E.
      constructor; [now constructor|].
      constructor; [exact E|].
      eapply Forall_impl; [|exact Hy].
      intros z Hz. cbn in Hz. now apply (may_precede_trans _ (key y)).
Qed.

Lemma order_desc_sorted (l : list A) : descending key (Sql.order_desc key l).
Proof.
  induction l as [|x t IH]; cbn.
  - constructor.
  - now apply insert_desc_sorted.
Qed.

End Ordering.

Lemma at_most_one_match {A} (key : A -> Z) (k : Z) (l : list A) :
  NoDup (map key l) ->
  (List.length (filter (fun y => (key y =? k)%Z) l) <= 1)%nat.
Proof.
  induction l as [|a l IH]; intros Hnd; cbn; [lia|].
  inversion Hnd as [|? ? Hnotin Hnd']; subst.
  destruct (Z.eqb_spec (key a) k) as [E|E]; [|now apply IH].
  assert (Hnil : filter (fun y => key y =? k) l = []).
  { destruct (filter (fun y => key y =? k) l) as [|b t] eqn:F; trivial.
    exfalso. apply Hnotin.
    assert (Hb : In b (filter (fun y => key y =? k) l))
      by (rewrite F; now left).
    apply filter_In in Hb as [Hb1 Hb2]. apply Z.eqb_eq in Hb2.
    rewrite E, <- Hb2. now apply in_map. }
  rewrite Hnil. cbn. lia.
Qed.

Lemma left_join_length (d : Db) :
  users_pk d -> List.length (Sql.left_join d) = List.length (posts d).
Proof.
  intros Hpk. unfold Sql.left_join.
  induction (posts d) as [|p ps IH]; cbn [flat_map]; [reflexivity|].
  rewrite length_app, IH. cbn [List.length]. f_equal.
  pose proof (at_most_one_match u_id (p_authorId p) (users d) Hpk) as H.
  destruct (filter (fun u => u_id u =? p_authorId p) (users d)) as [|u [|v t]];
    cbn in *; trivial; lia.
Qed.

Lemma all_rows_length (d : Db) :
  users_pk d ->
  List.length (PostController.all_rows d) = List.length (posts d).
Proof.
  intros Hpk. unfold PostController.all_rows.
  now rewrite order_desc_length, left_join_length.
Qed.

(** Numbers up to 2^53 are doubles, and so are their differences and
    products while these stay in that range. *)
Lemma double_exact (n : Z) : Z.abs n < 2 ^ 53 -> Js.double n = n.
Proof.
  intros H. unfold Js.double.
  destruct (Z.ltb_spec (Z.abs n) (2 ^ 53)); [reflexivity | lia].
Qed.

Lemma offset_exact (query : list (string * string)) (p L : Z) :
  page_of query = p -> limit_of query = L ->
  1 <= p -> 1 <= L -> p * L <= 2 ^ 53 ->
  offset_of query = (p - 1) * L.
Proof.
  intros Hp HL H1 H2 Hfit. unfold offset_of, Js.mul, Js.sub.
  rewrite Hp, HL.
  assert (Hple : p <= 2 ^ 53) by nia.
  rewrite (double_exact (p - 1)) by lia.
  apply double_exact. nia.
Qed.

Lemma limit_offset_in_range {A} (L o : Z) (rows : list A) :
  0 <= L <= Sql.int8_max -> 0 <= o <= Sql.int8_max ->
  Sql.limit_offset L o rows
  = Some (firstn (Z.to_nat L) (skipn (Z.to_nat o) rows)).
Proof.
  intros HL Ho. unfold Sql.limit_offset.
  destruct (Z.ltb_spec Sql.int8_max L); [lia|].
  destruct (Z.ltb_spec Sql.int8_max o); [lia|].
  destruct (Z.ltb_spec o 0); [lia|].
  destruct (Z.ltb_spec L 0); [lia|]. cbn [orb].
  destruct (Z.eqb_spec o 0) as [-> | _]; reflexivity.
Qed.

Lemma page_of_digits (query : list (string * string)) (s : string) (p : Z) :
  assoc "page" query = Some s -> Js.parseInt s = Some p -> 1 <= p ->
  page_of query = p.
Proof.
  intros Hq Hs Hp. unfold page_of, Js.parseInt_or. rewrite Hq, Hs.
  destruct p; trivial; lia.
Qed.

Lemma limit_of_digits (query : list (string * string)) (s : string) (L : Z) :
  assoc "limit" query = Some s -> Js.parseInt s = Some L -> 1 <= L ->
  limit_of query = L.
Proof.
  intros Hq Hs Hp. unfold limit_of, Js.parseInt_or. rewrite Hq, Hs.
  destruct L; trivial; lia.
Qed.

(** C4, as stated, fails: page 10000000000 with limit 10000000000 passes
    [paginationSchema] and has page >= 1 and limit >= 1, but the offset
    (p-1)*L is beyond PostgreSQL's bigint: the query is refused, no rows
    are returned and GET /api/posts is not answered. *)
Lemma getAllPosts_offset_beyond_bigint :
  Schemas.paginationSchema Demo.far_page = Some tt
  /\ page_of Demo.far_page = 10000000000
  /\ limit_of Demo.far_page = 10000000000
  /\ Sql.int8_max < offset_of Demo.far_page
  /\ PostController.allPosts Demo.db Demo.far_page = None
  /\ (forall r, PostController.getAllPosts Demo.db Demo.far_page
                <> (Demo.db, Sent r))
  /\ response (app Demo.dev Demo.amb Demo.db
                 (Demo.request GET ["api"; "posts"] None Demo.far_page
                    JNull)) = None.
Proof.
  split; [reflexivity|]. split; [reflexivity|]. split; [reflexivity|].
  split; [vm_compute; reflexivity|]. split; [reflexivity|].
  split; [|reflexivity].
  intros r H. vm_compute in H. discriminate H.
Qed.

(** C4 (amended): for page p >= 1 and limit L >= 1 with p*L at most 2^53,
    [getAllPosts] answers 200 with the rows that follow the first (p-1)*L
    rows of the selection ordered by descending creation time, at most L
    of them, and hasMore is true exactly when L rows were returned; with
    15 posts and limit 10, page 1 has 10 rows and hasMore, page 2 has 5
    rows and no hasMore. *)
Theorem getAllPosts_paging
        (d : Db) (query : list (string * string)) (p L : Z)
        (Hpage : page_of query = p) (Hlimit : limit_of query = L)
        (Hp : 1 <= p) (HL : 1 <= L) (Hfit : p * L <= 2 ^ 53) :
  let rows := firstn (Z.to_nat L)
                (skipn (Z.to_nat ((p - 1) * L)) (PostController.all_rows d)) in
  exists r hasMore,
    PostController.getAllPosts d query = (d, Sent r)
    /\ status r = 200
    /\ jpath ["data"; "posts"] (body r)
       = Some (JArr (map PostController.joined_json rows))
    /\ jpath ["data"; "pagination"; "hasMore"] (body r)
       = Some (JBool hasMore)
    /\ (List.length rows <= Z.to_nat L)%nat
    /\ (hasMore = true <-> List.length rows = Z.to_nat L)
    /\ descending (fun r => p_createdAt (fst r)) (PostController.all_rows d)
    /\ Permutation (PostController.all_rows d) (Sql.left_join d)
    /\ (users_pk d -> List.length (posts d) = 15%nat -> L = 10 ->
        (p = 1 -> List.length rows = 10%nat /\ hasMore = true)
        /\ (p = 2 -> List.length rows = 5%nat /\ hasMore = false)).
Proof.
  cbv zeta.
  set (rows := firstn (Z.to_nat L)
                 (skipn (Z.to_nat ((p - 1) * L)) (PostController.all_rows d))).
  assert (Hq : PostController.allPosts d query = Some rows).
  { unfold PostController.allPosts.
    rewrite (offset_exact query p L Hpage Hlimit Hp HL Hfit), Hlimit.
    apply limit_offset_in_range; unfold Sql.int8_max; nia. }
  unfold PostController.getAllPosts. rewrite Hq.
  eexists. exists (Z.of_nat (List.length rows) =? L).
  split; [reflexivity|]. split; [reflexivity|]. split; [reflexivity|].
  split; [cbn; unfold pagination; now rewrite Hlimit|].
  split; [apply firstn_le_length|].
  split; [rewrite Z.eqb_eq; lia|].
  split; [apply order_desc_sorted|].
  split; [apply order_desc_perm|].
  intros Hpk H15 ->.
  assert (Hlen := all_rows_length d Hpk). rewrite H15 in Hlen.
  split; intros ->; subst rows;
    rewrite length_firstn, length_skipn, Hlen; cbn; auto.
Qed.

Lemma getAllPosts_paging_witness :
  exists r,
    PostController.getAllPosts Demo.db [("page", "2"); ("limit", "10")]
    = (Demo.db, Sent r)
    /\ jpath ["data"; "pagination"; "hasMore"] (body r) = Some (JBool false)
    /\ List.length
         (firstn 10 (skipn 10 (PostController.all_rows Demo.db))) = 5%nat.
Proof.
  assert (Hpk : users_pk Demo.db).
  { unfold users_pk. cbn.
    repeat (constructor; [cbn; intuition discriminate|]). constructor. }
  destruct (getAllPosts_paging Demo.db [("page", "2"); ("limit", "10")]
              2 10 eq_refl eq_refl ltac:(lia) ltac:(lia) ltac:(lia))
    as (r & hasMore & H1 & _ & _ & H2 & _ & _ & _ & _ & H3).
  destruct (H3 Hpk eq_refl eq_refl) as [_ H4].
  destruct (H4 eq_refl) as [H5 H6].
  exists r. split; [exact H1|].
  split; [rewrite H2, H6; reflexivity | exact H5].
Defined.

(* ================================================================= *)
(** ** What each handler does to the users table *)

Lemma finish_db (name : string) (out : Db * Reply) :
  db_after (finish name out) = fst out.
Proof. destruct out as [d' [r|e]]; reflexivity. Qed.

Lemma through_db {A} (w : World) (d : Db) (s : Stage) (st : Step A)
      (k : A -> Exchange) (P : Db -> Prop) :
  P d -> (forall a, P (db_after (k a))) -> P (db_after (through w d s st k)).
Proof. intros Hd Hk. destruct st; cbn; auto. Qed.

Lemma insert_post_users (d : Db) (t : Z) (title : string)
      (content : option string) (isPublished : bool) (authorId : Z) :
  users (fst (Sql.insert_post d t title content isPublished authorId))
  = users d
  /\ users_id_seq (fst (Sql.insert_post d t title content isPublished
                          authorId)) = users_id_seq d.
Proof.
  unfold Sql.insert_post.
  destruct (_ || _ || _); split; reflexivity.
Qed.

Section Frames.
Import AuthController PostController.
Variable w : World.
Variable amb : Ambient.
Variable d : Db.

Lemma login_frame (data : LoginData) : fst (login w amb d data) = d.
Proof. unfold login. split_matches; reflexivity. Qed.

Lemma getAllPosts_frame (q : list (string * string)) :
  fst (getAllPosts d q) = d.
Proof. unfold getAllPosts. split_matches; reflexivity. Qed.

Lemma getPostById_frame (ps : list (string * string)) :
  fst (getPostById d ps) = d.
Proof. unfold getPostById. split_matches; reflexivity. Qed.

Lemma getPostsByUserId_frame (ps q : list (string * string)) :
  fst (getPostsByUserId d ps q) = d.
Proof. unfold getPostsByUserId. split_matches; reflexivity. Qed.

Lemma createPost_frame (user : AuthUser) (data : CreatePostData) :
  users (fst (createPost amb d user data)) = users d
  /\ users_id_seq (fst (createPost amb d user data)) = users_id_seq d.
Proof.
  unfold createPost.
  pose proof (insert_post_users d (now amb) (c_title data) (c_content data)
                match c_isPublished data with Some true => true | _ => false end
                (a_id user)) as H.
  destruct (Sql.insert_post _ _ _ _ _ _) as [d' [row|]]; exact H.
Qed.

Lemma set_and_return_frame (i : Z) (body : json) (d' : Db)
      (returned : list Post) :
  set_and_return w amb d i body = Some (d', returned) ->
  users d' = users d /\ users_id_seq d' = users_id_seq d
  /\ posts_id_seq d' = posts_id_seq d.
Proof.
  unfold set_and_return, update_posts.
  destruct (declared_update body) as [data|].
  - destruct (match up_title data with
              | Some t => Sql.fits 255 t
              | None => true
              end); [|discriminate].
    intros H; injection H as <- <-. repeat split.
  - destruct (drizzle_set w _ _ _ _ _) as [[rows ret]|]; [|discriminate].
    intros H; injection H as <- <-. repeat split.
Qed.

Lemma updatePost_frame (ps : list (string * string)) (user : AuthUser)
      (body : json) :
  users (fst (updatePost w amb d ps user body)) = users d
  /\ users_id_seq (fst (updatePost w amb d ps user body)) = users_id_seq d.
Proof.
  unfold updatePost.
  destruct (int_param "id" ps) as [i|]; [|split; reflexivity].
  destruct (Sql.posts_by_id d i) as [[|existing rest]|];
    try (split; reflexivity).
  destruct (negb _); [split; reflexivity|].
  destruct (set_and_return w amb d i body) as [[d' returned]|] eqn:E;
    [|split; reflexivity].
  destruct (set_and_return_frame i body d' returned E) as (H1 & H2 & _).
  split; assumption.
Qed.

Lemma deletePost_frame (ps : list (string * string)) (user : AuthUser) :
  users (fst (deletePost d ps user)) = users d
  /\ users_id_seq (fst (deletePost d ps user)) = users_id_seq d.
Proof.
  unfold deletePost, Sql.delete_post. split_matches; split; reflexivity.
Qed.

Lemma register_frame (data : RegisterData) :
  users (fst (register w amb d data)) = users d
  \/ exists row, users (fst (register w amb d data))
                 = (users d ++ [row])%list
                 /\ ~ In row (users d).
Proof.
  unfold register.
  destruct (0 <? List.length _)%nat; [now left|].
  destruct (Sql.insert_user _ _ _ _ _ _) as [d' [row|]] eqn:E; cbn [fst].
  - right. exists row.
    destruct (insert_user_row _ _ _ _ _ _ _ _ E) as (H1 & _ & H2 & _).
    now split.
  - left. now destruct (insert_user_none _ _ _ _ _ _ _ E).
Qed.

End Frames.

(** C8: whatever the request, the users table afterwards is the one
    before, or, on the registration route only, the one before followed by
    one row that was not in it. *)
Theorem users_only_grow_by_registration
        (w : World) (amb : Ambient) (d : Db) (req : Request) :
  users (db_after (app w amb d req)) = users d
  \/ (route_of req = Register
      /\ exists row,
           users (db_after (app w amb d req)) = (users d ++ [row])%list
           /\ ~ In row (users d)).
Proof.
  unfold app.
  destruct (route_of req) eqn:R; cbn [chain];
    try (left;
         repeat (apply through_db; [reflexivity | intros ?]);
         try rewrite finish_db;
         first [ reflexivity
               | now rewrite login_frame
               | now rewrite getAllPosts_frame
               | now rewrite getPostById_frame
               | now rewrite getPostsByUserId_frame
               | apply createPost_frame
               | apply updatePost_frame
               | apply deletePost_frame
               | (unfold not_found, answer; split_matches; reflexivity) ]).
  destruct (validate (Schemas.registerSchema w) (reqBody req)) as [data|r|e];
    cbn [through db_after]; try (now left).
  rewrite finish_db.
  destruct (register_frame w amb d data) as [H | H]; [now left|].
  right. now split.
Qed.

(* ================================================================= *)
(** ** Independence from [isActive] *)

Lemma map_filter_comm {A B} (g : A -> B) (f : B -> bool) (l : list A) :
  map g (filter (fun x => f (g x)) l) = filter f (map g l).
Proof.
  induction l as [|a l IH]; cbn; [reflexivity|].
  destruct (f (g a)); cbn; now rewrite IH.
Qed.

Lemma existsb_map_comm {A B} (g : A -> B) (f : B -> bool) (l : list A) :
  existsb (fun x => f (g x)) l = existsb f (map g l).
Proof. induction l as [|a l IH]; cbn; [reflexivity | now rewrite IH]. Qed.

Lemma insert_desc_map {A B} (g : A -> B) (key : A -> option Z)
      (key' : B -> option Z) (x : A) (l : list A) :
  (forall a, key' (g a) = key a) ->
  map g (Sql.insert_desc key x l) = Sql.insert_desc key' (g x) (map g l).
Proof.
  intros Hk. induction l as [|y t IH]; cbn; [reflexivity|].
  rewrite !Hk. destruct (Sql.newer (key y) (key x)); cbn; now rewrite ?IH.
Qed.

Lemma order_desc_map {A B} (g : A -> B) (key : A -> option Z)
      (key' : B -> option Z) (l : list A) :
  (forall a, key' (g a) = key a) ->
  map g (Sql.order_desc key l) = Sql.order_desc key' (map g l).
Proof.
  intros Hk. unfold Sql.order_desc.
  induction l as [|x t IH]; cbn [fold_right map]; [reflexivity|].
  now rewrite (insert_desc_map g key key' _ _ Hk), IH.
Qed.

Lemma limit_offset_map {A B} (g : A -> B) (l o : Z) (rows : list A) :
  Sql.limit_offset l o (map g rows)
  = option_map (map g) (Sql.limit_offset l o rows).
Proof.
  unfold Sql.limit_offset. destruct (_ || _ || _); cbn; [reflexivity|].
  destruct (o =? 0), (l <? 0); now rewrite ?skipn_map, ?firstn_map.
Qed.

Lemma where_int_map {A B} (g : A -> B) (column : A -> Z) (column' : B -> Z)
      (i : Z) (rows : list A) :
  (forall a, column' (g a) = column a) ->
  Sql.where_int column' i (map g rows)
  = option_map (map g) (Sql.where_int column i rows).
Proof.
  intros Hc. unfold Sql.where_int.
  rewrite <- (map_filter_comm g (fun b => column' b =? i)).
  rewrite (filter_ext (fun x => column' (g x) =? i)
             (fun r => column r =? i)) by (intros a; now rewrite Hc).
  destruct (filter (fun r => column r =? i) rows); cbn [map].
  - destruct (Sql.in_int4 i); reflexivity.
  - reflexivity.
Qed.

Lemma blank_fields (a b : User) :
  blank a = blank b ->
  u_id a = u_id b /\ u_email a = u_email b /\ u_password a = u_password b
  /\ u_firstName a = u_firstName b /\ u_lastName a = u_lastName b
  /\ u_createdAt a = u_createdAt b /\ u_updatedAt a = u_updatedAt b.
Proof. unfold blank. intros H. injection H. intuition. Qed.

Section SameButIsActive.
Variables d1 d2 : Db.
Hypothesis Hsame : same_but_isActive d1 d2.

Lemma users_by_id_agree (i : Z) :
  option_map (map blank) (Sql.users_by_id d1 i)
  = option_map (map blank) (Sql.users_by_id d2 i).
Proof.
  destruct Hsame as (Hu & _). unfold Sql.users_by_id.
  pose proof (where_int_map blank u_id u_id i (users d1)
                (fun a => eq_refl)) as H1.
  pose proof (where_int_map blank u_id u_id i (users d2)
                (fun a => eq_refl)) as H2.
  rewrite Hu, H2 in H1.
  destruct (Sql.where_int u_id i (users d1)) as [l1|];
    destruct (Sql.where_int u_id i (users d2)) as [l2|];
    try discriminate H1; [|reflexivity].
  cbn [option_map] in *. injection H1 as H1.
  now rewrite <- !firstn_map, H1.
Qed.

Lemma user_ids_agree : map u_id (users d1) = map u_id (users d2).
Proof.
  destruct Hsame as (Hu & _).
  assert (H : forall l, map u_id l = map u_id (map blank l))
    by (intros l; rewrite map_map; reflexivity).
  now rewrite (H (users d1)), (H (users d2)), Hu.
Qed.

Lemma users_by_email_agree (e : string) :
  map blank (Sql.users_by_email d1 e) = map blank (Sql.users_by_email d2 e).
Proof.
  destruct Hsame as (Hu & _). unfold Sql.users_by_email.
  rewrite <- !firstn_map.
  rewrite !(map_filter_comm blank (fun u => String.eqb (u_email u) e)).
  now rewrite Hu.
Qed.

Lemma users_exist_agree (f : User -> bool) :
  existsb (fun u => f (blank u)) (users d1)
  = existsb (fun u => f (blank u)) (users d2).
Proof.
  destruct Hsame as (Hu & _).
  now rewrite !(existsb_map_comm blank f), Hu.
Qed.

Lemma left_join_agree :
  map blank_row (Sql.left_join d1) = map blank_row (Sql.left_join d2).
Proof.
  destruct Hsame as (Hu & Hp & _). unfold Sql.left_join. rewrite Hp.
  clear Hp. induction (posts d2) as [|p ps IH]; cbn [flat_map]; [reflexivity|].
  rewrite !map_app, IH. f_equal.
  assert (HF : map blank (filter (fun u => u_id u =? p_authorId p)
                                 (users d1))
               = map blank (filter (fun u => u_id u =? p_authorId p)
                                   (users d2))).
  { rewrite !(map_filter_comm blank (fun u => u_id u =? p_authorId p)).
    now rewrite Hu. }
  destruct (filter _ (users d1)) as [|u1 t1];
    destruct (filter _ (users d2)) as [|u2 t2];
    try discriminate HF; [reflexivity|].
  assert (Hrow : forall us,
             map blank_row (map (fun u => (p, Some u)) us)
             = map (fun u => (p, Some u)) (map blank us))
    by (intros us; now rewrite !map_map).
  now rewrite !Hrow, HF.
Qed.

Lemma all_rows_agree :
  map blank_row (PostController.all_rows d1)
  = map blank_row (PostController.all_rows d2).
Proof.
  unfold PostController.all_rows.
  rewrite !(order_desc_map blank_row (fun r => p_createdAt (fst r))
              (fun r => p_createdAt (fst r))) by reflexivity.
  now rewrite left_join_agree.
Qed.

Lemma auth_agree (w : World) (amb : Ambient) (req : Request) :
  auth w amb d1 req = auth w amb d2 req.
Proof.
  unfold auth, authenticateToken.
  destruct (bearer (authorization req)) as [token|]; [|reflexivity].
  destruct (jwt_verify w token _ _) as [userId|]; [|reflexivity].
  pose proof (users_by_id_agree userId) as H.
  destruct (Sql.users_by_id d1 userId) as [[|u1 t1]|];
    destruct (Sql.users_by_id d2 userId) as [[|u2 t2]|];
    try discriminate H; try reflexivity.
  assert (Hb : blank u1 = blank u2)
    by (cbn [option_map map] in H; congruence).
  destruct (blank_fields _ _ Hb) as (-> & -> & _ & -> & -> & _).
  reflexivity.
Qed.

End SameButIsActive.

Lemma agree_weaken (x1 x2 : Exchange) :
  agree x1 x2 -> agree_modulo_isActive x1 x2.
Proof.
  intros (Hr & Hi & Hd). unfold agree_modulo_isActive.
  rewrite Hr. auto.
Qed.

Section Handlers.
Import AuthController PostController.
Variables d1 d2 : Db.
Hypothesis Hsame : same_but_isActive d1 d2.
Variable w : World.
Variable amb : Ambient.

Lemma through_agree {A} (s : Stage) (st : Step A) (k1 k2 : A -> Exchange) :
  (forall a, agree (k1 a) (k2 a)) ->
  agree (through w d1 s st k1) (through w d2 s st k2).
Proof.
  intros Hk. destruct st as [a|r|e]; unfold agree; cbn; auto.
  destruct (Hk a) as (-> & -> & H). auto.
Qed.

Lemma through_agree_modulo {A} (s : Stage) (st : Step A)
      (k1 k2 : A -> Exchange) :
  (forall a, agree_modulo_isActive (k1 a) (k2 a)) ->
  agree_modulo_isActive (through w d1 s st k1) (through w d2 s st k2).
Proof.
  intros Hk. destruct st as [a|r|e]; unfold agree_modulo_isActive; cbn;
    auto.
  destruct (Hk a) as (-> & -> & H). auto.
Qed.

Lemma finish_agree (name : string) (o1 o2 : Db * Reply) :
  snd o1 = snd o2 -> same_but_isActive (fst o1) (fst o2) ->
  agree (finish name o1) (finish name o2).
Proof.
  destruct o1 as [a1 r1], o2 as [a2 r2]; cbn [fst snd]. intros -> H.
  destruct r2; unfold agree; cbn; auto.
Qed.

Lemma getAllPosts_agree (q : list (string * string)) :
  snd (getAllPosts d1 q) = snd (getAllPosts d2 q).
Proof.
  unfold getAllPosts, allPosts.
  pose proof (f_equal (Sql.limit_offset (limit_of q) (offset_of q))
                (all_rows_agree d1 d2 Hsame)) as H.
  rewrite !limit_offset_map in H.
  destruct (Sql.limit_offset _ _ (all_rows d1)) as [r1|];
    destruct (Sql.limit_offset _ _ (all_rows d2)) as [r2|];
    try discriminate H; [|reflexivity].
  cbn in H. injection H as H. cbn [snd].
  assert (Hj : forall rows,
             map joined_json rows = map joined_json (map blank_row rows)).
  { intros rows. rewrite map_map. apply map_ext. intros [p [u|]]; reflexivity. }
  rewrite (Hj r1), (Hj r2), H.
  now rewrite <- (length_map blank_row r1), <- (length_map blank_row r2), H.
Qed.

Lemma joined_by_id_agree (i : Z) :
  option_map (map blank_row) (joined_by_id d1 i)
  = option_map (map blank_row) (joined_by_id d2 i).
Proof.
  unfold joined_by_id.
  pose proof (where_int_map blank_row (fun r => p_id (fst r))
                (fun r => p_id (fst r)) i (Sql.left_join d1)
                (fun a => eq_refl)) as H1.
  pose proof (where_int_map blank_row (fun r => p_id (fst r))
                (fun r => p_id (fst r)) i (Sql.left_join d2)
                (fun a => eq_refl)) as H2.
  rewrite (left_join_agree d1 d2 Hsame), H2 in H1.
  destruct (Sql.where_int _ i (Sql.left_join d1)) as [l1|];
    destruct (Sql.where_int _ i (Sql.left_join d2)) as [l2|];
    try discriminate H1; [|reflexivity].
  cbn [option_map] in *. injection H1 as H1.
  now rewrite <- !firstn_map, H1.
Qed.

Lemma getPostById_agree (ps : list (string * string)) :
  snd (getPostById d1 ps) = snd (getPostById d2 ps).
Proof.
  unfold getPostById.
  destruct (int_param "id" ps) as [i|]; [|reflexivity].
  pose proof (joined_by_id_agree i) as H.
  destruct (joined_by_id d1 i) as [[|r1 t1]|];
    destruct (joined_by_id d2 i) as [[|r2 t2]|];
    try discriminate H; try reflexivity.
  assert (Hr : blank_row r1 = blank_row r2)
    by (cbn [option_map map] in H; congruence).
  assert (Hj : forall r, joined_json r = joined_json (blank_row r))
    by (intros [p [u|]]; reflexivity).
  cbn [snd]. now rewrite (Hj r1), (Hj r2), Hr.
Qed.

Lemma getPostsByUserId_agree (ps q : list (string * string)) :
  snd (getPostsByUserId d1 ps q) = snd (getPostsByUserId d2 ps q).
Proof.
  destruct Hsame as (_ & Hp & _).
  unfold getPostsByUserId, user_rows. rewrite Hp.
  split_matches; reflexivity.
Qed.

Lemma createPost_agree (user : AuthUser) (data : CreatePostData) :
  snd (createPost amb d1 user data) = snd (createPost amb d2 user data)
  /\ same_but_isActive (fst (createPost amb d1 user data))
                       (fst (createPost amb d2 user data)).
Proof.
  destruct Hsame as (Hu & Hp & Hus & Hps).
  assert (E : existsb (fun u => u_id u =? a_id user) (users d1)
              = existsb (fun u => u_id u =? a_id user) (users d2))
    by exact (users_exist_agree d1 d2 Hsame (fun u => u_id u =? a_id user)).
  unfold createPost, Sql.insert_post. rewrite Hp, Hps, E.
  destruct (_ || _ || _); cbn; (split; [reflexivity|]);
    unfold same_but_isActive; cbn; auto.
Qed.

Lemma updatePost_agree (ps : list (string * string)) (user : AuthUser)
      (body : json) :
  snd (updatePost w amb d1 ps user body)
  = snd (updatePost w amb d2 ps user body)
  /\ same_but_isActive (fst (updatePost w amb d1 ps user body))
                       (fst (updatePost w amb d2 ps user body)).
Proof.
  pose proof (user_ids_agree d1 d2 Hsame) as Hids.
  destruct Hsame as (Hu & Hp & Hus & Hps).
  unfold updatePost, set_and_return, update_posts, Sql.posts_by_id.
  rewrite Hp, Hps, Hids.
  destruct (int_param "id" ps) as [i|]; [|now split].
  destruct (Sql.where_int p_id i (posts d2)) as [[|existing rest]|];
    cbn [option_map firstn]; try (now split).
  destruct (negb _); [now split|].
  destruct (declared_update body) as [data|].
  - destruct (match up_title data with
              | Some t => Sql.fits 255 t
              | None => true
              end); [|now split].
    split; [reflexivity|]. unfold same_but_isActive; cbn; auto.
  - destruct (drizzle_set w _ _ _ _ _) as [[rows returned]|]; [|now split].
    split; [reflexivity|]. unfold same_but_isActive; cbn; auto.
Qed.

Lemma deletePost_agree (ps : list (string * string)) (user : AuthUser) :
  snd (deletePost d1 ps user) = snd (deletePost d2 ps user)
  /\ same_but_isActive (fst (deletePost d1 ps user))
                       (fst (deletePost d2 ps user)).
Proof.
  destruct Hsame as (Hu & Hp & Hus & Hps).
  unfold deletePost, Sql.delete_post, Sql.posts_by_id. rewrite Hp, Hps.
  split_matches; cbn; (split; [reflexivity|]);
    unfold same_but_isActive; cbn; auto.
Qed.

Lemma register_agree (data : RegisterData) :
  snd (register w amb d1 data) = snd (register w amb d2 data)
  /\ same_but_isActive (fst (register w amb d1 data))
                       (fst (register w amb d2 data)).
Proof.
  pose proof (f_equal (@List.length User)
                (users_by_email_agree d1 d2 Hsame (r_email data))) as Hl.
  rewrite !length_map in Hl.
  assert (E : forall i,
             existsb (fun u => (u_id u =? i)
                               || String.eqb (u_email u) (r_email data))
                     (users d1)
             = existsb (fun u => (u_id u =? i)
                                 || String.eqb (u_email u) (r_email data))
                       (users d2)).
  { intros i.
    exact (users_exist_agree d1 d2 Hsame
             (fun u => (u_id u =? i)
                       || String.eqb (u_email u) (r_email data))). }
  destruct Hsame as (Hu & Hp & Hus & Hps).
  unfold register, Sql.insert_user. rewrite Hl, Hus, E.
  destruct (0 <? _)%nat; [now split|].
  destruct (negb _ || existsb _ (users d2)); cbn; (split; [reflexivity|]);
    unfold same_but_isActive; cbn; rewrite ?map_app, ?Hu; auto.
Qed.

Lemma login_agree_modulo (data : LoginData) :
  agree_modulo_isActive (finish "login" (login w amb d1 data))
                        (finish "login" (login w amb d2 data)).
Proof.
  unfold login.
  pose proof (users_by_email_agree d1 d2 Hsame (l_email data)) as H.
  destruct (Sql.users_by_email d1 (l_email data)) as [|u1 t1];
    destruct (Sql.users_by_email d2 (l_email data)) as [|u2 t2];
    try discriminate H.
  - apply agree_weaken. unfold agree. cbn. auto.
  - assert (Hb : blank u1 = blank u2) by (cbn [map] in H; congruence).
    destruct (blank_fields _ _ Hb) as (Hi & He & Hpw & Hf & Hl & Hc & Hup).
    rewrite Hpw.
    destruct (bcrypt_compare w (l_password data) (u_password u2)).
    + unfold agree_modulo_isActive, userWithoutPassword. cbn.
      rewrite Hi, He, Hf, Hl, Hc, Hup. auto.
    + apply agree_weaken. unfold agree. cbn. auto.
Qed.

End Handlers.

(** C10, as stated, fails: deactivating the first user changes the answer
    to that user's login, whose body echoes the [isActive] column. *)
Lemma login_response_shows_isActive :
  same_but_isActive Demo.db Demo.db_inactive
  /\ option_map (fun r => jpath ["data"; "user"; "isActive"] (body r))
       (response (app Demo.dev Demo.amb Demo.db Demo.alice_login))
     = Some (Some (JBool true))
  /\ option_map (fun r => jpath ["data"; "user"; "isActive"] (body r))
       (response (app Demo.dev Demo.amb Demo.db_inactive Demo.alice_login))
     = Some (Some (JBool false))
  /\ response (app Demo.dev Demo.amb Demo.db Demo.alice_login)
     <> response (app Demo.dev Demo.amb Demo.db_inactive Demo.alice_login).
Proof.
  split; [repeat split|]. split; [reflexivity|]. split; [reflexivity|].
  vm_compute. intros H. discriminate H.
Qed.

(** C10 (amended): over two databases that differ only in [isActive]
    values, every request gets the same status, runs the same handlers,
    gets the same body up to [isActive] members, and leaves databases that
    again differ only in [isActive]; a request that is left unanswered in
    one is left unanswered in the other, with the same error; on every
    route other than login the two outcomes are identical.  No handler
    reads the flag to decide. *)
Theorem isActive_never_decides
        (w : World) (amb : Ambient) (d1 d2 : Db) (req : Request)
        (Hsame : same_but_isActive d1 d2) :
  let x1 := app w amb d1 req in
  let x2 := app w amb d2 req in
  option_map status (response x1) = option_map status (response x2)
  /\ option_map (fun r => scrub (body r)) (response x1)
     = option_map (fun r => scrub (body r)) (response x2)
  /\ invoked x1 = invoked x2
  /\ same_but_isActive (db_after x1) (db_after x2)
  /\ unhandled x1 = unhandled x2
  /\ (route_of req <> Login -> outcome x1 = outcome x2).
Proof.
  cbv zeta.
  assert (H : agree_modulo_isActive (app w amb d1 req) (app w amb d2 req)
              /\ (route_of req <> Login ->
                  agree (app w amb d1 req) (app w amb d2 req))).
  { unfold app.
    destruct (route_of req) eqn:R; cbn [chain];
      rewrite ?(auth_agree d1 d2 Hsame);
      try (assert (Hg : forall (P : Prop) x1 x2,
                      agree x1 x2 ->
                      agree_modulo_isActive x1 x2 /\ (P -> agree x1 x2))
             by (intros P x1 x2 Ha; split; [now apply agree_weaken | trivial]);
           apply Hg;
           repeat (apply through_agree; [exact Hsame | intros ?]);
           first [ apply finish_agree;
                   [ first [ reflexivity
                           | apply getAllPosts_agree
                           | apply getPostById_agree
                           | apply getPostsByUserId_agree
                           | apply createPost_agree
                           | apply updatePost_agree
                           | apply deletePost_agree
                           | apply register_agree ]; exact Hsame
                   | rewrite ?getAllPosts_frame, ?getPostById_frame,
                       ?getPostsByUserId_frame;
                     first [ exact Hsame
                           | apply createPost_agree
                           | apply updatePost_agree
                           | apply deletePost_agree
                           | apply register_agree ]; exact Hsame ]
                 | (unfold not_found, answer, agree; split_matches; cbn;
                    solve [auto]) ]).
    split; [|intros F; now contradiction F].
    apply through_agree_modulo; [exact Hsame|].
    intros data. now apply login_agree_modulo. }
  destruct H as ((Hb & Hi & Hd) & Hfull).
  assert (Hobs : forall o1 o2 : Outcome,
             blur o1 = blur o2 ->
             match o1, o2 with
             | Answered r1, Answered r2 =>
                 status r1 = status r2 /\ scrub (body r1) = scrub (body r2)
             | ExpressPage c1, ExpressPage c2 => c1 = c2
             | Unanswered e1, Unanswered e2 => e1 = e2
             | _, _ => False
             end).
  { intros [r1|c1|e1] [r2|c2|e2] Hq; cbn in Hq; try discriminate Hq;
      injection Hq; auto. }
  specialize (Hobs _ _ Hb). unfold agree in Hfull.
  unfold response, unhandled.
  destruct (outcome (app w amb d1 req)) as [r1|c1|e1];
    destruct (outcome (app w amb d2 req)) as [r2|c2|e2];
    try contradiction; cbn [option_map].
  - destruct Hobs as [Hs Hbody]. rewrite Hs, Hbody.
    split; [reflexivity|]. split; [reflexivity|]. split; [exact Hi|].
    split; [exact Hd|]. split; [reflexivity|].
    intros Hr. now destruct (Hfull Hr).
  - split; [reflexivity|]. split; [reflexivity|]. split; [exact Hi|].
    split; [exact Hd|]. split; [reflexivity|].
    intros Hr. now destruct (Hfull Hr).
  - subst. split; [reflexivity|]. split; [reflexivity|]. split; [exact Hi|].
    split; [exact Hd|]. split; reflexivity.
Qed.

Lemma isActive_never_decides_witness :
  same_but_isActive Demo.db Demo.db_inactive
  /\ option_map status
       (response (app Demo.dev Demo.amb Demo.db Demo.alice_login))
     = Some 200
  /\ option_map status
       (response (app Demo.dev Demo.amb Demo.db_inactive Demo.alice_login))
     = Some 200.
Proof.
  assert (Hs : same_but_isActive Demo.db Demo.db_inactive)
    by (repeat split).
  split; [exact Hs|].
  destruct (isActive_never_decides Demo.dev Demo.amb Demo.db Demo.db_inactive
              Demo.alice_login Hs) as (H & _).
  split; [reflexivity|]. rewrite <- H. reflexivity.
Defined.

(* ================================================================= *)
(** ** The Authorization header *)

Lemma split_no_space (s : string) :
  no_space s = true -> Js.split " " s = [s].
Proof.
  induction s as [|c t IH]; cbn [no_space Js.split]; [reflexivity|].
  intros H. apply andb_true_iff in H as [Hc Ht].
  apply negb_true_iff in Hc. rewrite Hc, (IH Ht). reflexivity.
Qed.

Lemma split_at_space (a b : string) :
  no_space a = true ->
  Js.split " " (a ++ String " " b) = a :: Js.split " " b.
Proof.
  induction a as [|c t IH]; cbn [no_space Js.split String.append].
  - intros _. reflexivity.
  - intros H. apply andb_true_iff in H as [Hc Ht].
    apply negb_true_iff in Hc. rewrite Hc, (IH Ht). reflexivity.
Qed.

Lemma split_not_nil (sep : ascii) (s : string) : Js.split sep s <> [].
Proof.
  destruct s as [|c t]; cbn; [discriminate|].
  destruct (Ascii.eqb c sep); [discriminate|].
  destruct (Js.split sep t); discriminate.
Qed.

(** Joining the pieces of [s.split(sep)] with the separator gives [s]
    back, and no piece contains the separator's space. *)
Theorem split_join_round_trip (sep : ascii) (s : string) :
  join sep (Js.split sep s) = s
  /\ Js.split sep s <> []
  /\ (sep = " "%char -> Forall (fun p => no_space p = true) (Js.split sep s)).
Proof.
  split; [|split; [apply split_not_nil|]].
  - induction s as [|c t IH]; cbn [Js.split]; [reflexivity|].
    pose proof (split_not_nil sep t) as Hn.
    destruct (Js.split sep t) as [|h r] eqn:E; [contradiction|].
    destruct (Ascii.eqb_spec c sep) as [->|Hne].
    + change (join sep (EmptyString :: h :: r))
        with (String sep (join sep (h :: r))).
      now rewrite IH.
    + replace (join sep (String c h :: r))
        with (String c (join sep (h :: r)))
        by (destruct r; reflexivity).
      now rewrite IH.
  - intros ->. induction s as [|c t IH]; cbn [Js.split].
    + repeat constructor.
    + destruct (Ascii.eqb_spec c " "%char) as [->|Hne].
      * constructor; [reflexivity | exact IH].
      * destruct (Js.split " " t) as [|h r]; [repeat constructor|].
        -- cbn. apply Ascii.eqb_neq in Hne. now rewrite Hne.
        -- inversion IH as [|? ? Hh Hr]; subst. constructor; [|exact Hr].
           cbn. apply Ascii.eqb_neq in Hne. now rewrite Hne, Hh.
Qed.

(** X1: [authenticateToken] takes the second space-separated word of the
    header as the token whatever the first word is, and takes a header of
    a single word (a bare token, or a scheme alone) as no token: 401. *)
Theorem bearer_is_second_word (scheme token rest : string)
        (Hs : no_space scheme = true) (Ht : no_space token = true)
        (Hne : token <> EmptyString) :
  bearer (Some (scheme ++ String " " token)) = Some token
  /\ bearer (Some (scheme ++ String " " (token ++ String " " rest)))
     = Some token
  /\ bearer (Some token) = None
  /\ (forall w d amb,
         authenticateToken w d amb (Some token)
         = Halt {| status := 401;
                   body := fail_json "Access token required" |}).
Proof.
  assert (H1 : bearer (Some (scheme ++ String " " token)) = Some token).
  { unfold bearer. rewrite (split_at_space _ _ Hs), (split_no_space _ Ht).
    destruct scheme; cbn; destruct token; congruence. }
  assert (H2 : bearer (Some (scheme ++ String " " (token ++ String " " rest)))
               = Some token).
  { unfold bearer.
    rewrite (split_at_space _ _ Hs), (split_at_space _ _ Ht).
    destruct scheme; cbn; destruct token; congruence. }
  assert (H3 : bearer (Some token) = None).
  { unfold bearer. rewrite (split_no_space _ Ht).
    destruct token; [congruence | reflexivity]. }
  repeat split; trivial.
  intros w d amb. unfold authenticateToken. now rewrite H3.
Qed.

Lemma bearer_is_second_word_witness :
  bearer (Some "Basic t1") = Some "t1"
  /\ bearer (Some "t1") = None.
Proof.
  destruct (bearer_is_second_word "Basic" "t1" "" eq_refl eq_refl
              ltac:(discriminate)) as (H1 & _ & H3 & _).
  split; [exact H1 | exact H3].
Defined.

(* ================================================================= *)
(** ** Sessions: register, login, token, profile *)

Lemma first_of_unique_string {A} (key : A -> string) (l : list A) (x : A) :
  NoDup (map key l) -> In x l ->
  firstn 1 (filter (fun y => String.eqb (key y) (key x)) l) = [x].
Proof.
  induction l as [|a l IH]; intros Hnd Hin; [contradiction|].
  cbn [map] in Hnd. inversion Hnd as [|? ? Hnotin Hnd']; subst.
  cbn [filter].
  destruct Hin as [-> | Hin].
  - rewrite String.eqb_refl. reflexivity.
  - destruct (String.eqb_spec (key a) (key x)) as [E|E].
    + exfalso. apply Hnotin. rewrite E. now apply in_map.
    + now apply IH.
Qed.

Lemma filter_nil {A} (f : A -> bool) (l : list A) :
  (forall x, In x l -> f x = false) -> filter f l = [].
Proof.
  induction l as [|a l IH]; intros H; cbn; [reflexivity|].
  rewrite (H a) by now left. apply IH. intros x Hx. apply H. now right.
Qed.

Lemma users_by_id_absent (d : Db) (i : Z) :
  (forall u, In u (users d) -> u_id u <> i) ->
  Sql.users_by_id d i = if Sql.in_int4 i then Some [] else None.
Proof.
  intros H. unfold Sql.users_by_id, Sql.where_int.
  rewrite filter_nil.
  - destruct (Sql.in_int4 i); reflexivity.
  - intros u Hu. apply Z.eqb_neq. now apply H.
Qed.

(** X2: on a protected route, a token that verifies but names a user id
    with no row (a user removed from the table) is answered 401 "Invalid
    token" when the id fits the integer column, and 403 "Invalid or
    expired token" when it does not, because the lookup then throws inside
    the same try block as the verification; no controller runs and the
    database is as before. *)
Theorem protected_route_unknown_user
        (w : World) (amb : Ambient) (d : Db) (req : Request)
        (token : string) (userId : Z)
        (Hp : protected (route_of req) = true)
        (Hb : bearer (authorization req) = Some token)
        (Hv : jwt_verify w token (CONFIG.JWT_SECRET w) (now amb)
              = Some userId)
        (Hgone : forall u, In u (users d) -> u_id u <> userId) :
  app w amb d req
  = {| db_after := d;
       outcome :=
         Answered
           (if Sql.in_int4 userId
            then {| status := 401; body := fail_json "Invalid token" |}
            else {| status := 403;
                    body := fail_json "Invalid or expired token" |});
       invoked := [AuthenticateToken] |}.
Proof.
  unfold app.
  apply (protected_chain_starts_with_auth w amb d req _ Hp).
  unfold auth, authenticateToken.
  rewrite Hb, Hv, (users_by_id_absent d userId Hgone).
  destruct (Sql.in_int4 userId); reflexivity.
Qed.

Lemma protected_route_unknown_user_witness :
  option_map status
    (response (app Demo.dev Demo.amb Demo.db_without_alice
                 (Demo.request GET ["api"; "auth"; "me"]
                    (Some "Bearer t1") [] JNull))) = Some 401.
Proof.
  rewrite (protected_route_unknown_user Demo.dev Demo.amb
             Demo.db_without_alice
             (Demo.request GET ["api"; "auth"; "me"] (Some "Bearer t1") []
                JNull) "t1" 1 eq_refl eq_refl eq_refl).
  - reflexivity.
  - intros u [<- | []]. cbn. discriminate.
Defined.

(** X3: GET /api/auth/me with a token that verifies to the id of a stored
    user answers 200 with exactly that row's id, email, firstName and
    lastName (neither the password hash nor isActive), and changes
    nothing. *)
Theorem me_returns_own_profile
        (w : World) (amb : Ambient) (d : Db) (req : Request)
        (token : string) (u : User)
        (Hr : route_of req = Me)
        (Hb : bearer (authorization req) = Some token)
        (Hv : jwt_verify w token (CONFIG.JWT_SECRET w) (now amb)
              = Some (u_id u))
        (Hpk : users_pk d) (Hin : In u (users d)) :
  app w amb d req
  = {| db_after := d;
       outcome :=
         Answered
           (ok (JObj [("success", JBool true);
                      ("data",
                       JObj [("user",
                              JObj [("id", JNum (u_id u));
                                    ("email", JStr (u_email u));
                                    ("firstName", JStr (u_firstName u));
                                    ("lastName", JStr (u_lastName u))])])]));
       invoked := [AuthenticateToken; Controller "getProfile"] |}.
Proof.
  unfold app. rewrite Hr. cbn [chain]. unfold auth, authenticateToken.
  rewrite Hb, Hv, (users_by_id_stored d u Hpk Hin). reflexivity.
Qed.

Lemma me_returns_own_profile_witness :
  option_map (fun r => jpath ["data"; "user"; "email"] (body r))
    (response (app Demo.dev Demo.amb Demo.db
                 (Demo.request GET ["api"; "auth"; "me"]
                    (Some "Bearer t2") [] JNull)))
  = Some (Some (JStr "b@x.io")).
Proof.
  assert (Hpk : users_pk Demo.db).
  { unfold users_pk. cbn.
    repeat (constructor; [cbn; intuition discriminate|]). constructor. }
  rewrite (me_returns_own_profile Demo.dev Demo.amb Demo.db
             (Demo.request GET ["api"; "auth"; "me"] (Some "Bearer t2") []
                JNull) "t2" Demo.bob eq_refl eq_refl eq_refl Hpk).
  - reflexivity.
  - right. left. reflexivity.
Defined.

(** X4: a login with the e-mail of a stored user and a password that
    [bcrypt.compare] accepts against the stored hash answers 200 with a
    token signed for that user's id and the stored row without its
    password member; the database is unchanged. *)
Theorem login_success
        (w : World) (amb : Ambient) (d : Db)
        (data : AuthController.LoginData) (u : User)
        (Hmails : NoDup (map u_email (users d)))
        (Hin : In u (users d))
        (Hmail : u_email u = AuthController.l_email data)
        (Hpw : bcrypt_compare w (AuthController.l_password data)
                 (u_password u) = true) :
  exists r,
    AuthController.login w amb d data = (d, Sent r)
    /\ status r = 200
    /\ jpath ["data"; "token"] (body r)
       = Some (JStr (jwt_sign w (u_id u) (CONFIG.JWT_SECRET w)
                       (CONFIG.JWT_EXPIRES_IN w) (now amb)))
    /\ jpath ["data"; "user"] (body r)
       = Some (AuthController.userWithoutPassword u)
    /\ keys (AuthController.userWithoutPassword u)
       = ["id"; "email"; "firstName"; "lastName"; "isActive"; "createdAt";
          "updatedAt"]
    /\ jpath ["data"; "user"; "password"] (body r) = None.
Proof.
  unfold AuthController.login, Sql.users_by_email.
  rewrite <- Hmail, (first_of_unique_string u_email _ u Hmails Hin), Hpw.
  eexists. repeat split.
Qed.

Lemma login_success_witness :
  exists r,
    AuthController.login Demo.dev Demo.amb Demo.db Demo.alice_ok
    = (Demo.db, Sent r)
    /\ jpath ["data"; "token"] (body r) = Some (JStr "t1").
Proof.
  assert (Hm : NoDup (map u_email (users Demo.db))).
  { cbn. repeat (constructor; [cbn; intuition discriminate|]). constructor. }
  destruct (login_success Demo.dev Demo.amb Demo.db Demo.alice_ok Demo.alice
              Hm ltac:(left; reflexivity) eq_refl eq_refl)
    as (r & H1 & _ & H2 & _).
  exists r. split; [exact H1 | exact H2].
Defined.

Lemma firstn_1_nil {A} (l : list A) : firstn 1 l = [] -> l = [].
Proof. destruct l; [reflexivity | discriminate]. Qed.

Lemma register_outcome
      (w : World) (amb : Ambient) (d : Db)
      (data : AuthController.RegisterData) (d' : Db) (r : Response) :
  AuthController.register w amb d data = (d', Sent r) ->
  filter (fun u => String.eqb (u_email u) (AuthController.r_email data))
         (users d) = []
  /\ d' = set_users d (users d ++ [new_user w amb d data])
            (users_id_seq d + 1)
  /\ r = {| status := 201;
            body := JObj
              [("success", JBool true);
               ("message", JStr "User registered successfully");
               ("data",
                JObj [("user",
                       AuthController.returned_user (new_user w amb d data));
                      ("token",
                       JStr (jwt_sign w (users_id_seq d + 1)
                               (CONFIG.JWT_SECRET w)
                               (CONFIG.JWT_EXPIRES_IN w) (now amb)))])] |}.
Proof.
  unfold AuthController.register, Sql.users_by_email, Sql.insert_user.
  destruct (firstn 1 _) as [|x t] eqn:E; cbn [List.length Nat.ltb Nat.leb];
    [|discriminate].
  apply firstn_1_nil in E.
  destruct (negb _ || existsb _ (users d)); [discriminate|].
  intros H. injection H as <- <-. repeat split. exact E.
Qed.



(** X6: after a successful registration, a login with the same e-mail and
    password succeeds on the resulting database whenever [bcrypt.compare]
    accepts a password against its own hash: 200, with a token signed for
    the id the registration returned. *)
Theorem register_then_login
        (w : World) (amb amb' : Ambient) (d d' : Db)
        (data : AuthController.RegisterData) (r : Response)
        (Hreg : AuthController.register w amb d data = (d', Sent r))
        (Hbcrypt : bcrypt_compare w (AuthController.r_password data)
                     (bcrypt_hash w (AuthController.r_password data) 12
                        (salt amb)) = true) :
  exists r',
    AuthController.login w amb' d'
      {| AuthController.l_email := AuthController.r_email data;
         AuthController.l_password := AuthController.r_password data |}
    = (d', Sent r')
    /\ status r' = 200
    /\ jpath ["data"; "user"; "id"] (body r')
       = jpath ["data"; "user"; "id"] (body r)
    /\ jpath ["data"; "token"] (body r')
       = Some (JStr (jwt_sign w (users_id_seq d + 1) (CONFIG.JWT_SECRET w)
                       (CONFIG.JWT_EXPIRES_IN w) (now amb'))).
Proof.
  destruct (register_outcome w amb d data d' r Hreg) as (Hnil & -> & ->).
  unfold AuthController.login, Sql.users_by_email.
  cbn [users set_users AuthController.l_email AuthController.l_password].
  rewrite filter_app, Hnil. unfold new_user. cbn [filter List.app u_email].
  rewrite String.eqb_refl. cbn [firstn u_password]. rewrite Hbcrypt.
  eexists. repeat split.
Qed.

Lemma register_then_login_witness :
  exists d' r',
    AuthController.login Demo.dev Demo.amb d' Demo.carol_login = (d', Sent r')
    /\ status r' = 200
    /\ jpath ["data"; "user"; "id"] (body r') = Some (JNum 3).
Proof.
  destruct (register_then_login Demo.dev Demo.amb Demo.amb Demo.db _
              Demo.carol _ eq_refl eq_refl) as (r' & H1 & H2 & H3 & _).
  eexists; exists r'. split; [exact H1|]. split; [exact H2 | exact H3].
Defined.

(** X7: after a successful registration, any further registration with the
    same e-mail makes [register] throw the 400 error "User with this email
    already exists" and leaves the database as the first one left it. *)
Theorem register_twice_throws
        (w : World) (amb amb' : Ambient) (d d' : Db)
        (data data' : AuthController.RegisterData) (r : Response)
        (Hreg : AuthController.register w amb d data = (d', Sent r))
        (Hmail : AuthController.r_email data' = AuthController.r_email data) :
  exists e,
    AuthController.register w amb' d' data' = (d', Thrown e)
    /\ statusCode e = Some 400
    /\ message e = "User with this email already exists".
Proof.
  destruct (register_outcome w amb d data d' r Hreg) as (_ & -> & _).
  rewrite (register_duplicate w amb' _ data' (new_user w amb d data)).
  - eexists. repeat split.
  - cbn [users set_users]. apply in_or_app. right. now left.
  - now rewrite Hmail.
Qed.

Lemma register_twice_throws_witness :
  exists d' r e,
    AuthController.register Demo.dev Demo.amb Demo.db Demo.carol
    = (d', Sent r)
    /\ AuthController.register Demo.dev Demo.amb d' Demo.carol
       = (d', Thrown e)
    /\ statusCode e = Some 400.
Proof.
  destruct (register_twice_throws Demo.dev Demo.amb Demo.amb Demo.db _
              Demo.carol Demo.carol _ eq_refl eq_refl) as (e & H1 & H2 & _).
  eexists; eexists; exists e.
  split; [reflexivity|]. split; [exact H1 | exact H2].
Defined.

Lemma bearer_after_scheme (scheme token : string) :
  no_space scheme = true -> no_space token = true -> token <> EmptyString ->
  bearer (Some (scheme ++ String " " token)) = Some token.
Proof.
  intros Hs Ht Hne. unfold bearer.
  rewrite (split_at_space _ _ Hs), (split_no_space _ Ht).
  destruct scheme; cbn; destruct token; congruence.
Qed.

(** X8: the token a successful registration returns, sent back as
    "Bearer <token>", passes [authenticateToken] on the resulting database
    as the new user, provided [jwt.verify] accepts what [jwt.sign] issued
    and the token is a non-empty string without spaces. *)
Theorem registered_token_authenticates
        (w : World) (amb amb' : Ambient) (d d' : Db)
        (data : AuthController.RegisterData) (r : Response) (token : string)
        (Hc : consistent d)
        (Hreg : AuthController.register w amb d data = (d', Sent r))
        (Htok : jpath ["data"; "token"] (body r) = Some (JStr token))
        (Hjwt : jwt_verify w token (CONFIG.JWT_SECRET w) (now amb')
                = Some (users_id_seq d + 1))
        (Hns : no_space token = true) (Hne : token <> EmptyString) :
  authenticateToken w d' amb' (Some ("Bearer " ++ token)%string)
  = Pass {| a_id := users_id_seq d + 1;
            a_email := AuthController.r_email data;
            a_firstName := AuthController.r_firstName data;
            a_lastName := AuthController.r_lastName data |}.
Proof.
  destruct (register_outcome w amb d data d' r Hreg) as (_ & -> & _).
  pose proof (bearer_after_scheme "Bearer" token eq_refl Hns Hne) as Hb.
  unfold authenticateToken. cbn [String.append] in Hb |- *.
  rewrite Hb, Hjwt.
  unfold Sql.users_by_id. cbn [users set_users].
  rewrite (where_int_found u_id (users_id_seq d + 1)
             (users d ++ [new_user w amb d data]) (new_user w amb d data))
    by (try reflexivity; apply in_or_app; right; now left).
  rewrite filter_app, filter_nil.
  - unfold new_user. cbn [filter List.app u_id]. rewrite Z.eqb_refl. reflexivity.
  - intros u Hu. pose proof (users_numbered d Hc) as Hn.
    rewrite Forall_forall in Hn. specialize (Hn u Hu).
    apply Z.eqb_neq. lia.
Qed.

Lemma registered_token_authenticates_witness :
  exists d',
    fst (AuthController.register Demo.dev Demo.amb
           empty_db Demo.carol) = d'
    /\ authenticateToken Demo.dev d' Demo.amb (Some "Bearer t1")
       = Pass {| a_id := 1; a_email := "c@x.io"; a_firstName := "Carol";
                 a_lastName := "C" |}.
Proof.
  assert (Hc : consistent empty_db) by (split; cbn; constructor).
  eexists. split; [reflexivity|].
  exact (registered_token_authenticates Demo.dev Demo.amb Demo.amb empty_db _
           Demo.carol _ "t1" Hc eq_refl eq_refl eq_refl eq_refl
           ltac:(discriminate)).
Defined.

(* ================================================================= *)
(** ** The integrity constraints are kept *)

Lemma NoDup_snoc {A} (l : list A) (x : A) :
  NoDup l -> ~ In x l -> NoDup (l ++ [x]).
Proof.
  intros Hl Hx. apply (Permutation_NoDup (l := x :: l)).
  - apply Permutation_cons_append.
  - now constructor.
Qed.

Lemma NoDup_map_filter {A B} (f : A -> B) (g : A -> bool) (l : list A) :
  NoDup (map f l) -> NoDup (map f (filter g l)).
Proof.
  induction l as [|a l IH]; cbn; intros H; [constructor|].
  inversion H as [|? ? Hn Hd]; subst.
  destruct (g a); cbn; [|now apply IH].
  constructor; [|now apply IH].
  intros Hin. apply Hn. apply in_map_iff in Hin as (y & Hy & Hf).
  apply filter_In in Hf as [Hf _]. apply in_map_iff. now exists y.
Qed.

Lemma Forall_filter_keep {A} (P : A -> Prop) (g : A -> bool) (l : list A) :
  Forall P l -> Forall P (filter g l).
Proof.
  rewrite !Forall_forall. intros H x Hx.
  apply filter_In in Hx as [Hx _]. now apply H.
Qed.

Lemma existsb_false_forall {A} (f : A -> bool) (l : list A) :
  existsb f l = false -> forall x, In x l -> f x = false.
Proof.
  intros H x Hx. destruct (f x) eqn:E; [|reflexivity].
  assert (existsb f l = true) by (apply existsb_exists; eauto).
  congruence.
Qed.

Lemma empty_db_consistent : consistent empty_db.
Proof. split; cbn; constructor. Qed.

Lemma insert_user_consistent (d : Db) (t : Z) (e p f l : string) :
  consistent d -> consistent (fst (Sql.insert_user d t e p f l)).
Proof.
  intros [Hk He Hp Hun Hpn Ha]. unfold Sql.insert_user.
  destruct (negb _ || existsb _ (users d)) eqn:E0; cbn [fst];
    [|apply orb_false_iff in E0 as [_ E]]; split; cbn; trivial.
  - eapply Forall_impl; [|exact Hun]. cbn. intros; lia.
  - rewrite map_app. apply NoDup_snoc; [exact Hk|]. cbn.
    intros Hin. apply in_map_iff in Hin as (u & Hu & Hin).
    pose proof (existsb_false_forall _ _ E u Hin) as F. cbn in F.
    apply orb_false_iff in F as [F _]. apply Z.eqb_neq in F. congruence.
  - rewrite map_app. apply NoDup_snoc; [exact He|]. cbn.
    intros Hin. apply in_map_iff in Hin as (u & Hu & Hin).
    pose proof (existsb_false_forall _ _ E u Hin) as F. cbn in F.
    apply orb_false_iff in F as [_ F]. apply String.eqb_neq in F. congruence.
  - apply Forall_app. split.
    + eapply Forall_impl; [|exact Hun]. cbn. intros; lia.
    + repeat constructor. cbn. lia.
  - eapply Forall_impl; [|exact Ha]. cbn. intros q Hq.
    rewrite existsb_app, Hq. reflexivity.
Qed.

Lemma insert_post_consistent (d : Db) (t : Z) (title : string)
      (content : option string) (isPublished : bool) (authorId : Z) :
  consistent d ->
  consistent (fst (Sql.insert_post d t title content isPublished authorId)).
Proof.
  intros [Hk He Hp Hun Hpn Ha]. unfold Sql.insert_post.
  destruct (negb (Sql.fits 255 title)); cbn [orb fst];
    [split; cbn; trivial; eapply Forall_impl; [|exact Hpn]; cbn; intros; lia|].
  destruct (existsb _ (posts d)) eqn:E1; cbn [orb fst].
  - split; cbn; trivial. eapply Forall_impl; [|exact Hpn]. cbn. intros; lia.
  - destruct (existsb _ (users d)) eqn:E2; cbn [negb fst]; split; cbn; trivial.
    + rewrite map_app. apply NoDup_snoc; [exact Hp|]. cbn.
      intros Hin. apply in_map_iff in Hin as (q & Hq & Hin).
      pose proof (existsb_false_forall _ _ E1 q Hin) as F. cbn in F.
      apply Z.eqb_neq in F. congruence.
    + apply Forall_app. split.
      * eapply Forall_impl; [|exact Hpn]. cbn. intros; lia.
      * repeat constructor. cbn. lia.
    + apply Forall_app. split; [exact Ha|]. repeat constructor. exact E2.
    + eapply Forall_impl; [|exact Hpn]. cbn. intros; lia.
Qed.

Lemma update_posts_consistent (d : Db) (i t : Z)
      (u : PostController.UpdatePostData) :
  consistent d ->
  consistent (fst (PostController.update_posts d i
                     (PostController.apply_update t u))).
Proof.
  intros [Hk He Hp Hun Hpn Ha]. unfold PostController.update_posts.
  cbn [fst]. split; cbn; trivial.
  - rewrite map_map.
    erewrite map_ext; [exact Hp|].
    intros q. cbn. now destruct (p_id q =? i).
  - apply Forall_map. eapply Forall_impl; [|exact Hpn].
    intros q Hq. cbn in *. now destruct (p_id q =? i).
  - apply Forall_map. eapply Forall_impl; [|exact Ha].
    intros q Hq. cbn in *. now destruct (p_id q =? i).
Qed.

Lemma delete_post_consistent (d : Db) (i : Z) :
  consistent d -> consistent (Sql.delete_post d i).
Proof.
  intros [Hk He Hp Hun Hpn Ha]. unfold Sql.delete_post.
  split; cbn; trivial.
  - now apply NoDup_map_filter.
  - now apply Forall_filter_keep.
  - now apply Forall_filter_keep.
Qed.

Lemma controllers_keep_consistency (w : World) (amb : Ambient) (d : Db) :
  consistent d ->
  (forall data, consistent (fst (AuthController.register w amb d data)))
  /\ (forall user data,
        consistent (fst (PostController.createPost amb d user data)))
  /\ (forall ps user body,
        PostController.declared_update body <> None ->
        consistent (fst (PostController.updatePost w amb d ps user body)))
  /\ (forall ps user,
        consistent (fst (PostController.deletePost d ps user))).
Proof.
  intros Hc. split; [|split; [|split]].
  - intros data. unfold AuthController.register.
    destruct (0 <? List.length _)%nat; [exact Hc|].
    pose proof (insert_user_consistent d (now amb)
                  (AuthController.r_email data)
                  (bcrypt_hash w (AuthController.r_password data) 12
                     (salt amb))
                  (AuthController.r_firstName data)
                  (AuthController.r_lastName data) Hc) as H.
    destruct (Sql.insert_user _ _ _ _ _ _) as [d' [row|]]; exact H.
  - intros user data. unfold PostController.createPost.
    pose proof (insert_post_consistent d (now amb)
                  (PostController.c_title data)
                  (PostController.c_content data)
                  match PostController.c_isPublished data with
                  | Some true => true
                  | _ => false
                  end (a_id user) Hc) as H.
    destruct (Sql.insert_post _ _ _ _ _ _) as [d' [row|]]; exact H.
  - intros ps user body Hdecl.
    unfold PostController.updatePost, PostController.set_and_return.
    destruct (int_param "id" ps) as [i|]; [|exact Hc].
    destruct (Sql.posts_by_id d i) as [[|q rest]|]; try exact Hc.
    destruct (negb _); [exact Hc|].
    destruct (PostController.declared_update body) as [data|];
      [|congruence].
    destruct (match PostController.up_title data with
              | Some t => Sql.fits 255 t
              | None => true
              end); [|exact Hc].
    pose proof (update_posts_consistent d i (now amb) data Hc) as H.
    destruct (PostController.update_posts _ _ _) as [d' rows]. exact H.
  - intros ps user. unfold PostController.deletePost.
    destruct (int_param "id" ps) as [i|]; [|exact Hc].
    destruct (Sql.posts_by_id d i) as [[|q rest]|]; try exact Hc.
    destruct (negb _); [exact Hc|].
    now apply delete_post_consistent.
Qed.

Lemma app_keeps_consistency (w : World) (amb : Ambient) (d : Db)
      (req : Request) :
  declared req = true ->
  consistent d -> consistent (db_after (app w amb d req)).
Proof.
  intros Hdecl Hc.
  destruct (controllers_keep_consistency w amb d Hc) as (Hr & Hcr & Hu & Hd).
  assert (Hu' : route_of req = route_of req ->
                forall id, route_of req = UpdatePost id ->
                forall ps user,
                  consistent (fst (PostController.updatePost w amb d ps user
                                     (reqBody req)))).
  { intros _ id Hroute ps user. apply Hu. unfold declared in Hdecl.
    rewrite Hroute in Hdecl.
    destruct (PostController.declared_update (reqBody req));
      [discriminate | discriminate Hdecl]. }
  specialize (Hu' eq_refl). clear Hu Hdecl.
  unfold app.
  destruct (route_of req) eqn:Hroute; cbn [chain];
    try specialize (Hu' _ eq_refl);
    repeat (apply through_db; [exact Hc | intros ?]);
    try rewrite finish_db;
    first [ exact Hc
          | now rewrite login_frame
          | now rewrite getAllPosts_frame
          | now rewrite getPostById_frame
          | now rewrite getPostsByUserId_frame
          | apply Hr | apply Hcr | apply Hu' | apply Hd
          | (unfold not_found, answer; split_matches; exact Hc) ].
Qed.

(** X9: the integrity constraints of the schema are an invariant of the
    application: unique ids and e-mails, ids handed out by the sequences,
    and every post's authorId naming a stored user hold after any request
    if they held before, hence after any sequence of requests served from
    an empty database.  The requests are those whose effect the sources
    decide: an update whose body has members beyond title, content and
    isPublished is left out. *)
Theorem consistency_is_invariant (w : World) :
  (forall amb d req,
      declared req = true ->
      consistent d -> consistent (db_after (app w amb d req)))
  /\ (forall reqs,
        Forall (fun ar => declared (snd ar) = true) reqs ->
        consistent (serve_all w empty_db reqs)).
Proof.
  split; [intros; now apply app_keeps_consistency|].
  assert (H : forall reqs d,
             Forall (fun ar => declared (snd ar) = true) reqs ->
             consistent d -> consistent (serve_all w d reqs)).
  { induction reqs as [|[amb req] rest IH]; intros d Hall Hd; cbn;
      [exact Hd|].
    inversion Hall as [|? ? Hreq Hrest]; subst.
    apply IH; [exact Hrest|]. now apply app_keeps_consistency. }
  intros reqs Hall. now apply H; [|apply empty_db_consistent].
Qed.

Lemma demo_db_consistent : consistent Demo.db.
Proof.
  split; cbn.
  - repeat (constructor; [cbn; intuition discriminate|]). constructor.
  - repeat (constructor; [cbn; intuition discriminate|]). constructor.
  - repeat (constructor; [cbn; intuition discriminate|]). constructor.
  - repeat constructor; cbn; lia.
  - repeat constructor; cbn; lia.
  - repeat constructor.
Qed.

Lemma consistency_is_invariant_witness :
  consistent Demo.db
  /\ consistent (db_after (app Demo.dev Demo.amb Demo.db
                             (Demo.request DELETE ["api"; "posts"; "3"]
                                (Some "Bearer t1") [] JNull))).
Proof.
  split; [exact demo_db_consistent|].
  destruct (consistency_is_invariant Demo.dev) as [H _].
  apply H; [reflexivity | exact demo_db_consistent].
Defined.

(* ================================================================= *)
(** ** Creating, changing and removing posts *)

Lemma first_match_in {A} (f : A -> bool) (l : list A) (x : A) (t : list A) :
  firstn 1 (filter f l) = x :: t -> In x l /\ f x = true.
Proof.
  intros H. apply filter_In.
  destruct (filter f l) as [|y r]; [discriminate|].
  cbn in H. injection H as -> _. now left.
Qed.



Lemma joined_by_id_absent (d : Db) (i : Z) :
  (forall q, In q (posts d) -> p_id q <> i) ->
  PostController.joined_by_id d i
  = if Sql.in_int4 i then Some [] else None.
Proof.
  intros Hno. unfold PostController.joined_by_id, Sql.where_int.
  rewrite filter_nil.
  - destruct (Sql.in_int4 i); reflexivity.
  - intros r Hr. apply Z.eqb_neq. apply Hno. now apply left_join_post.
Qed.

Lemma posts_by_id_absent (d : Db) (i : Z) :
  (forall q, In q (posts d) -> p_id q <> i) ->
  Sql.posts_by_id d i = if Sql.in_int4 i then Some [] else None.
Proof.
  intros H. unfold Sql.posts_by_id, Sql.where_int. rewrite filter_nil.
  - destruct (Sql.in_int4 i); reflexivity.
  - intros q Hq. apply Z.eqb_neq. now apply H.
Qed.

(** X10: reading, updating or deleting a post id that no stored post has
    makes all three handlers throw, whoever the caller is, and leaves the
    database as it was: the 404 error "Post not found" when the id fits
    the integer column, and the driver's error, which has no status, when
    it does not.  The throw is inside the async handler, so GET
    /api/posts/:id for such an id is not answered. *)
Theorem absent_post_throws
        (w : World) (amb : Ambient) (d : Db)
        (params : list (string * string)) (i : Z)
        (Hid : int_param "id" params = Some i)
        (Habsent : forall q, In q (posts d) -> p_id q <> i) :
  let thrown (site : string) :=
    if Sql.in_int4 i then createError "Post not found" 404 site
    else int4_error in
  PostController.getPostById d params
  = (d, Thrown (thrown
                  "PostController.getPostById (src/config/index.ts:139)"))
  /\ (forall user body,
         PostController.updatePost w amb d params user body
         = (d, Thrown (thrown
                  "PostController.updatePost (src/config/index.ts:251)")))
  /\ (forall user,
         PostController.deletePost d params user
         = (d, Thrown (thrown
                  "PostController.deletePost (src/config/index.ts:313)")))
  /\ (forall site, statusCode (thrown site)
                   = if Sql.in_int4 i then Some 404 else None)
  /\ (forall req id,
         route_of req = PostById id -> params = [("id", id)] ->
         Js.digits_only id = true ->
         response (app w amb d req) = None
         /\ db_after (app w amb d req) = d).
Proof.
  cbv zeta.
  assert (Hget : PostController.getPostById d params
                 = (d, Thrown
                         (if Sql.in_int4 i
                          then createError "Post not found" 404
                                 "PostController.getPostById (src/config/index.ts:139)"
                          else int4_error))).
  { unfold PostController.getPostById.
    rewrite Hid, (joined_by_id_absent d i Habsent).
    destruct (Sql.in_int4 i); reflexivity. }
  split; [exact Hget|]. split; [|split; [|split]].
  - intros user body. unfold PostController.updatePost.
    rewrite Hid, (posts_by_id_absent d i Habsent).
    destruct (Sql.in_int4 i); reflexivity.
  - intros user. unfold PostController.deletePost.
    rewrite Hid, (posts_by_id_absent d i Habsent).
    destruct (Sql.in_int4 i); reflexivity.
  - intros site. destruct (Sql.in_int4 i); reflexivity.
  - intros req id Hroute -> Hdig.
    unfold app. rewrite Hroute. cbn [chain].
    rewrite (validate_id id Hdig). cbn [through]. rewrite Hget.
    split; reflexivity.
Qed.

Lemma absent_post_throws_witness :
  exists e,
    PostController.getPostById Demo.db [("id", "99")] = (Demo.db, Thrown e)
    /\ statusCode e = Some 404.
Proof.
  destruct (absent_post_throws Demo.dev Demo.amb Demo.db [("id", "99")] 99
              eq_refl) as (H & _).
  - intros q Hq. cbn in Hq.
    repeat (destruct Hq as [<- | Hq]; [cbn; discriminate|]). contradiction.
  - eexists. split; [exact H | reflexivity].
Defined.

Lemma author_rows (d : Db) (u : User) :
  users_pk d -> In u (users d) ->
  filter (fun v => u_id v =? u_id u) (users d) = [u].
Proof.
  intros Hpk Hin.
  pose proof (at_most_one_match u_id (u_id u) (users d) Hpk) as Hlen.
  pose proof (first_of_unique u_id (users d) u Hpk Hin) as Hfirst.
  destruct (filter (fun v => u_id v =? u_id u) (users d)) as [|a [|b t]];
    cbn in *; try discriminate; [exact Hfirst | lia].
Qed.







(** X13: when the owner deletes a stored post the answer is 200, that
    post is gone and every other post, the users table and the sequences
    are as before; reading or deleting the same id again makes the
    handler throw the 404 error "Post not found". *)
Theorem owner_delete
        (d : Db) (params : list (string * string)) (B : AuthUser) (p : Post)
        (Hpk : posts_pk d) (Hin : In p (posts d))
        (Hid : int_param "id" params = Some (p_id p))
        (Hown : p_authorId p = a_id B)
        (Hrange : Sql.in_int4 (p_id p) = true) :
  let d' := Sql.delete_post d (p_id p) in
  PostController.deletePost d params B
  = (d', Sent (ok (JObj [("success", JBool true);
                         ("message", JStr "Post deleted successfully")])))
  /\ ~ In p (posts d')
  /\ (forall q, In q (posts d') <-> In q (posts d) /\ p_id q <> p_id p)
  /\ users d' = users d
  /\ users_id_seq d' = users_id_seq d /\ posts_id_seq d' = posts_id_seq d
  /\ PostController.getPostById d' params
     = (d', Thrown (createError "Post not found" 404
                      "PostController.getPostById (src/config/index.ts:139)"))
  /\ PostController.deletePost d' params B
     = (d', Thrown (createError "Post not found" 404
                      "PostController.deletePost (src/config/index.ts:313)")).
Proof.
  cbv zeta.
  assert (Hiff : forall q, In q (posts (Sql.delete_post d (p_id p)))
                           <-> In q (posts d) /\ p_id q <> p_id p).
  { intros q. unfold Sql.delete_post. cbn [posts set_posts].
    rewrite filter_In, negb_true_iff, Z.eqb_neq. reflexivity. }
  assert (Hgone : forall q, In q (posts (Sql.delete_post d (p_id p))) ->
                            p_id q <> p_id p)
    by (intros q Hq; now apply Hiff in Hq).
  split.
  - unfold PostController.deletePost.
    now rewrite Hid, (posts_by_id_stored d p Hpk Hin), Hown, Z.eqb_refl.
  - split; [intros F; now apply Hgone in F|].
    split; [exact Hiff|].
    split; [reflexivity|]. split; [reflexivity|]. split; [reflexivity|].
    split.
    + unfold PostController.getPostById.
      now rewrite Hid, (joined_by_id_absent _ (p_id p) Hgone), Hrange.
    + unfold PostController.deletePost.
      now rewrite Hid, (posts_by_id_absent _ (p_id p) Hgone), Hrange.
Qed.

Lemma owner_delete_witness :
  exists e,
    PostController.getPostById (Sql.delete_post Demo.db 3) [("id", "3")]
    = (Sql.delete_post Demo.db 3, Thrown e)
    /\ statusCode e = Some 404.
Proof.
  assert (Hpk : posts_pk Demo.db) by exact (posts_keys _ demo_db_consistent).
  destruct (owner_delete Demo.db [("id", "3")]
              Demo.alice_user (Demo.post 3) Hpk
              ltac:(right; right; left; reflexivity) eq_refl eq_refl eq_refl)
    as (_ & _ & _ & _ & _ & _ & H & _).
  eexists. split; [exact H | reflexivity].
Defined.

(* ================================================================= *)
(** ** Listings *)


Lemma in_page {A} (n o : nat) (l : list A) (x : A) :
  In x (firstn n (skipn o l)) -> In x l.
Proof.
  intros H. rewrite <- (firstn_skipn o l). apply in_or_app. right.
  rewrite <- (firstn_skipn n (skipn o l)). apply in_or_app. now left.
Qed.

Lemma left_join_authors (d : Db) (r : Post * option User) :
  consistent d -> In r (Sql.left_join d) ->
  In (fst r) (posts d)
  /\ exists u, snd r = Some u /\ In u (users d)
               /\ u_id u = p_authorId (fst r).
Proof.
  intros Hc Hr. split; [now apply left_join_post|].
  pose proof (authors_exist d Hc) as Ha. rewrite Forall_forall in Ha.
  unfold Sql.left_join in Hr.
  apply in_flat_map in Hr as (p & Hp & Hr).
  specialize (Ha p Hp). apply existsb_exists in Ha as (u & Hu & Hid).
  apply Z.eqb_eq in Hid.
  rewrite <- Hid, (author_rows d u (users_keys d Hc) Hu) in Hr.
  destruct Hr as [<- | []]. exists u. cbn. auto.
Qed.

Lemma left_join_posts (d : Db) :
  consistent d -> map fst (Sql.left_join d) = posts d.
Proof.
  intros Hc. pose proof (authors_exist d Hc) as Ha.
  pose proof (users_keys d Hc) as Hk.
  unfold Sql.left_join.
  induction (posts d) as [|p ps IH]; [reflexivity|].
  inversion Ha as [|? ? Hp Hps]; subst.
  cbn [flat_map]. rewrite map_app, (IH Hps).
  apply existsb_exists in Hp as (u & Hu & Hid). apply Z.eqb_eq in Hid.
  now rewrite <- Hid, (author_rows d u Hk Hu).
Qed.

(** With pairwise distinct keys there is one descending arrangement. *)
Lemma may_precede_antisym (a b : option Z) :
  may_precede a b -> may_precede b a -> a = b.
Proof.
  destruct a, b; cbn; trivial; try contradiction.
  intros H1 H2. f_equal. lia.
Qed.

Lemma descending_unique {A} (key : A -> option Z) (l1 l2 : list A) :
  NoDup (map key l1) -> Permutation l1 l2 ->
  descending key l1 -> descending key l2 -> l1 = l2.
Proof.
  unfold descending. revert l2.
  induction l1 as [|x t1 IH]; intros l2 Hnd Hperm H1 H2.
  - apply Permutation_nil in Hperm. now subst.
  - destruct l2 as [|y t2].
    + symmetry in Hperm. apply Permutation_nil in Hperm. discriminate.
    + cbn [map] in Hnd. inversion Hnd as [|? ? Hnotin Hnd']; subst.
      apply StronglySorted_inv in H1 as [Ht1 Hx].
      apply StronglySorted_inv in H2 as [Ht2 Hy].
      rewrite Forall_forall in Hx, Hy.
      assert (Exy : x = y).
      { assert (Hyin : In y (x :: t1)).
        { eapply Permutation_in; [symmetry; exact Hperm | now left]. }
        destruct Hyin as [E | Hyin]; [exact E|].
        assert (Hxin : In x (y :: t2)).
        { eapply Permutation_in; [exact Hperm | now left]. }
        destruct Hxin as [E | Hxin]; [now symmetry|].
        exfalso. apply Hnotin.
        rewrite (may_precede_antisym (key x) (key y) (Hx y Hyin)
                   (Hy x Hxin)).
        now apply in_map. }
      subst y. f_equal.
      apply IH; trivial. now apply Permutation_cons_inv in Hperm.
Qed.

Lemma all_rows_unique (d : Db) :
  consistent d -> NoDup (map p_createdAt (posts d)) ->
  forall listing,
    Permutation listing (Sql.left_join d) ->
    descending (fun r => p_createdAt (fst r)) listing ->
    listing = PostController.all_rows d.
Proof.
  intros Hc Hnd listing Hperm Hsorted. unfold PostController.all_rows.
  apply (descending_unique (fun r => p_createdAt (fst r))); trivial.
  - apply (Permutation_NoDup
             (l := map (fun r => p_createdAt (fst r)) (Sql.left_join d))).
    + symmetry. now apply Permutation_map.
    + rewrite <- (map_map fst p_createdAt), (left_join_posts d Hc).
      exact Hnd.
  - rewrite Hperm. symmetry. apply order_desc_perm.
  - apply order_desc_sorted.
Qed.

(** X14: on a consistent database the selection behind GET /api/posts lists
    every stored post exactly once, newest first (a post without creation
    time before all others), and each with an author that is the stored
    user its authorId names: the left join never yields a null author and
    never duplicates a post.  When no two posts share a creation time it
    is the only arrangement of the joined rows that is in that order. *)
Theorem all_rows_complete (d : Db) (Hc : consistent d) :
  Permutation (map fst (PostController.all_rows d)) (posts d)
  /\ descending (fun r => p_createdAt (fst r)) (PostController.all_rows d)
  /\ Forall (fun r => exists u, snd r = Some u /\ In u (users d)
                                /\ u_id u = p_authorId (fst r))
            (PostController.all_rows d)
  /\ (NoDup (map p_createdAt (posts d)) ->
      forall listing,
        Permutation listing (Sql.left_join d) ->
        descending (fun r => p_createdAt (fst r)) listing ->
        listing = PostController.all_rows d).
Proof.
  unfold PostController.all_rows. split; [|split; [|split]].
  - transitivity (map fst (Sql.left_join d)).
    + apply Permutation_map, order_desc_perm.
    + now rewrite (left_join_posts d Hc).
  - apply order_desc_sorted.
  - apply Forall_forall. intros r Hr.
    apply (left_join_authors d r Hc).
    eapply Permutation_in; [apply order_desc_perm | exact Hr].
  - intros Hnd. now apply all_rows_unique.
Qed.

Lemma all_rows_complete_witness :
  Permutation (map fst (PostController.all_rows Demo.db)) (posts Demo.db).
Proof.
  destruct (all_rows_complete Demo.db demo_db_consistent) as (H & _).
  exact H.
Defined.

(** X15: the handler [getPostsByUserId], for page >= 1 and limit >= 1 with
    page*limit at most 2^53 and a user id that fits the integer column,
    answers 200 with one page of the posts whose authorId is the requested
    id, newest first, and nothing else, whether or not such a user exists:
    an id with no posts gets an empty list with hasMore = false, not an
    error.  For an id outside the column's range the query is refused and
    the handler throws. *)
Theorem getPostsByUserId_only_own
        (d : Db) (params query : list (string * string)) (uid : Z)
        (Hid : int_param "userId" params = Some uid)
        (Hp : 1 <= page_of query) (HL : 1 <= limit_of query)
        (Hfit : page_of query * limit_of query <= 2 ^ 53) :
  let selected := Sql.order_desc p_createdAt
                    (filter (fun p => p_authorId p =? uid) (posts d)) in
  let rows := page_rows (page_of query) (limit_of query) selected in
  (Sql.in_int4 uid = true ->
   exists r,
     PostController.getPostsByUserId d params query = (d, Sent r)
     /\ status r = 200
     /\ jpath ["data"; "posts"] (body r)
        = Some (JArr (map PostController.own_json rows))
     /\ jpath ["data"; "pagination"; "hasMore"] (body r)
        = Some (JBool (Z.of_nat (List.length rows) =? limit_of query))
     /\ Forall (fun p => In p (posts d) /\ p_authorId p = uid) rows
     /\ Permutation selected
          (filter (fun p => p_authorId p =? uid) (posts d))
     /\ descending p_createdAt selected
     /\ ((forall p, In p (posts d) -> p_authorId p <> uid) ->
         rows = []
         /\ jpath ["data"; "pagination"; "hasMore"] (body r)
            = Some (JBool false)))
  /\ (Sql.in_int4 uid = false ->
      (forall p, In p (posts d) -> p_authorId p <> uid) ->
      PostController.getPostsByUserId d params query
      = (d, Thrown int4_error)).
Proof.
  cbv zeta. unfold page_rows.
  set (selected := Sql.order_desc p_createdAt
                     (filter (fun p => p_authorId p =? uid) (posts d))).
  set (rows := firstn _ (skipn _ selected)).
  assert (Hperm : Permutation selected
                    (filter (fun p => p_authorId p =? uid) (posts d)))
    by apply order_desc_perm.
  split.
  - intros Hrange.
    unfold PostController.getPostsByUserId, PostController.user_rows.
    rewrite Hid, (where_int_in_range p_authorId uid (posts d) Hrange).
    cbn [option_map]. fold selected.
    rewrite (offset_exact query _ _ eq_refl eq_refl Hp HL Hfit).
    rewrite limit_offset_in_range by (unfold Sql.int8_max; nia).
    fold rows. eexists.
    split; [reflexivity|]. split; [reflexivity|]. split; [reflexivity|].
    split; [reflexivity|].
    split.
    { apply Forall_forall. intros p Hin.
      assert (Hu : In p selected).
      { subst rows. now apply in_page in Hin. }
      eapply Permutation_in in Hu; [|exact Hperm].
      apply filter_In in Hu as [H1 H2]. apply Z.eqb_eq in H2. auto. }
    split; [exact Hperm|].
    split; [apply order_desc_sorted|].
    intros Hnone.
    assert (Hnil : selected = []).
    { apply Permutation_nil. symmetry.
      rewrite filter_nil in Hperm; [exact Hperm|].
      intros p Hin. apply Z.eqb_neq. now apply Hnone. }
    assert (Hrows : rows = []).
    { subst rows. rewrite Hnil. now rewrite skipn_nil, firstn_nil. }
    split; [exact Hrows|].
    cbn. rewrite Hrows. cbn.
    destruct (limit_of query); [lia | reflexivity | reflexivity].
  - intros Hrange Hnone.
    unfold PostController.getPostsByUserId, PostController.user_rows,
      Sql.where_int.
    rewrite Hid, filter_nil, Hrange; [reflexivity|].
    intros p Hin. apply Z.eqb_neq. now apply Hnone.
Qed.

Lemma getPostsByUserId_only_own_witness :
  exists r,
    PostController.getPostsByUserId Demo.db [("userId", "2")] []
    = (Demo.db, Sent r)
    /\ jpath ["data"; "posts"] (body r) = Some (JArr []).
Proof.
  destruct (getPostsByUserId_only_own Demo.db [("userId", "2")] [] 2
              eq_refl ltac:(cbn; lia) ltac:(cbn; lia) ltac:(cbn; lia))
    as [H _].
  destruct (H eq_refl) as (r & H1 & _ & H2 & _ & _ & _ & _ & H3).
  exists r. split; [exact H1|].
  rewrite H2. destruct H3 as [-> _]; [|reflexivity].
  intros p Hp. cbn in Hp.
  repeat (destruct Hp as [<- | Hp]; [cbn; discriminate|]). contradiction.
Defined.



(* ================================================================= *)
(** ** Paging after validation *)

Lemma digit_val_range (radix : Z) (c : ascii) (v : Z) :
  Js.digit_val radix c = Some v -> 0 <= v < radix.
Proof.
  unfold Js.digit_val.
  set (n := Z.of_nat (nat_of_ascii c)).
  assert (Hcase : forall lo hi off,
             (lo <=? n) && (n <=? hi) = true -> off <= lo ->
             (if n - off <? radix then Some (n - off) else None) = Some v ->
             0 <= v < radix).
  { intros lo hi off Hb Hoff.
    apply andb_true_iff in Hb as [A B]. apply Z.leb_le in A.
    destruct (Z.ltb_spec (n - off) radix) as [F|F]; [|discriminate].
    intros Hv. injection Hv as <-. lia. }
  destruct ((48 <=? n) && (n <=? 57)) eqn:E1;
    [apply (Hcase 48 57 48 E1); lia|].
  destruct ((97 <=? n) && (n <=? 102)) eqn:E2;
    [apply (Hcase 97 102 87 E2); lia|].
  destruct ((65 <=? n) && (n <=? 70)) eqn:E3;
    [apply (Hcase 65 70 55 E3); lia | discriminate].
Qed.

Lemma digits_nonneg (s : string) (acc : option Z) :
  Js.all_digits s = true ->
  (forall a, acc = Some a -> 0 <= a) ->
  s <> EmptyString \/ acc <> None ->
  exists n, Js.digits 10 s acc = Some n /\ 0 <= n.
Proof.
  revert acc. induction s as [|c t IH]; intros acc Hall Hacc Hne.
  - destruct Hne as [F | Hn]; [congruence|].
    destruct acc as [a|]; [|congruence]. exists a. cbn. auto.
  - cbn [Js.all_digits] in Hall.
    change (Js.digits 10 (String c t) acc)
      with (match Js.digit_val 10 c with
            | Some v =>
                Js.digits 10 t
                  (Some (10 * match acc with Some a => a | None => 0 end + v))
            | None => acc
            end).
    destruct (Js.digit_val 10 c) as [v|] eqn:E; [|discriminate].
    pose proof (digit_val_range 10 c v E) as Hv.
    apply IH; trivial.
    + intros a Ha.
      assert (Ha' : a = 10 * match acc with Some a0 => a0 | None => 0 end + v)
        by congruence.
      destruct acc as [a0|]; [specialize (Hacc a0 eq_refl)|]; lia.
    + right. discriminate.
Qed.

Lemma option_map_same {A} (o : option A) : option_map (fun v => v) o = o.
Proof. now destruct o. Qed.

Lemma parse_digits (s : string) :
  Js.digits_only s = true -> Js.parse s = Js.digits 10 s None.
Proof.
  destruct s as [|c t]; [discriminate|].
  cbn [Js.digits_only Js.all_digits].
  destruct (Js.digit_val 10 c) as [v|] eqn:Ec; [|discriminate].
  intros Ht.
  destruct c as [[] [] [] [] [] [] [] []];
    try (vm_compute in Ec; discriminate Ec);
    try (unfold Js.parse; cbn [Js.skip_ws Js.is_ws];
         apply option_map_same).
  destruct t as [|c2 t2]; [reflexivity|].
  cbn [Js.all_digits] in Ht.
  destruct (Js.digit_val 10 c2) as [v2|] eqn:E2; [|discriminate].
  destruct c2 as [[] [] [] [] [] [] [] []];
    try (vm_compute in E2; discriminate E2);
    unfold Js.parse; cbn [Js.skip_ws Js.is_ws]; apply option_map_same.
Qed.

Lemma double_nonneg (n : Z) : 0 <= n -> 0 <= Js.double n.
Proof.
  intros Hn. unfold Js.double.
  destruct (Z.abs n <? 2 ^ 53); [exact Hn|].
  apply Z.mul_nonneg_nonneg; [lia|].
  apply Z.mul_nonneg_nonneg; [|apply Z.pow_nonneg; lia].
  assert (Hq : 0 <= Z.abs n / 2 ^ (Z.log2 (Z.abs n) - 52)).
  {
    destruct (Z.le_gt_cases 0 (Z.log2 (Z.abs n) - 52)) as [Hk | Hk].
    - apply Z.div_pos; [lia|]. apply Z.pow_pos_nonneg; lia.
    - rewrite (Z.pow_neg_r 2 _ Hk). now rewrite Z.div_0_r. }
  destruct (_ || _); lia.
Qed.

(** A string of digits is read as the double nearest to the number it
    spells. *)
Lemma parseInt_digits (s : string) :
  Js.digits_only s = true ->
  exists n, Js.digits 10 s None = Some n /\ 0 <= n
            /\ Js.parseInt s = Some (Js.double n).
Proof.
  intros Hs. destruct (digits_nonneg s None) as (n & Hn & Hpos).
  - destruct s; [discriminate | exact Hs].
  - discriminate.
  - left. destruct s; discriminate.
  - exists n. split; [exact Hn|]. split; [exact Hpos|].
    unfold Js.parseInt. now rewrite (parse_digits s Hs), Hn.
Qed.

Lemma parseInt_or_digits (x : option string) (dflt : Z) :
  Schemas.digits_or_absent x = true -> 1 <= dflt ->
  1 <= Js.parseInt_or x dflt.
Proof.
  intros Hx Hd. unfold Js.parseInt_or.
  destruct x as [s|]; [|exact Hd]. cbn in Hx.
  destruct (parseInt_digits s Hx) as (n & _ & Hn & ->).
  pose proof (double_nonneg n Hn) as Hdn.
  destruct (Js.double n); lia.
Qed.

(** X17: a query that [paginationSchema] accepts always gives page >= 1 and
    limit >= 1 (an absent or zero value falls back to 1 and 10);
    when moreover page*limit is at most 2^53, [getAllPosts] answers 200
    for it, and so does [getPostsByUserId] for a user id that fits the
    integer column.  The handler alone, given page=-1, asks the driver for
    a negative offset and throws an error without a status; given
    limit=-1 it leaves the LIMIT out and answers 200 with every row. *)
Theorem validated_paging_is_safe (d : Db) (query : list (string * string))
        (Hv : Schemas.paginationSchema query = Some tt) :
  1 <= page_of query /\ 1 <= limit_of query
  /\ (page_of query * limit_of query <= 2 ^ 53 ->
      (exists r, PostController.getAllPosts d query = (d, Sent r)
                 /\ status r = 200)
      /\ (forall params uid,
            int_param "userId" params = Some uid ->
            Sql.in_int4 uid = true ->
            exists r,
              PostController.getPostsByUserId d params query = (d, Sent r)
              /\ status r = 200))
  /\ PostController.getAllPosts d [("page", "-1")] = (d, Thrown range_error)
  /\ statusCode range_error = None
  /\ PostController.allPosts d [("limit", "-1")]
     = Some (PostController.all_rows d).
Proof.
  unfold Schemas.paginationSchema in Hv.
  destruct (Schemas.digits_or_absent (assoc "page" query)) eqn:E1;
    [|discriminate].
  destruct (Schemas.digits_or_absent (assoc "limit" query)) eqn:E2;
    [|discriminate].
  assert (Hp : 1 <= page_of query)
    by (apply parseInt_or_digits; [exact E1 | lia]).
  assert (HL : 1 <= limit_of query)
    by (apply parseInt_or_digits; [exact E2 | lia]).
  split; [exact Hp|]. split; [exact HL|]. split; [|split; [|split]].
  - intros Hfit.
    assert (Hrun : forall A (rows : list A),
               Sql.limit_offset (limit_of query) (offset_of query) rows
               = Some (page_rows (page_of query) (limit_of query) rows)).
    { intros A rows.
      rewrite (offset_exact query _ _ eq_refl eq_refl Hp HL Hfit).
      apply limit_offset_in_range; unfold Sql.int8_max; nia. }
    split.
    + unfold PostController.getAllPosts, PostController.allPosts.
      rewrite Hrun. eexists. split; reflexivity.
    + intros params uid Hid Hrange.
      unfold PostController.getPostsByUserId, PostController.user_rows.
      rewrite Hid, (where_int_in_range p_authorId uid (posts d) Hrange).
      cbn [option_map]. rewrite Hrun. eexists. split; reflexivity.
  - reflexivity.
  - reflexivity.
  - reflexivity.
Qed.

Lemma validated_paging_is_safe_witness :
  Schemas.paginationSchema [("page", "0"); ("limit", "007")] = Some tt
  /\ page_of [("page", "0"); ("limit", "007")] = 1
  /\ limit_of [("page", "0"); ("limit", "007")] = 7
  /\ 1 <= page_of [("page", "0"); ("limit", "007")].
Proof.
  split; [reflexivity|]. split; [reflexivity|]. split; [reflexivity|].
  destruct (validated_paging_is_safe Demo.db
              [("page", "0"); ("limit", "007")] eq_refl) as (H & _).
  exact H.
Defined.

(* ================================================================= *)
(** ** The uniform envelope *)










(* ================================================================= *)
(** ** Start-up *)

(** X19: loading the configuration fails exactly when DATABASE_URL or
    JWT_SECRET is unset or empty, naming DATABASE_URL first when both are;
    otherwise the exported values are the two variables as given (hence
    non-empty), and NODE_ENV, PORT and the others fall back to their
    defaults when unset or empty. *)
Theorem startup_requires_database_and_secret (env : Startup.Env) :
  (Startup.missing env "DATABASE_URL" = true ->
   Startup.load env = inl "Environment variable DATABASE_URL is required")
  /\ (Startup.missing env "DATABASE_URL" = false ->
      Startup.missing env "JWT_SECRET" = true ->
      Startup.load env = inl "Environment variable JWT_SECRET is required")
  /\ (Startup.missing env "DATABASE_URL" = false ->
      Startup.missing env "JWT_SECRET" = false ->
      exists c,
        Startup.load env = inr c
        /\ assoc "DATABASE_URL" env = Some (Startup.DATABASE_URL c)
        /\ assoc "JWT_SECRET" env = Some (Startup.JWT_SECRET c)
        /\ Startup.DATABASE_URL c <> EmptyString
        /\ Startup.JWT_SECRET c <> EmptyString
        /\ Startup.NODE_ENV c <> EmptyString
        /\ (Startup.missing env "NODE_ENV" = true ->
            Startup.NODE_ENV c = "development")
        /\ (Startup.missing env "PORT" = true ->
            Startup.PORT c = Some 3000)
        /\ (Startup.missing env "JWT_EXPIRES_IN" = true ->
            Startup.JWT_EXPIRES_IN c = "7d")).
Proof.
  unfold Startup.load, Startup.requiredEnvVars.
  cbn [Startup.first_missing].
  split; [|split].
  - intros ->. reflexivity.
  - intros -> ->. reflexivity.
  - intros H1 H2. rewrite H1, H2. eexists. split; [reflexivity|].
    cbn [Startup.DATABASE_URL Startup.JWT_SECRET Startup.NODE_ENV
         Startup.PORT Startup.JWT_EXPIRES_IN].
    unfold Startup.missing, Startup.value, CONFIG.or_default in *.
    destruct (assoc "DATABASE_URL" env) as [[|? ?]|]; try discriminate H1.
    destruct (assoc "JWT_SECRET" env) as [[|? ?]|]; try discriminate H2.
    repeat split; try discriminate.
    + destruct (assoc "NODE_ENV" env) as [[|? ?]|]; discriminate.
    + destruct (assoc "NODE_ENV" env) as [[|? ?]|];
        intros; try discriminate; reflexivity.
    + destruct (assoc "PORT" env) as [[|? ?]|];
        intros; try discriminate; reflexivity.
    + destruct (assoc "JWT_EXPIRES_IN" env) as [[|? ?]|];
        intros; try discriminate; reflexivity.
Qed.

Lemma startup_requires_database_and_secret_witness :
  exists c,
    Startup.load Demo.env = inr c
    /\ Startup.PORT c = Some 8080
    /\ Startup.NODE_ENV c = "development"
    /\ Startup.JWT_SECRET c = "secret".
Proof.
  destruct (startup_requires_database_and_secret Demo.env) as (_ & _ & H).
  destruct (H eq_refl eq_refl) as (c & Hc & _).
  exists c. split; [exact Hc|].
  vm_compute in Hc. injection Hc as <-. repeat split.
Defined.

(* ================================================================= *)
(** ** Parameters and errors at their edges *)

Lemma decimal_digit (c : ascii) (v : Z) :
  Js.digit_val 10 c = Some v -> v = Z.of_nat (nat_of_ascii c) - 48.
Proof.
  unfold Js.digit_val.
  set (n := Z.of_nat (nat_of_ascii c)).
  destruct ((48 <=? n) && (n <=? 57)) eqn:E1.
  - destruct (n - 48 <? 10); [|discriminate]. congruence.
  - destruct ((97 <=? n) && (n <=? 102)) eqn:E2.
    + apply andb_true_iff in E2 as [A _]. apply Z.leb_le in A.
      destruct (Z.ltb_spec (n - 87) 10); [lia | discriminate].
    + destruct ((65 <=? n) && (n <=? 70)) eqn:E3; [|discriminate].
      apply andb_true_iff in E3 as [A _]. apply Z.leb_le in A.
      destruct (Z.ltb_spec (n - 55) 10); [lia | discriminate].
Qed.

Lemma digits_decimal (s : string) (acc : option Z) :
  Js.all_digits s = true ->
  s <> EmptyString \/ acc <> None ->
  Js.digits 10 s acc
  = Some (decimal_from match acc with Some a => a | None => 0 end s).
Proof.
  revert acc. induction s as [|c t IH]; intros acc Hall Hne.
  - destruct Hne as [F | Hn]; [congruence|].
    destruct acc as [a|]; [reflexivity | congruence].
  - cbn [Js.all_digits] in Hall.
    change (Js.digits 10 (String c t) acc)
      with (match Js.digit_val 10 c with
            | Some v =>
                Js.digits 10 t
                  (Some (10 * match acc with Some a => a | None => 0 end + v))
            | None => acc
            end).
    destruct (Js.digit_val 10 c) as [v|] eqn:E; [|discriminate].
    rewrite (IH _ Hall) by (right; discriminate).
    cbn [decimal_from]. now rewrite (decimal_digit c v E).
Qed.

(** X20: an id that [idParamSchema] accepts is read by the controllers'
    [parseInt(req.params.id)] as the double nearest to the number its
    digits spell: never NaN, never negative, and that number itself below
    2^53.  Without the schema a controller would also read "0x10" as 16
    and "12abc" as 12, which the schema refuses; with it, the id
    9007199254740993 is read as 9007199254740992. *)
Theorem idParamSchema_accepts_decimal (params : list (string * string))
        (H : Schemas.idParamSchema params = Some tt) :
  (exists s, assoc "id" params = Some s /\ Js.digits_only s = true
             /\ int_param "id" params = Some (Js.double (decimal s))
             /\ 0 <= decimal s /\ 0 <= Js.double (decimal s)
             /\ (decimal s < 2 ^ 53 ->
                 int_param "id" params = Some (decimal s)))
  /\ Schemas.idParamSchema [("id", "0x10")] = None
  /\ int_param "id" [("id", "0x10")] = Some 16
  /\ Schemas.idParamSchema [("id", "12abc")] = None
  /\ int_param "id" [("id", "12abc")] = Some 12
  /\ Schemas.idParamSchema [("id", "9007199254740993")] = Some tt
  /\ int_param "id" [("id", "9007199254740993")] = Some 9007199254740992.
Proof.
  split; [|repeat split].
  unfold Schemas.idParamSchema, int_param in *.
  destruct (assoc "id" params) as [s|]; [|discriminate].
  destruct (Js.digits_only s) eqn:E; [|discriminate].
  destruct (parseInt_digits s E) as (n & Hn & Hpos & Hparse).
  assert (Hdec : n = decimal s).
  { rewrite digits_decimal in Hn.
    - unfold decimal. congruence.
    - destruct s; [discriminate | exact E].
    - left. destruct s; discriminate. }
  subst n. exists s.
  split; [reflexivity|]. split; [exact E|]. split; [exact Hparse|].
  split; [exact Hpos|]. split; [now apply double_nonneg|].
  intros Hsmall. rewrite Hparse. f_equal. apply double_exact. lia.
Qed.

Lemma idParamSchema_accepts_decimal_witness :
  Schemas.idParamSchema [("id", "007")] = Some tt
  /\ int_param "id" [("id", "007")] = Some 7.
Proof.
  split; [reflexivity|].
  destruct (idParamSchema_accepts_decimal [("id", "007")] eq_refl)
    as ((s & Hs & _ & H & _) & _).
  injection Hs as <-. exact H.
Defined.


(* ================================================================= *)
(** ** Ownership is permanent *)

Lemma posts_pk_same (d : Db) (p q : Post) :
  posts_pk d -> In p (posts d) -> In q (posts d) -> p_id p = p_id q -> p = q.
Proof.
  intros Hpk Hp Hq E.
  pose proof (posts_by_id_stored d p Hpk Hp) as H1.
  pose proof (posts_by_id_stored d q Hpk Hq) as H2.
  rewrite E in H1. congruence.
Qed.

Lemma keeps_owners_same_posts (d d' : Db) :
  posts_pk d -> posts d' = posts d -> keeps_owners d d'.
Proof.
  intros Hpk E p p' Hp Hp' Hid. rewrite E in Hp'.
  now rewrite (posts_pk_same d p' p Hpk Hp' Hp Hid).
Qed.

Lemma createPost_keeps_owners (amb : Ambient) (d : Db) (user : AuthUser)
      (data : PostController.CreatePostData) :
  posts_pk d ->
  keeps_owners d (fst (PostController.createPost amb d user data)).
Proof.
  intros Hpk. unfold PostController.createPost, Sql.insert_post.
  destruct (negb (Sql.fits 255 (PostController.c_title data)));
    cbn [orb fst]; [now apply keeps_owners_same_posts|].
  destruct (existsb (fun q => p_id q =? posts_id_seq d + 1) (posts d))
    eqn:E; cbn [orb fst].
  - now apply keeps_owners_same_posts.
  - destruct (negb _); cbn [fst]; [now apply keeps_owners_same_posts|].
    intros p p' Hp Hp' Hid. cbn [posts set_posts] in Hp'.
    apply in_app_or in Hp' as [Hp' | [<- | []]].
    + now rewrite (posts_pk_same d p' p Hpk Hp' Hp Hid).
    + cbn [p_id] in Hid.
      pose proof (existsb_false_forall _ _ E p Hp) as F. cbn in F.
      apply Z.eqb_neq in F. congruence.
Qed.

Lemma updatePost_keeps_owners (w : World) (amb : Ambient) (d : Db)
      (ps : list (string * string)) (user : AuthUser) (body : json) :
  posts_pk d ->
  PostController.declared_update body <> None ->
  keeps_owners d (fst (PostController.updatePost w amb d ps user body)).
Proof.
  intros Hpk Hdecl.
  unfold PostController.updatePost, PostController.set_and_return.
  destruct (int_param "id" ps) as [i|];
    [|now apply keeps_owners_same_posts].
  destruct (Sql.posts_by_id d i) as [[|q rest]|];
    try (now apply keeps_owners_same_posts).
  destruct (negb _); [now apply keeps_owners_same_posts|].
  destruct (PostController.declared_update body) as [data|]; [|congruence].
  destruct (match PostController.up_title data with
            | Some t => Sql.fits 255 t
            | None => true
            end); [|now apply keeps_owners_same_posts].
  unfold PostController.update_posts. cbn [fst].
  intros p p' Hp Hp' Hid. cbn [posts set_posts] in Hp'.
  apply in_map_iff in Hp' as (q' & <- & Hq').
  assert (Hsame : p_id q' = p_id p)
    by (rewrite <- Hid; destruct (p_id q' =? i); reflexivity).
  rewrite (posts_pk_same d q' p Hpk Hq' Hp Hsame).
  destruct (p_id p =? i); split; reflexivity.
Qed.

Lemma deletePost_keeps_owners (d : Db) (ps : list (string * string))
      (user : AuthUser) :
  posts_pk d -> keeps_owners d (fst (PostController.deletePost d ps user)).
Proof.
  intros Hpk. unfold PostController.deletePost.
  destruct (int_param "id" ps) as [i|];
    [|now apply keeps_owners_same_posts].
  destruct (Sql.posts_by_id d i) as [[|q rest]|];
    try (now apply keeps_owners_same_posts).
  destruct (negb _); [now apply keeps_owners_same_posts|].
  cbn [fst]. intros p p' Hp Hp' Hid.
  unfold Sql.delete_post in Hp'. cbn [posts set_posts] in Hp'.
  apply filter_In in Hp' as [Hp' _].
  now rewrite (posts_pk_same d p' p Hpk Hp' Hp Hid).
Qed.

Lemma register_keeps_posts (w : World) (amb : Ambient) (d : Db)
      (data : AuthController.RegisterData) :
  posts (fst (AuthController.register w amb d data)) = posts d.
Proof.
  unfold AuthController.register.
  destruct (0 <? List.length _)%nat; [reflexivity|].
  destruct (Sql.insert_user _ _ _ _ _ _) as [d' [row|]] eqn:E; cbn [fst].
  - now destruct (insert_user_row _ _ _ _ _ _ _ _ E) as (_ & H & _).
  - now destruct (insert_user_none _ _ _ _ _ _ _ E).
Qed.

(** X22: no request whose effect the sources decide changes who owns a
    post or when it was created: after any request other than an update
    whose body has members beyond title, content and isPublished, every
    post that carries the id of a post stored before still has that
    post's authorId and createdAt.  (New posts get fresh ids.) *)
Theorem ownership_is_permanent
        (w : World) (amb : Ambient) (d : Db) (req : Request)
        (Hpk : posts_pk d) (Hdecl : declared req = true) :
  forall p p',
    In p (posts d) -> In p' (posts (db_after (app w amb d req))) ->
    p_id p' = p_id p ->
    p_authorId p' = p_authorId p /\ p_createdAt p' = p_createdAt p.
Proof.
  change (keeps_owners d (db_after (app w amb d req))).
  assert (Hrefl : keeps_owners d d)
    by (now apply keeps_owners_same_posts).
  assert (Hbody : forall id, route_of req = UpdatePost id ->
                             PostController.declared_update (reqBody req)
                             <> None).
  { intros id Hroute. unfold declared in Hdecl. rewrite Hroute in Hdecl.
    destruct (PostController.declared_update (reqBody req));
      [discriminate | discriminate Hdecl]. }
  clear Hdecl. unfold app.
  destruct (route_of req) eqn:Hroute; cbn [chain];
    try specialize (Hbody _ eq_refl);
    repeat (apply through_db; [exact Hrefl | intros ?]);
    try rewrite finish_db;
    first [ exact Hrefl
          | now rewrite login_frame
          | now rewrite getAllPosts_frame
          | now rewrite getPostById_frame
          | now rewrite getPostsByUserId_frame
          | now apply createPost_keeps_owners
          | now apply updatePost_keeps_owners
          | now apply deletePost_keeps_owners
          | (apply keeps_owners_same_posts;
             [exact Hpk | apply register_keeps_posts])
          | (unfold not_found, answer; split_matches; exact Hrefl) ].
Qed.

Lemma ownership_is_permanent_witness :
  exists d',
    db_after (app Demo.dev Demo.amb Demo.db
                (Demo.request PUT ["api"; "posts"; "3"] (Some "Bearer t1") []
                   (JObj [("title", JStr "mine now")]))) = d'
    /\ In (PostController.apply_update 1000 Demo.retitle (Demo.post 3))
          (posts d')
    /\ p_authorId (PostController.apply_update 1000 Demo.retitle
                     (Demo.post 3)) = 1.
Proof.
  eexists. split; [reflexivity|].
  assert (Hin : In (PostController.apply_update 1000 Demo.retitle
                      (Demo.post 3))
                   (posts (db_after (app Demo.dev Demo.amb Demo.db
                      (Demo.request PUT ["api"; "posts"; "3"]
                         (Some "Bearer t1") []
                         (JObj [("title", JStr "mine now")]))))))
    by (right; right; left; reflexivity).
  split; [exact Hin|].
  destruct (ownership_is_permanent Demo.dev Demo.amb Demo.db
              (Demo.request PUT ["api"; "posts"; "3"] (Some "Bearer t1") []
                 (JObj [("title", JStr "mine now")]))
              (posts_keys _ demo_db_consistent) eq_refl
              (Demo.post 3) _ ltac:(right; right; left; reflexivity)
              Hin eq_refl) as (H & _).
  exact H.
Defined.
